(** * InfoSeek front end: job tracking, input parsing and PDF resolution

    A shallow embedding of the client-side logic of
    [frontend/src/components/NewsSearch] (shipped in [frontend/src/App.js])
    and of [frontend/src/services/api.js], followed by the properties of
    the job-tracking engine that are settled against it.

    Conventions of the embedding.
    - A JavaScript string is the list of its UTF-16 code units.
    - [created_at] is the millisecond timestamp that [new Date(created_at)]
      yields; subtracting two dates is subtraction in [Z].
    - An [async] function is cut at each [await] of a network call: the part
      before the call and one continuation per outcome (fulfilled, rejected)
      are separate state transformers.  Every transformer also returns the
      network calls and timer operations it issues.
    - [Array.prototype.sort] is stable (ECMAScript 2019), so for a comparator
      that is a total preorder its result is the stable insertion sort. *)

From Stdlib Require Import List ZArith NArith Lia Bool String Ascii.
From Stdlib Require Import Permutation Sorted DecimalN DecimalPos.
Import ListNotations.

Set Implicit Arguments.
Local Open Scope Z_scope.

(* ================================================================== *)
(** * Part I.  The embedding                                           *)
(* ================================================================== *)

(** ** JavaScript strings *)

Module JsString.

Definition jsstring := list N.

(** Decoding of a source literal (UTF-8 bytes) into code units. *)
Fixpoint utf8 (bs : list N) : jsstring :=
  match bs with
  | [] => []
  | b1 :: r1 =>
    if (b1 <? 128)%N then b1 :: utf8 r1 else
    match r1 with
    | [] => [b1]
    | b2 :: r2 =>
      if (b1 <? 224)%N then ((b1 - 192) * 64 + (b2 - 128))%N :: utf8 r2 else
      match r2 with
      | [] => [b1; b2]
      | b3 :: r3 =>
        if (b1 <? 240)%N
        then ((b1 - 224) * 4096 + (b2 - 128) * 64 + (b3 - 128))%N :: utf8 r3
        else
        match r3 with
        | [] => [b1; b2; b3]
        | b4 :: r4 =>
          let cp := ((b1 - 240) * 262144 + (b2 - 128) * 4096
                     + (b3 - 128) * 64 + (b4 - 128))%N in
          let v := (cp - 65536)%N in
          (55296 + v / 1024)%N :: (56320 + v mod 1024)%N :: utf8 r4
        end
      end
    end
  end.

Definition js (s : string) : jsstring :=
  utf8 (List.map N_of_ascii (list_ascii_of_string s)).

Fixpoint eqb (a b : jsstring) : bool :=
  match a, b with
  | [], [] => true
  | x :: a', y :: b' => (x =? y)%N && eqb a' b'
  | _, _ => false
  end.

(** WhiteSpace and LineTerminator code points: what [trim] strips and
    what [\s] matches. *)
Definition isWhiteSpace (c : N) : bool :=
  ((9 <=? c) && (c <=? 13) || (c =? 32) || (c =? 160) || (c =? 5760)
   || (8192 <=? c) && (c <=? 8202) || (c =? 8232) || (c =? 8233)
   || (c =? 8239) || (c =? 8287) || (c =? 12288) || (c =? 65279))%N.

(** [\d] *)
Definition isDigit (c : N) : bool := ((48 <=? c) && (c <=? 57))%N.

Fixpoint dropWhile (p : N -> bool) (s : jsstring) : jsstring :=
  match s with
  | [] => []
  | c :: s' => if p c then dropWhile p s' else s
  end.

Fixpoint takeWhile (p : N -> bool) (s : jsstring) : jsstring :=
  match s with
  | [] => []
  | c :: s' => if p c then c :: takeWhile p s' else []
  end.

Definition trimStart (s : jsstring) : jsstring := dropWhile isWhiteSpace s.
Definition trimEnd (s : jsstring) : jsstring :=
  rev (dropWhile isWhiteSpace (rev s)).

(** [s.trim()] *)
Definition trim (s : jsstring) : jsstring := trimEnd (trimStart s).

(** [s.startsWith(p)] *)
Fixpoint startsWith (p s : jsstring) : bool :=
  match p, s with
  | [], _ => true
  | x :: p', y :: s' => (x =? y)%N && startsWith p' s'
  | _ :: _, [] => false
  end.

(** [s.indexOf(p)], [None] for [-1]. *)
Fixpoint indexOf (p s : jsstring) : option nat :=
  if startsWith p s then Some O else
  match s with
  | [] => None
  | _ :: s' => option_map S (indexOf p s')
  end.

(** [s.lastIndexOf(p)], [None] for [-1]. *)
Fixpoint lastIndexOf (p s : jsstring) : option nat :=
  match s with
  | [] => if startsWith p [] then Some O else None
  | _ :: s' =>
    match lastIndexOf p s' with
    | Some i => Some (S i)
    | None => if startsWith p s then Some O else None
    end
  end.

(** [s.includes(p)] *)
Definition includes (p s : jsstring) : bool :=
  match indexOf p s with Some _ => true | None => false end.

(** [s.substring(i)] and [s.slice(i)] for [0 <= i]. *)
Definition substring (i : nat) (s : jsstring) : jsstring := skipn i s.

(** [s.split(c)] for a one-character separator [c]. *)
Fixpoint split_acc (c : N) (cur : jsstring) (s : jsstring) : list jsstring :=
  match s with
  | [] => [rev cur]
  | x :: s' =>
    if (x =? c)%N then rev cur :: split_acc c [] s'
    else split_acc c (x :: cur) s'
  end.
Definition split (c : N) (s : jsstring) : list jsstring := split_acc c [] s.

(** [s.split(/\s+/)]: the pieces between maximal runs of white space. *)
Fixpoint splitWs_acc (insep : bool) (cur : jsstring) (s : jsstring)
  : list jsstring :=
  match s with
  | [] => [rev cur]
  | x :: s' =>
    if isWhiteSpace x
    then if insep then splitWs_acc true cur s'
         else rev cur :: splitWs_acc true [] s'
    else splitWs_acc false (x :: cur) s'
  end.
Definition splitWs (s : jsstring) : list jsstring := splitWs_acc false [] s.

(** [parts.join(sep)] *)
Fixpoint join (sep : jsstring) (parts : list jsstring) : jsstring :=
  match parts with
  | [] => []
  | [p] => p
  | p :: rest => p ++ sep ++ join sep rest
  end.

(** [parseInt(s, 10)]: leading white space, an optional sign, then the
    longest run of decimal digits; [None] is [NaN]. *)
Definition digitsValue (ds : jsstring) : Z :=
  fold_left (fun acc c => acc * 10 + (Z.of_N c - 48)) ds 0.

Definition parseInt10 (s : jsstring) : option Z :=
  let s1 := trimStart s in
  let '(sign, s2) :=
    match s1 with
    | c :: r => if (c =? 45)%N then (-1, r)
                else if (c =? 43)%N then (1, r) else (1, s1)
    | [] => (1, s1)
    end in
  match takeWhile isDigit s2 with
  | [] => None
  | ds => Some (sign * digitsValue ds)
  end.

(** The decimal numeral of a natural number. *)
Fixpoint uintUnits (d : Decimal.uint) : jsstring :=
  match d with
  | Decimal.Nil => []
  | Decimal.D0 d' => 48%N :: uintUnits d'
  | Decimal.D1 d' => 49%N :: uintUnits d'
  | Decimal.D2 d' => 50%N :: uintUnits d'
  | Decimal.D3 d' => 51%N :: uintUnits d'
  | Decimal.D4 d' => 52%N :: uintUnits d'
  | Decimal.D5 d' => 53%N :: uintUnits d'
  | Decimal.D6 d' => 54%N :: uintUnits d'
  | Decimal.D7 d' => 55%N :: uintUnits d'
  | Decimal.D8 d' => 56%N :: uintUnits d'
  | Decimal.D9 d' => 57%N :: uintUnits d'
  end.
Definition numeral (n : N) : jsstring := uintUnits (N.to_uint n).

End JsString.
Import JsString.

(** ** Jobs as the client sees them *)

Definition TaskId := jsstring.

Inductive Status := pending | processing | completed | failed.

Definition Status_eqb (a b : Status) : bool :=
  match a, b with
  | pending, pending | processing, processing
  | completed, completed | failed, failed => true
  | _, _ => false
  end.

Record Result := mkResult {
  result_id : Z;
  title : jsstring;
  source_url : jsstring;
  pdf_file : option jsstring
}.

Module Task.
Record t := mk {
  id : TaskId;
  keyword : jsstring;
  status : Status;
  created_at : Z;
  results : list Result;
  error_message : option jsstring
}.

(** [{ ...task, status: s }] *)
Definition with_status (s : Status) (task : t) : t :=
  mk (id task) (keyword task) s (created_at task) (results task)
     (error_message task).
End Task.

(** [task.status === 'completed' || task.status === 'failed'] *)
Definition isTerminal (task : Task.t) : bool :=
  Status_eqb (Task.status task) completed || Status_eqb (Task.status task) failed.

(** [task.status === 'pending' || task.status === 'processing'] *)
Definition isPendingOrProcessing (task : Task.t) : bool :=
  Status_eqb (Task.status task) pending || Status_eqb (Task.status task) processing.

(** ** [Set] and [Map] keyed by task id, in insertion order *)

Module JsSet.
Definition t := list TaskId.
Definition has (s : t) (k : TaskId) : bool := existsb (JsString.eqb k) s.
Definition add (k : TaskId) (s : t) : t := if has s k then s else s ++ [k].
End JsSet.

Module JsMap.
Definition t := list (TaskId * Task.t).

(** [m.set(k, v)]: an existing key keeps its place, a new key goes last. *)
Fixpoint set (k : TaskId) (v : Task.t) (m : t) : t :=
  match m with
  | [] => [(k, v)]
  | (k', v') :: m' =>
    if JsString.eqb k k' then (k, v) :: m' else (k', v') :: set k v m'
  end.

Definition keys (m : t) : list TaskId := List.map fst m.
Definition values (m : t) : list Task.t := List.map snd m.
End JsMap.

(** ** [Array.prototype.sort] *)

Section Sort.
Variable A : Type.
Variable comparefn : A -> A -> Z.

Fixpoint sort_insert (x : A) (l : list A) : list A :=
  match l with
  | [] => [x]
  | y :: l' => if comparefn x y <=? 0 then x :: y :: l'
               else y :: sort_insert x l'
  end.

Fixpoint sort (l : list A) : list A :=
  match l with
  | [] => []
  | x :: l' => sort_insert x (sort l')
  end.
(** [a] may stand before [b]. *)
Definition inOrder (a b : A) : Prop := comparefn a b <= 0.

End Sort.

(** ** TaskListSynchronizer: the body of [loadTasks] *)

Module Sync.

Definition STUCK_TASK_TIMEOUT : Z := 15 * 60 * 1000.

(** The two shapes [getAllSearchTasks] may resolve to. *)
Inductive ListResponse :=
| BareArray (tasks : list Task.t)
| Envelope (results : option (list Task.t)).

(** [Array.isArray(tasks) ? tasks : (tasks.results || [])] *)
Definition tasksArray_of (tasks : ListResponse) : list Task.t :=
  match tasks with
  | BareArray l => l
  | Envelope (Some l) => l
  | Envelope None => []
  end.

Definition activeFilter (removed : JsSet.t) (now : Z) (task : Task.t) : bool :=
  if JsSet.has removed (Task.id task) then false
  else if isPendingOrProcessing task then
    let taskAge := now - Task.created_at task in
    if taskAge >? STUCK_TASK_TIMEOUT then false else true
  else false.

Definition stuckFilter (removed : JsSet.t) (now : Z) (task : Task.t) : bool :=
  if JsSet.has removed (Task.id task) then false
  else if isPendingOrProcessing task then
    let taskAge := now - Task.created_at task in
    taskAge >? STUCK_TASK_TIMEOUT
  else false.

(** [(a, b) => new Date(b.created_at) - new Date(a.created_at)] *)
Definition newestFirst (a b : Task.t) : Z :=
  Task.created_at b - Task.created_at a.

Definition setTask (m : JsMap.t) (task : Task.t) : JsMap.t :=
  JsMap.set (Task.id task) task m.

Definition preserveTerminal (m : JsMap.t) (task : Task.t) : JsMap.t :=
  if isTerminal task then JsMap.set (Task.id task) task m else m.

Definition active (tasksArray : list Task.t) (removed : JsSet.t) (now : Z)
  : list Task.t :=
  filter (activeFilter removed now) tasksArray.

Definition stuckTasks (tasksArray : list Task.t) (removed : JsSet.t) (now : Z)
  : list Task.t :=
  List.map (Task.with_status failed) (filter (stuckFilter removed now) tasksArray).

Definition historyMap (historyTasks tasksArray : list Task.t)
           (removed : JsSet.t) (now : Z) : JsMap.t :=
  let m1 := fold_left preserveTerminal historyTasks [] in
  let m2 := fold_left setTask (filter isTerminal tasksArray) m1 in
  fold_left setTask (stuckTasks tasksArray removed now) m2.

Definition history (historyTasks tasksArray : list Task.t)
           (removed : JsSet.t) (now : Z) : list Task.t :=
  sort newestFirst (JsMap.values (historyMap historyTasks tasksArray removed now)).

(** One pass: the values handed to [setActiveTasks] and [setHistoryTasks].
    [historyTasks] is the History visible to the closure that runs. *)
Definition merge (historyTasks : list Task.t) (tasks : ListResponse)
           (removed : JsSet.t) (now : Z) : list Task.t * list Task.t :=
  let tasksArray := tasksArray_of tasks in
  (active tasksArray removed now, history historyTasks tasksArray removed now).

End Sync.

(** ** InputParser: the parsing part of [handleSearch] *)

Module InputParser.

(** Case folding of a case-insensitive pattern without the [u] flag:
    the upper-case mapping, given here on the Latin and Cyrillic small
    letters and on the three other characters whose upper case is a letter
    of the pattern (U+1C83, U+1C84, U+1C85).  No other character folds to
    a letter that occurs in the pattern. *)
Definition canonicalize (c : N) : N :=
  if ((97 <=? c) && (c <=? 122))%N then (c - 32)%N
  else if ((1072 <=? c) && (c <=? 1103))%N then (c - 32)%N
  else if (c =? 7299)%N then 1057%N
  else if ((c =? 7300) || (c =? 7301))%N then 1058%N
  else c.

(** The rest of [s] after a case-insensitive match of the literal [pat]. *)
Fixpoint matchLiteral (pat s : jsstring) : option jsstring :=
  match pat, s with
  | [], _ => Some s
  | p :: pat', c :: s' =>
    if (canonicalize p =? canonicalize c)%N then matchLiteral pat' s' else None
  | _ :: _, [] => None
  end.

Definition nouns : list jsstring :=
  [js "статьи"; js "статей"; js "статья"; js "article"; js "articles"].

Definition allWhiteSpace (s : jsstring) : bool := forallb isWhiteSpace s.

(** [s.match(/^(\d+)\s*(?:статьи|статей|статья|article|articles)?\s*$/i)]:
    the first capture group, or [None] when there is no match.  A digit is
    neither white space nor the first letter of a noun, and no noun starts
    with white space, so the two greedy runs are the whole runs. *)
Definition numberMatch (s : jsstring) : option jsstring :=
  match takeWhile isDigit s with
  | [] => None
  | ds =>
    let rest := dropWhile isWhiteSpace (dropWhile isDigit s) in
    if allWhiteSpace rest
       || existsb (fun noun => match matchLiteral noun rest with
                               | Some r => allWhiteSpace r
                               | None => false
                               end) nouns
    then Some ds else None
  end.

(** [parsedCount > 0 && parsedCount <= 20], false for [NaN]. *)
Definition inRange (parsedCount : option Z) : bool :=
  match parsedCount with
  | Some n => (0 <? n) && (n <=? 20)
  | None => false
  end.

Definition isEmpty (s : jsstring) : bool :=
  match s with [] => true | _ => false end.

Inductive Outcome :=
| ValidationError (message : jsstring)
| Parsed (searchKeyword : jsstring) (articleCount : Z).

Definition parseInput (keyword : jsstring) : Outcome :=
  if isEmpty (trim keyword) then ValidationError (js "Please enter a keyword")
  else
    let input := trim keyword in
    let '(searchKeyword, articleCount) :=
      if includes (js ",") input then
        let parts := List.map trim (split 44 input) in
        if (2 <=? List.length parts)%nat then
          let searchKeyword := trim (nth 0 parts []) in
          let countPart := trim (join (js ",") (skipn 1 parts)) in
          match numberMatch countPart with
          | Some group1 =>
            let parsedCount := parseInt10 group1 in
            if inRange parsedCount
            then (searchKeyword, match parsedCount with Some n => n | None => 3 end)
            else (searchKeyword, 3)
          | None => (searchKeyword, 3)
          end
        else (input, 3)
      else
        let parts := splitWs input in
        if (1 <? List.length parts)%nat then
          let lastPart := last parts [] in
          match numberMatch lastPart with
          | Some group1 =>
            let parsedCount := parseInt10 group1 in
            if inRange parsedCount
            then (trim (join (js " ") (removelast parts)),
                  match parsedCount with Some n => n | None => 3 end)
            else (input, 3)
          | None => (input, 3)
          end
        else (input, 3)
    in
    if isEmpty searchKeyword
    then ValidationError (js "Please enter a valid keyword")
    else Parsed searchKeyword articleCount.

End InputParser.

(** ** [services/api.js]: PDF resolution *)

Module Api.

(** [process.env.REACT_APP_API_URL || 'http://localhost:8000'] *)
Definition API_BASE_URL (REACT_APP_API_URL : option jsstring) : jsstring :=
  match REACT_APP_API_URL with
  | Some (c :: u) => c :: u
  | _ => js "http://localhost:8000"
  end.

Definition mediaSegment : jsstring := js "/media/".
Definition mediaPrefix : jsstring := js "media/".

(** [getPdfUrl(pdfPath)]; [None] stands for [null] and [undefined]. *)
Definition getPdfUrl (base : jsstring) (pdfPath : option jsstring) : jsstring :=
  match pdfPath with
  | None | Some [] => []
  | Some pdfPath =>
    let pdfPath :=
      if startsWith (js "http://") pdfPath || startsWith (js "https://") pdfPath
      then
        match indexOf mediaSegment pdfPath with
        | Some mediaIndex =>
          substring (mediaIndex + List.length mediaSegment) pdfPath
        | None =>
          match lastIndexOf (js "/") pdfPath with
          | Some lastSlash => substring (lastSlash + 1) pdfPath
          | None => pdfPath
          end
        end
      else pdfPath in
    let cleanPath :=
      if startsWith (js "/") pdfPath then substring 1 pdfPath else pdfPath in
    let finalPath :=
      if startsWith mediaPrefix cleanPath
      then substring (List.length mediaPrefix) cleanPath else cleanPath in
    base ++ mediaSegment ++ finalPath
  end.

End Api.

(** ** HistoryPaginator *)

Inductive View := ActiveView | HistoryView.

Module Paginator.

(** [Math.ceil(length / 3)] for an array length. *)
Definition ceilThird (len : Z) : Z := (len + 2) / 3.

(** [maxPage || 1] *)
Definition pageCount (len : Z) : Z :=
  let maxPage := ceilThird len in
  if maxPage =? 0 then 1 else maxPage.

(** The effect that depends on [historyTasks.length], [activeView] and
    [historyPage]: the page after it has run. *)
Definition resetOutOfBounds (activeView : View) (len historyPage : Z) : Z :=
  match activeView with
  | HistoryView =>
    if 0 <? len then
      let maxPage := ceilThird len in
      if historyPage >? maxPage then pageCount len else historyPage
    else historyPage
  | ActiveView => historyPage
  end.

(** The page controls are rendered in the history view when
    [historyTasks.length > 3]. *)
Definition controlsShown (activeView : View) (len : Z) : bool :=
  match activeView with
  | HistoryView => 3 <? len
  | ActiveView => false
  end.

(** [prev => Math.max(1, prev - 1)] *)
Definition previousPage (prev : Z) : Z := Z.max 1 (prev - 1).

(** [prev => Math.min(Math.ceil(historyTasks.length / 3), prev + 1)] *)
Definition nextPage (len prev : Z) : Z := Z.min (ceilThird len) (prev + 1).

(** [historyTasks.slice((historyPage - 1) * 3, historyPage * 3)] for a
    page [>= 1]. *)
Definition pageSlice (A : Type) (historyTasks : list A) (historyPage : Z) : list A :=
  firstn 3 (skipn (Z.to_nat ((historyPage - 1) * 3)) historyTasks).

End Paginator.

(** ** The component state and its handlers *)

Module NewsSearch.

Record State := mkState {
  keyword : jsstring;
  taskId : option TaskId;
  taskKeyword : option jsstring;
  status : option Status;
  results : list Result;
  error : option jsstring;
  isLoading : bool;
  activeView : View;
  activeTasks : list Task.t;
  historyTasks : list Task.t;
  expandedHistoryTaskId : option TaskId;
  historyPage : Z;
  removedTaskIdsRef : JsSet.t;
  (** the id polled by the live interval, [None] for [null] *)
  pollingIntervalRef : option TaskId
}.

Definition initial : State :=
  mkState [] None None None [] None false ActiveView [] [] None 1 [] None.

(** What a handler asks of the outside world. *)
Inductive Effect :=
| CreateSearchTask (keyword : jsstring) (articleCount : Z)
| GetSearchTask (id : TaskId)
| GetAllSearchTasks
| UpdateTaskStatus (id : TaskId) (status : Status)
| SetInterval (id : TaskId)
| ClearInterval (id : TaskId)
| SetTimeoutLoadTasks.

Definition isWrite (e : Effect) : bool :=
  match e with
  | CreateSearchTask _ _ | UpdateTaskStatus _ _ => true
  | _ => false
  end.

Definition startsPoller (e : Effect) : bool :=
  match e with
  | SetInterval _ | GetSearchTask _ => true
  | _ => false
  end.

(** The setters of [useState]. *)
Definition setTaskId v s := mkState (keyword s) v (taskKeyword s) (status s)
  (results s) (error s) (isLoading s) (activeView s) (activeTasks s)
  (historyTasks s) (expandedHistoryTaskId s) (historyPage s)
  (removedTaskIdsRef s) (pollingIntervalRef s).
Definition setTaskKeyword v s := mkState (keyword s) (taskId s) v (status s)
  (results s) (error s) (isLoading s) (activeView s) (activeTasks s)
  (historyTasks s) (expandedHistoryTaskId s) (historyPage s)
  (removedTaskIdsRef s) (pollingIntervalRef s).
Definition setStatus v s := mkState (keyword s) (taskId s) (taskKeyword s) v
  (results s) (error s) (isLoading s) (activeView s) (activeTasks s)
  (historyTasks s) (expandedHistoryTaskId s) (historyPage s)
  (removedTaskIdsRef s) (pollingIntervalRef s).
Definition setResults v s := mkState (keyword s) (taskId s) (taskKeyword s)
  (status s) v (error s) (isLoading s) (activeView s) (activeTasks s)
  (historyTasks s) (expandedHistoryTaskId s) (historyPage s)
  (removedTaskIdsRef s) (pollingIntervalRef s).
Definition setError v s := mkState (keyword s) (taskId s) (taskKeyword s)
  (status s) (results s) v (isLoading s) (activeView s) (activeTasks s)
  (historyTasks s) (expandedHistoryTaskId s) (historyPage s)
  (removedTaskIdsRef s) (pollingIntervalRef s).
Definition setIsLoading v s := mkState (keyword s) (taskId s) (taskKeyword s)
  (status s) (results s) (error s) v (activeView s) (activeTasks s)
  (historyTasks s) (expandedHistoryTaskId s) (historyPage s)
  (removedTaskIdsRef s) (pollingIntervalRef s).
Definition setActiveView v s := mkState (keyword s) (taskId s) (taskKeyword s)
  (status s) (results s) (error s) (isLoading s) v (activeTasks s)
  (historyTasks s) (expandedHistoryTaskId s) (historyPage s)
  (removedTaskIdsRef s) (pollingIntervalRef s).
Definition setActiveTasks v s := mkState (keyword s) (taskId s) (taskKeyword s)
  (status s) (results s) (error s) (isLoading s) (activeView s) v
  (historyTasks s) (expandedHistoryTaskId s) (historyPage s)
  (removedTaskIdsRef s) (pollingIntervalRef s).
Definition setHistoryTasks v s := mkState (keyword s) (taskId s) (taskKeyword s)
  (status s) (results s) (error s) (isLoading s) (activeView s) (activeTasks s)
  v (expandedHistoryTaskId s) (historyPage s)
  (removedTaskIdsRef s) (pollingIntervalRef s).
Definition setHistoryPage v s := mkState (keyword s) (taskId s) (taskKeyword s)
  (status s) (results s) (error s) (isLoading s) (activeView s) (activeTasks s)
  (historyTasks s) (expandedHistoryTaskId s) v
  (removedTaskIdsRef s) (pollingIntervalRef s).
Definition setPollingInterval v s := mkState (keyword s) (taskId s)
  (taskKeyword s) (status s) (results s) (error s) (isLoading s) (activeView s)
  (activeTasks s) (historyTasks s) (expandedHistoryTaskId s) (historyPage s)
  (removedTaskIdsRef s) v.

(** [if (pollingIntervalRef.current) { clearInterval(...); ... = null; }] *)
Definition clearPolling (s : State) : State * list Effect :=
  match pollingIntervalRef s with
  | Some id => (setPollingInterval None s, [ClearInterval id])
  | None => (s, [])
  end.

(** A rejected request as the handlers read it. *)
Record RequestError := mkRequestError {
  detail : option jsstring;    (* err.response?.data?.detail *)
  message : option jsstring    (* err.message *)
}.

(** [err.response?.data?.detail || err.message || fallback] *)
Definition errorText (err : RequestError) (fallback : jsstring) : jsstring :=
  match detail err with
  | Some (c :: d) => c :: d
  | _ => match message err with
         | Some (c :: m) => c :: m
         | _ => fallback
         end
  end.

(** [isLoading || status === 'processing' || status === 'pending'] *)
Definition inProgress (s : State) : bool :=
  isLoading s
  || match status s with
     | Some processing | Some pending => true
     | _ => false
     end.

(** *** [loadTasks] *)

Definition loadTasks : list Effect := [GetAllSearchTasks].

(** [getAllSearchTasks] fulfilled.  [captured] is the [historyTasks] of the
    render whose closure is running. *)
Definition loadTasks_fulfilled (captured : list Task.t) (tasks : Sync.ListResponse)
           (now : Z) (s : State) : State * list Effect :=
  let '(active, history) :=
    Sync.merge captured tasks (removedTaskIdsRef s) now in
  (setHistoryTasks history (setActiveTasks active s), []).

(** [getAllSearchTasks] rejected: logged only. *)
Definition loadTasks_rejected (s : State) : State * list Effect := (s, []).

(** *** [cancelSearch] *)

Definition cancelSearch (s : State) : State * list Effect :=
  match taskId s with
  | None => (s, [])
  | Some id =>
    let '(s1, cleared) := clearPolling s in
    (s1, cleared ++ [UpdateTaskStatus id failed])
  end.

(** After [updateTaskStatus] settles, fulfilled or rejected. *)
Definition cancelSearch_settled (s : State) : State * list Effect :=
  (setResults [] (setTaskKeyword None (setTaskId None
     (setStatus (Some failed) (setIsLoading false s)))),
   loadTasks).

(** *** [handleSearch] *)

Definition handleSearch (s : State) : State * list Effect :=
  if inProgress s then cancelSearch s
  else
    match InputParser.parseInput (keyword s) with
    | InputParser.ValidationError msg => (setError (Some msg) s, [])
    | InputParser.Parsed searchKeyword articleCount =>
      let s1 := setTaskKeyword None (setTaskId None (setResults []
                  (setStatus None (setError None (setIsLoading true
                    (setHistoryPage 1 (setActiveView ActiveView s))))))) in
      let '(s2, cleared) := clearPolling s1 in
      (s2, cleared ++ [CreateSearchTask searchKeyword articleCount])
    end.

(** [pollTaskStatus(id)] up to its [await]. *)
Definition pollTaskStatus (id : TaskId) : list Effect := [GetSearchTask id].

Definition startPolling (id : TaskId) (s : State) : State * list Effect :=
  let cleared := match pollingIntervalRef s with
                 | Some old => [ClearInterval old]
                 | None => []
                 end in
  (setPollingInterval (Some id) s,
   cleared ++ pollTaskStatus id ++ [SetInterval id]).

(** [createSearchTask] fulfilled. *)
Definition handleSearch_created (taskData : Task.t) (s : State)
  : State * list Effect :=
  let s1 := setStatus (Some (Task.status taskData))
              (setTaskKeyword (Some (Task.keyword taskData))
                (setTaskId (Some (Task.id taskData)) s)) in
  let s2 := setActiveTasks (activeTasks s1 ++ [taskData]) s1 in
  startPolling (Task.id taskData) s2.

(** [createSearchTask] rejected. *)
Definition handleSearch_createFailed (err : RequestError) (s : State)
  : State * list Effect :=
  (setIsLoading false
     (setError (Some (errorText err (js "Failed to create search task"))) s),
   []).

(** *** [pollTaskStatus] after [getSearchTask] settles *)

Definition sameId (id : TaskId) (task : Task.t) : bool :=
  JsString.eqb (Task.id task) id.

Definition isCurrent (captured : option TaskId) (id : TaskId) : bool :=
  match captured with
  | Some current => JsString.eqb current id
  | None => false
  end.

(** The update of [historyTasks] on a terminal status. *)
Definition recordInHistory (id : TaskId) (taskData : Task.t)
           (prev : list Task.t) : list Task.t :=
  if existsb (sameId id) prev
  then List.map (fun task => if sameId id task then taskData else task) prev
  else sort Sync.newestFirst (taskData :: prev).

Definition failureText (taskData : Task.t) : jsstring :=
  match Task.error_message taskData with
  | Some (c :: m) => js "Search task failed: " ++ c :: m
  | _ => js "Search task failed. Please check Celery worker logs or try again."
  end.

(** [getSearchTask] fulfilled.  [captured] is the [taskId] of the render
    whose closure is running.  The response carries every field of a task,
    so [{ ...task, ...taskData }] is [taskData]. *)
Definition pollTaskStatus_fulfilled (captured : option TaskId) (id : TaskId)
           (taskData : Task.t) (s : State) : State * list Effect :=
  let s1 := setStatus (Some (Task.status taskData)) s in
  let s2 := if isCurrent captured id
            then setTaskKeyword (Some (Task.keyword taskData)) s1 else s1 in
  let s3 := setActiveTasks
              (List.map (fun task => if sameId id task then taskData else task)
                        (activeTasks s2)) s2 in
  match Task.status taskData with
  | completed | failed =>
    let final := Task.status taskData in
    let '(s4, cleared) := clearPolling s3 in
    let s5 := setIsLoading false s4 in
    let s6 := setActiveTasks
                (if isCurrent captured id
                 then List.map (fun task => if sameId id task
                                            then Task.with_status final taskData
                                            else task) (activeTasks s5)
                 else filter (fun task => negb (sameId id task)) (activeTasks s5))
                s5 in
    let s7 := setHistoryTasks (recordInHistory id taskData (historyTasks s6)) s6 in
    match final with
    | completed => (s7, cleared ++ loadTasks)
    | _ => (setError (Some (failureText taskData)) s7,
            cleared ++ [SetTimeoutLoadTasks])
    end
  | pending | processing => (s3, [])
  end.

(** On completion, what follows the awaited [loadTasks]. *)
Definition pollTaskStatus_completed_finish (taskData : Task.t) (s : State)
  : State * list Effect :=
  (setActiveView ActiveView (setResults (Task.results taskData) s), []).

(** [getSearchTask] rejected. *)
Definition pollTaskStatus_rejected (err : RequestError) (s : State)
  : State * list Effect :=
  let '(s1, cleared) := clearPolling s in
  (setError (Some (errorText err (js "Failed to fetch task status")))
     (setIsLoading false s1),
   cleared).

(** The effect on [historyTasks.length], [activeView], [historyPage]. *)
Definition historyPageEffect (s : State) : State :=
  setHistoryPage
    (Paginator.resetOutOfBounds (activeView s)
       (Z.of_nat (List.length (historyTasks s))) (historyPage s)) s.

End NewsSearch.

(** ** Notions used in the statements and in the proofs *)

Module Notions.
Import JsMap Sync InputParser Api.

Definition noWhiteSpace (s : jsstring) : bool :=
  forallb (fun c => negb (isWhiteSpace c)) s.

Definition noComma (s : jsstring) : bool :=
  forallb (fun c => negb (c =? 44)%N) s.

Definition allDigits (s : jsstring) : bool := forallb isDigit s.

(** Every entry is filed under the id of its task. *)
Definition keyed (m : JsMap.t) : Prop :=
  Forall (fun kv => fst kv = Task.id (snd kv)) m.

Definition entry (task : Task.t) : TaskId * Task.t := (Task.id task, task).

(** The tasks written into the map, in the order of the writes. *)
Definition writes (historyTasks tasksArray : list Task.t)
           (removed : JsSet.t) (now : Z) : list Task.t :=
  filter isTerminal historyTasks
  ++ filter isTerminal tasksArray ++ stuckTasks tasksArray removed now.

(** What one later write does to an entry already in the map. *)
Definition overwrite1 (e : TaskId * Task.t) (w : Task.t) : TaskId * Task.t :=
  if JsString.eqb (Task.id w) (fst e) then (Task.id w, w) else e.

Definition overwrite (ws : list Task.t) (e : TaskId * Task.t) : TaskId * Task.t :=
  fold_left overwrite1 ws e.

Definition digitStep (acc : Z) (c : N) : Z := acc * 10 + (Z.of_N c - 48).

(** The count that a count clause yields. *)
Definition countOf (countPart : jsstring) : Z :=
match numberMatch countPart with
| Some group1 =>
  match parseInt10 group1 with
  | Some n => if (0 <? n) && (n <=? 20) then n else 3
  | None => 3
  end
| None => 3
end.

Definition emptyKeyword : Outcome :=
  ValidationError (js "Please enter a valid keyword").

(** [f] is what is left of [p] after dropping some characters in front. *)
Definition suffixOf (f p : jsstring) : Prop := exists pre, p = pre ++ f.

Definition isAbsoluteUrl (p : jsstring) : bool :=
  startsWith (js "http://") p || startsWith (js "https://") p.

(** The three steps of the normalisation in [getPdfUrl]. *)
Definition relativePart (pdfPath : jsstring) : jsstring :=
if isAbsoluteUrl pdfPath then
  match indexOf mediaSegment pdfPath with
  | Some mediaIndex => substring (mediaIndex + List.length mediaSegment) pdfPath
  | None =>
    match lastIndexOf (js "/") pdfPath with
    | Some lastSlash => substring (lastSlash + 1) pdfPath
    | None => pdfPath
    end
  end
else pdfPath.

Definition withoutLeadingSlash (pdfPath : jsstring) : jsstring :=
  if startsWith (js "/") pdfPath then substring 1 pdfPath else pdfPath.

Definition withoutMediaPrefix (cleanPath : jsstring) : jsstring :=
  if startsWith mediaPrefix cleanPath
  then substring (List.length mediaPrefix) cleanPath else cleanPath.

End Notions.

(** ** Sample data *)

Module Samples.

Definition rome : Task.t :=
  Task.mk (js "a1") (js "Rome") completed 1000
          [mkResult 1 (js "Forum") (js "https://news.example/forum")
                    (Some (js "pdfs/forum.pdf"))] None.

Definition oslo : Task.t :=
  Task.mk (js "b2") (js "Oslo") pending 0 [] None.

Definition lima : Task.t :=
  Task.mk (js "c3") (js "Lima") processing 500000 [] None.

Definition bern : Task.t :=
  Task.mk (js "d4") (js "Bern") completed 900 [] None.

Definition kyiv : Task.t :=
  Task.mk (js "e5") (js "Kyiv") failed 800 [] (Some (js "timeout")).

Definition doha : Task.t :=
  Task.mk (js "f6") (js "Doha") completed 700 [] None.

Definition quarterHour : Z := 900000.

(** A finished search on display, seen from page 2 of the history. *)
Definition viewingRome : NewsSearch.State :=
  NewsSearch.mkState (js "Rome, 2") (Some (js "a1")) (Some (js "Rome"))
    (Some completed) (Task.results rome) None false HistoryView
    [rome] [rome; bern; kyiv; doha] None 2 [] None.

(** Back on the active tab after page 2 of a history that has since
    shrunk to three entries. *)
Definition backOnActiveTab : NewsSearch.State :=
  NewsSearch.mkState [] None None None [] None false ActiveView
    [] [rome; bern; kyiv] None 2 [] None.

Definition offline : NewsSearch.RequestError :=
  NewsSearch.mkRequestError None (Some (js "Network Error")).

End Samples.

(** ** The removal ledger and its persisted record *)

Module Ledger.

(** [new Set(ids)] *)
Definition fromArray (ids : list TaskId) : JsSet.t :=
  fold_left (fun s k => JsSet.add k s) ids [].

(** [Array.from(set)] *)
Definition toArray (s : JsSet.t) : list TaskId := s.

(** What [localStorage.getItem('removedTaskIds')] holds for the mount
    effect, seen through [JSON.parse]: nothing, text that [JSON.parse] or
    [new Set] rejects, or an array of ids. *)
Inductive Stored := Missing | Unreadable | Ids (ids : list TaskId).

(** The mount effect on [removedTaskIdsRef.current]; its [catch] only logs. *)
Definition load (saved : Stored) (current : JsSet.t) : JsSet.t :=
  match saved with
  | Ids ids => fromArray ids
  | Missing | Unreadable => current
  end.

(** The record left by
    [localStorage.setItem('removedTaskIds', JSON.stringify(Array.from(set)))]. *)
Definition saved (s : JsSet.t) : Stored := Ids (toArray s).

End Ledger.

(** ** The other handlers of the component, and its runs *)

Module Component.
Import NewsSearch.

Definition setKeyword v s := mkState v (taskId s) (taskKeyword s) (status s)
  (results s) (error s) (isLoading s) (activeView s) (activeTasks s)
  (historyTasks s) (expandedHistoryTaskId s) (historyPage s)
  (removedTaskIdsRef s) (pollingIntervalRef s).
Definition setExpandedHistoryTaskId v s := mkState (keyword s) (taskId s)
  (taskKeyword s) (status s) (results s) (error s) (isLoading s) (activeView s)
  (activeTasks s) (historyTasks s) v (historyPage s)
  (removedTaskIdsRef s) (pollingIntervalRef s).
Definition setRemovedTaskIds v s := mkState (keyword s) (taskId s)
  (taskKeyword s) (status s) (results s) (error s) (isLoading s) (activeView s)
  (activeTasks s) (historyTasks s) (expandedHistoryTaskId s) (historyPage s)
  v (pollingIntervalRef s).

(** What a handler asks of the outside world, the persisted record
    included. *)
Inductive Output :=
| Fx (e : Effect)
| SetItemRemoved (ids : list TaskId).

Definition lift (r : State * list Effect) : State * list Output :=
  (fst r, List.map Fx (snd r)).

(** The state after the first render and the mount effect that loads the
    ledger. *)
Definition mount (saved : Ledger.Stored) : State :=
  setRemovedTaskIds (Ledger.load saved (removedTaskIdsRef initial)) initial.

(** A pass started by the refresh effect ([useEffect(..., [activeView])]).
    The effect runs again only when [activeView] changes, so its timers
    call the [loadTasks] of the render in which the view last changed,
    [setup], and that closure reads the [historyTasks] of that render; the
    state setters act on the current state [s]. *)
Definition refreshPass (setup : State) (tasks : Sync.ListResponse) (now : Z)
           (s : State) : State * list Effect :=
  loadTasks_fulfilled (historyTasks setup) tasks now s.

(** The clean-up of the unmount effect. *)
Definition unmount (s : State) : list Effect :=
  match pollingIntervalRef s with
  | Some id => [ClearInterval id]
  | None => []
  end.

(** [setTaskId(null); setStatus(null); setResults([]); setTaskKeyword(null)] *)
Definition clearCurrent (s : State) : State :=
  setTaskKeyword None (setResults [] (setStatus None (setTaskId None s))).

(** The remove button on the card of the current task, up to its [await];
    the card is rendered only while [taskId] is set. *)
Definition removeCurrent (s : State) : State * list Effect :=
  match taskId s with
  | None => (s, [])
  | Some id =>
    let '(s1, cleared) := clearPolling s in
    (clearCurrent s1, cleared ++ [UpdateTaskStatus id failed])
  end.

(** [activeTasks.filter(task => !taskId || task.id !== taskId)]: the tasks
    listed under the card of the current task. *)
Definition otherActiveTasks (s : State) : list Task.t :=
  filter (fun task => negb (isCurrent (taskId s) (Task.id task))) (activeTasks s).

(** The remove button of a listed task, up to its [await]. *)
Definition removeListed (task : Task.t) (s : State) : State * list Effect :=
  let current := isCurrent (taskId s) (Task.id task) in
  let '(s1, cleared) := if current then clearPolling s else (s, []) in
  let s2 := if current then clearCurrent s1 else s1 in
  (s2, cleared ++ [UpdateTaskStatus (Task.id task) failed]).

(** Either remove button after [updateTaskStatus] has settled, fulfilled
    or rejected; [id] is the id the click was about. *)
Definition remove_settled (id : TaskId) (s : State) : State * list Output :=
  let removed := JsSet.add id (removedTaskIdsRef s) in
  (setRemovedTaskIds removed s,
   SetItemRemoved (Ledger.toArray removed) :: List.map Fx loadTasks).

(** The view button of a listed task; it is disabled while the task is
    pending or processing.  A task record always carries its results. *)
Definition viewTask (task : Task.t) (s : State) : State :=
  if isPendingOrProcessing task then s
  else setResults (Task.results task)
         (setTaskKeyword (Some (Task.keyword task))
            (setStatus (Some (Task.status task))
               (setTaskId (Some (Task.id task)) s))).

(** The view/hide button of a history entry. *)
Definition toggleExpanded (task : Task.t) (s : State) : State :=
  match expandedHistoryTaskId s with
  | Some id =>
    if JsString.eqb id (Task.id task) then setExpandedHistoryTaskId None s
    else setExpandedHistoryTaskId (Some (Task.id task)) s
  | None => setExpandedHistoryTaskId (Some (Task.id task)) s
  end.

(** The two tab buttons. *)
Definition showActive (s : State) : State := setActiveView ActiveView s.
Definition showHistory (s : State) : State :=
  setHistoryPage 1 (setActiveView HistoryView s).

Definition historyLength (s : State) : Z := Z.of_nat (List.length (historyTasks s)).

(** The page buttons: rendered in the history view when there are more
    than three entries, and disabled at the first and last page. *)
Definition previousPageClick (s : State) : State :=
  if Paginator.controlsShown (activeView s) (historyLength s)
     && negb (historyPage s =? 1)
  then setHistoryPage (Paginator.previousPage (historyPage s)) s else s.

Definition nextPageClick (s : State) : State :=
  if Paginator.controlsShown (activeView s) (historyLength s)
     && negb (historyPage s >=? Paginator.ceilThird (historyLength s))
  then setHistoryPage (Paginator.nextPage (historyLength s) (historyPage s)) s
  else s.

(** The entries shown in the history view. *)
Definition shownHistory (s : State) : list Task.t :=
  Paginator.pageSlice (historyTasks s) (historyPage s).

(** The text area: disabled while [isLoading || status === 'processing']. *)
Definition typeKeyword (text : jsstring) (s : State) : State :=
  if isLoading s
     || match status s with Some processing => true | _ => false end
  then s else setKeyword text s.

(** [handleKeyDown]: Enter without Shift submits when the component is not
    loading and the text is not blank. *)
Definition handleKeyDown (key : jsstring) (shiftKey : bool) (s : State)
  : State * list Effect :=
  if JsString.eqb key (js "Enter") && negb shiftKey then
    if negb (isLoading s) && negb (InputParser.isEmpty (trim (keyword s)))
    then handleSearch s else (s, [])
  else (s, []).

(** What can happen to a mounted component: the user's actions and the
    settling of the requests in flight. *)
Inductive Event :=
| TypeKeyword (text : jsstring)
| KeyDown (key : jsstring) (shiftKey : bool)
| SubmitForm
| CreateFulfilled (taskData : Task.t)
| CreateRejected (err : RequestError)
| CancelSettled
| PollTick (id : TaskId)
| PollFulfilled (captured : option TaskId) (id : TaskId) (taskData : Task.t)
| PollCompletedFinish (taskData : Task.t)
| PollRejected (err : RequestError)
| LoadTick
| LoadFulfilled (captured : list Task.t) (tasks : Sync.ListResponse) (now : Z)
| LoadRejected
| RemoveCurrent
| RemoveListed (task : Task.t)
| RemoveSettled (id : TaskId)
| ViewTask (task : Task.t)
| ToggleExpanded (task : Task.t)
| ShowActive
| ShowHistory
| PreviousPage
| NextPage.

Definition silent (s : State) : State * list Output := (s, []).

Definition handle (e : Event) (s : State) : State * list Output :=
  match e with
  | TypeKeyword text => silent (typeKeyword text s)
  | KeyDown key shiftKey => lift (handleKeyDown key shiftKey s)
  | SubmitForm => lift (handleSearch s)
  | CreateFulfilled taskData => lift (handleSearch_created taskData s)
  | CreateRejected err => lift (handleSearch_createFailed err s)
  | CancelSettled => lift (cancelSearch_settled s)
  | PollTick id => (s, List.map Fx (pollTaskStatus id))
  | PollFulfilled captured id taskData =>
    lift (pollTaskStatus_fulfilled captured id taskData s)
  | PollCompletedFinish taskData => lift (pollTaskStatus_completed_finish taskData s)
  | PollRejected err => lift (pollTaskStatus_rejected err s)
  | LoadTick => (s, List.map Fx loadTasks)
  | LoadFulfilled captured tasks now => lift (loadTasks_fulfilled captured tasks now s)
  | LoadRejected => lift (loadTasks_rejected s)
  | RemoveCurrent => lift (removeCurrent s)
  | RemoveListed task => lift (removeListed task s)
  | RemoveSettled id => remove_settled id s
  | ViewTask task => silent (viewTask task s)
  | ToggleExpanded task => silent (toggleExpanded task s)
  | ShowActive => silent (showActive s)
  | ShowHistory => silent (showHistory s)
  | PreviousPage => silent (previousPageClick s)
  | NextPage => silent (nextPageClick s)
  end.

(** One event, then the page effect of the render that follows. *)
Definition advance (e : Event) (s : State) : State * list Output :=
  (historyPageEffect (fst (handle e s)), snd (handle e s)).

Fixpoint run (events : list Event) (s : State) : State * list Output :=
  match events with
  | [] => (s, [])
  | e :: rest =>
    let step := advance e s in
    let tail := run rest (fst step) in
    (fst tail, snd step ++ snd tail)
  end.

(** The intervals that are running after a trace, given those that were
    running before it. *)
Fixpoint withoutFirst (id : TaskId) (running : list TaskId) : list TaskId :=
  match running with
  | [] => []
  | k :: rest => if JsString.eqb k id then rest else k :: withoutFirst id rest
  end.

Fixpoint liveIntervals (trace : list Output) (running : list TaskId)
  : list TaskId :=
  match trace with
  | [] => running
  | Fx (SetInterval id) :: rest => liveIntervals rest (running ++ [id])
  | Fx (ClearInterval id) :: rest => liveIntervals rest (withoutFirst id running)
  | _ :: rest => liveIntervals rest running
  end.

Definition polled (s : State) : list TaskId :=
  match pollingIntervalRef s with
  | Some id => [id]
  | None => []
  end.

Definition createsTask (o : Output) : bool :=
  match o with
  | Fx (CreateSearchTask _ _) => true
  | _ => false
  end.

(** The persisted record after a trace, given the record before it (the
    writes to [localStorage] succeeding). *)
Fixpoint recordAfter (trace : list Output) (saved : Ledger.Stored)
  : Ledger.Stored :=
  match trace with
  | [] => saved
  | SetItemRemoved ids :: rest => recordAfter rest (Ledger.Ids ids)
  | Fx _ :: rest => recordAfter rest saved
  end.

End Component.

(** ** Further notions for the statements *)

Module MoreNotions.

(** [a] is at least as recent as [b]. *)
Definition notOlder (a b : Task.t) : Prop :=
  Task.created_at b <= Task.created_at a.

(** The pages [first], [first + 1], ... ([count] of them). *)
Fixpoint pagesFrom (first : Z) (count : nat) : list Z :=
  match count with
  | O => []
  | S n => first :: pagesFrom (first + 1) n
  end.

(** The ledger after the removals [ids], in this order. *)
Definition addAll (ids : list TaskId) (s : JsSet.t) : JsSet.t :=
  fold_left (fun acc k => JsSet.add k acc) ids s.

(** [task => task.id === id ? taskData : task] *)
Definition replaceBy (id : TaskId) (taskData : Task.t) (task : Task.t) : Task.t :=
  if NewsSearch.sameId id task then taskData else task.

Definition hasComma (s : jsstring) : bool := existsb (fun c => (c =? 44)%N) s.

Definition noSlash (s : jsstring) : bool :=
  forallb (fun c => negb (c =? 47)%N) s.

Definition notComma (c : N) : bool := negb (c =? 44)%N.

(** [t] is [s] without one leading [pre], when [s] has one. *)
Definition strippedOnce (pre s t : jsstring) : Prop :=
  s = pre ++ t \/ ((forall q, s <> pre ++ q) /\ t = s).

(** [p] has its first [seg] after [origin], with [rest] behind it. *)
Definition firstSegment (seg p origin rest : jsstring) : Prop :=
  p = origin ++ seg ++ rest
  /\ forall o q, p = o ++ seg ++ q -> (List.length origin <= List.length o)%nat.

Definition noSegment (seg p : jsstring) : Prop :=
  forall o q, p <> o ++ seg ++ q.

(** What is left of a stored path or URL [p] for the later steps: of an
    absolute URL the text behind its first media segment, or behind its last
    separator when it has no media segment; any other input whole. *)
Definition relativeOf (p t : jsstring) : Prop :=
  if Notions.isAbsoluteUrl p
  then (exists origin, firstSegment Api.mediaSegment p origin t)
       \/ (noSegment Api.mediaSegment p
           /\ exists dir, p = dir ++ js "/" ++ t /\ noSlash t = true)
  else t = p.





End MoreNotions.

(* ================================================================== *)
(** * Part II.  Properties                                             *)
(* ================================================================== *)

(** ** Facts about the containers *)

Module JsStringFacts.

Lemma eqb_eq (a b : jsstring) : JsString.eqb a b = true <-> a = b.
Proof.
  revert b; induction a as [|x a IH]; intros [|y b]; simpl;
    try (split; [discriminate | congruence]); try tauto.
  rewrite andb_true_iff, N.eqb_eq, IH. split.
  - intros [-> ->]; reflexivity.
  - intros H; injection H; auto.
Qed.

Lemma eqb_refl (a : jsstring) : JsString.eqb a a = true.
Proof. apply eqb_eq; reflexivity. Qed.

Lemma eqb_neq (a b : jsstring) : JsString.eqb a b = false <-> a <> b.
Proof.
  rewrite <- eqb_eq. destruct (JsString.eqb a b); split; congruence.
Qed.

End JsStringFacts.
Import JsStringFacts.

Module JsMapFacts.
Import JsMap Notions.

Lemma set_present k v m :
  In k (keys m) -> keys (set k v m) = keys m.
Proof.
  induction m as [|[k' v'] m IH]; simpl; [tauto|].
  intros H. destruct (JsString.eqb k k') eqn:E.
  - apply eqb_eq in E. subst. reflexivity.
  - apply eqb_neq in E. simpl. f_equal. apply IH.
    destruct H as [H|H]; [congruence | exact H].
Qed.

Lemma set_absent k v m :
  ~ In k (keys m) -> set k v m = m ++ [(k, v)].
Proof.
  induction m as [|[k' v'] m IH]; simpl; [reflexivity|].
  intros H. destruct (JsString.eqb k k') eqn:E.
  - apply eqb_eq in E. subst. tauto.
  - f_equal. apply IH. tauto.
Qed.

Lemma In_keys_set k v m : In k (keys (set k v m)).
Proof.
  induction m as [|[k' v'] m IH]; simpl; [auto|].
  destruct (JsString.eqb k k'); simpl; auto.
Qed.

Lemma keys_set_incl k v m k0 : In k0 (keys m) -> In k0 (keys (set k v m)).
Proof.
  induction m as [|[k' v'] m IH]; simpl; [tauto|].
  destruct (JsString.eqb k k') eqn:E; simpl.
  - apply eqb_eq in E. subst. tauto.
  - intros [H|H]; auto.
Qed.

Lemma In_set_inv k v m e :
  NoDup (keys m) ->
  In e (set k v m) -> e = (k, v) \/ (In e m /\ fst e <> k).
Proof.
  induction m as [|[k' v'] m IH]; simpl.
  - intros _ [H|[]]; auto.
  - intros ND. inversion ND as [|? ? Hnin ND']; subst.
    destruct (JsString.eqb k k') eqn:E; simpl.
    + apply eqb_eq in E. subst k'.
      intros [H|H]; auto. right. split; auto.
      intros Hk. apply Hnin. rewrite <- Hk. now apply in_map.
    + apply eqb_neq in E.
      intros [H|H].
      * right. subst e. simpl. split; auto.
      * destruct (IH ND' H) as [H1|[H1 H2]]; auto.
Qed.

Lemma NoDup_keys_set k v m : NoDup (keys m) -> NoDup (keys (set k v m)).
Proof.
  intros ND. destruct (in_dec (list_eq_dec N.eq_dec) k (keys m)) as [Hin|Hnin].
  - now rewrite set_present.
  - rewrite set_absent by exact Hnin. unfold keys. rewrite map_app. simpl.
    apply NoDup_app; auto.
    + constructor; [tauto | constructor].
    + intros x Hx [<-|[]]. exact (Hnin Hx).
Qed.

Lemma keyed_set v m : keyed m -> keyed (set (Task.id v) v m).
Proof.
  unfold keyed. induction m as [|[k' v'] m IH]; simpl; intros H.
  - constructor; auto.
  - inversion H; subst.
    destruct (JsString.eqb (Task.id v) k'); constructor; auto.
Qed.

End JsMapFacts.

(** ** Facts about the stable sort *)

Section SortFacts.
Variable A : Type.
Variable comparefn : A -> A -> Z.

Hypothesis comparefn_total : forall a b, 0 < comparefn a b -> comparefn b a <= 0.

Lemma sort_insert_perm x l : Permutation (sort_insert comparefn x l) (x :: l).
Proof.
  induction l as [|y l IH]; simpl; auto.
  destruct (comparefn x y <=? 0); auto.
  rewrite IH. apply perm_swap.
Qed.

Lemma sort_perm l : Permutation (sort comparefn l) l.
Proof.
  induction l as [|x l IH]; simpl; auto.
  rewrite sort_insert_perm. now constructor.
Qed.

Lemma sort_insert_sorted x l :
  Sorted (inOrder comparefn) l -> Sorted (inOrder comparefn) (sort_insert comparefn x l).
Proof.
  induction l as [|y l IH]; simpl; intros HS.
  - repeat constructor.
  - destruct (comparefn x y <=? 0) eqn:E.
    + apply Z.leb_le in E. constructor; auto.
    + apply Z.leb_gt in E. inversion HS as [|? ? HS' Hd]; subst.
      constructor; auto.
      destruct l as [|z l]; simpl in *.
      * constructor. now apply comparefn_total.
      * destruct (comparefn x z <=? 0); constructor.
        -- now apply comparefn_total.
        -- now inversion Hd.
Qed.

Lemma sort_sorted l : Sorted (inOrder comparefn) (sort comparefn l).
Proof.
  induction l as [|x l IH]; simpl; [constructor | now apply sort_insert_sorted].
Qed.

(** Sorting leaves a sorted array as it is. *)
Lemma sort_of_sorted l : Sorted (inOrder comparefn) l -> sort comparefn l = l.
Proof.
  induction l as [|x l IH]; simpl; intros HS; [reflexivity|].
  inversion HS as [|? ? HS' Hd]; subst.
  rewrite IH by assumption.
  destruct l as [|y l]; simpl; [reflexivity|].
  inversion Hd as [|? ? Hxy]; subst. unfold inOrder in Hxy.
  apply Z.leb_le in Hxy. now rewrite Hxy.
Qed.

Lemma sort_idempotent l : sort comparefn (sort comparefn l) = sort comparefn l.
Proof. apply sort_of_sorted, sort_sorted. Qed.

End SortFacts.

(** ** Facts about the synchronisation pass *)

Module SyncFacts.
Import Sync JsMap JsMapFacts Notions.

Lemma newestFirst_total a b : 0 < newestFirst a b -> newestFirst b a <= 0.
Proof. unfold newestFirst. lia. Qed.

Lemma fold_preserveTerminal l m :
  fold_left preserveTerminal l m = fold_left setTask (filter isTerminal l) m.
Proof.
  revert m; induction l as [|x l IH]; intros m; simpl; [reflexivity|].
  unfold preserveTerminal at 2. destruct (isTerminal x); simpl; apply IH.
Qed.

Lemma historyMap_writes historyTasks tasksArray removed now :
  historyMap historyTasks tasksArray removed now
  = fold_left setTask (writes historyTasks tasksArray removed now) [].
Proof.
  unfold historyMap, writes. rewrite fold_preserveTerminal.
  now rewrite !fold_left_app.
Qed.

Lemma keys_fold_incl ws m k :
  In k (keys m) \/ In k (List.map Task.id ws) ->
  In k (keys (fold_left setTask ws m)).
Proof.
  revert m; induction ws as [|w ws IH]; intros m; simpl.
  - tauto.
  - intros [H|[H|H]]; apply IH; auto; left.
    + now apply keys_set_incl.
    + subst k. apply In_keys_set.
Qed.

Lemma keys_fold_inv ws m k :
  In k (keys (fold_left setTask ws m)) ->
  In k (keys m) \/ In k (List.map Task.id ws).
Proof.
  revert m; induction ws as [|w ws IH]; intros m; simpl; [tauto|].
  intros H. destruct (IH _ H) as [H1|H1]; auto.
  unfold setTask in H1.
  destruct (in_dec (list_eq_dec N.eq_dec) (Task.id w) (keys m)) as [Hin|Hnin].
  - rewrite set_present in H1 by assumption. auto.
  - rewrite set_absent in H1 by assumption.
    unfold keys in H1. rewrite map_app in H1. apply in_app_or in H1.
    simpl in H1. tauto.
Qed.

Lemma keyed_fold ws m : keyed m -> keyed (fold_left setTask ws m).
Proof.
  revert m; induction ws as [|w ws IH]; intros m Hm; simpl; auto.
  apply IH. now apply keyed_set.
Qed.

Lemma NoDup_keys_fold ws m :
  NoDup (keys m) -> NoDup (keys (fold_left setTask ws m)).
Proof.
  revert m; induction ws as [|w ws IH]; intros m Hm; simpl; auto.
  apply IH. now apply NoDup_keys_set.
Qed.

Lemma keyed_keys m : keyed m -> keys m = List.map Task.id (values m).
Proof.
  unfold keyed, keys, values. induction 1 as [|[k v] m Hk _ IH]; simpl;
    [reflexivity|]. simpl in Hk. now rewrite Hk, IH.
Qed.

Lemma values_fold_from ws m v :
  In v (values (fold_left setTask ws m)) -> In v (values m) \/ In v ws.
Proof.
  revert m; induction ws as [|w ws IH]; intros m; simpl; [tauto|].
  intros H. destruct (IH _ H) as [H1|H1]; auto.
  unfold values in H1. apply in_map_iff in H1. destruct H1 as [e [He Hin]].
  clear - He Hin. unfold setTask in Hin.
  assert (e = (Task.id w, w) \/ In e m) as [->|Hm].
  { revert Hin. induction m as [|[k' v'] m IHm]; simpl.
    - intros [<-|[]]. auto.
    - destruct (JsString.eqb (Task.id w) k'); simpl; intros [<-|H0]; auto.
      destruct (IHm H0); auto. }
  - simpl in He. auto.
  - left. unfold values. apply in_map_iff. eauto.
Qed.

Lemma keyed_historyMap h l r now : keyed (historyMap h l r now).
Proof. rewrite historyMap_writes. apply keyed_fold. constructor. Qed.

Lemma NoDup_keys_historyMap h l r now : NoDup (keys (historyMap h l r now)).
Proof. rewrite historyMap_writes. apply NoDup_keys_fold. constructor. Qed.

(** The ids shown in History are the keys of the map. *)
Lemma history_ids h l r now k :
  In k (List.map Task.id (history h l r now))
  <-> In k (keys (historyMap h l r now)).
Proof.
  unfold history. rewrite (keyed_keys (keyed_historyMap h l r now)).
  split; apply Permutation_in; apply Permutation_map;
    [| apply Permutation_sym]; apply sort_perm.
Qed.

Lemma with_status_id s t : Task.id (Task.with_status s t) = Task.id t.
Proof. reflexivity. Qed.

Lemma writes_terminal h l r now w :
  In w (writes h l r now) -> isTerminal w = true.
Proof.
  unfold writes, stuckTasks. rewrite !in_app_iff, !filter_In, in_map_iff.
  intros [[_ H]|[[_ H]|[x [<- _]]]]; auto.
Qed.

Lemma history_from_writes h l r now v :
  In v (history h l r now) -> In v (writes h l r now).
Proof.
  unfold history. intros H.
  apply (Permutation_in _ (sort_perm newestFirst _)) in H.
  rewrite historyMap_writes in H. apply values_fold_from in H.
  destruct H as [[]|H]; exact H.
Qed.

Lemma history_terminal h l r now v :
  In v (history h l r now) -> isTerminal v = true.
Proof. intros H. eapply writes_terminal, history_from_writes, H. Qed.

(** *** A second pass over the output of a first one *)

Lemma overwrite1_fst e w : fst (overwrite1 e w) = fst e.
Proof.
  unfold overwrite1. destruct (JsString.eqb (Task.id w) (fst e)) eqn:E; auto.
  apply eqb_eq in E. exact E.
Qed.

Lemma overwrite_fst ws e : fst (overwrite ws e) = fst e.
Proof.
  unfold overwrite. revert e; induction ws as [|w ws IH]; intros e; simpl; auto.
  now rewrite IH, overwrite1_fst.
Qed.

Lemma set_present_map w m :
  NoDup (keys m) -> In (Task.id w) (keys m) ->
  setTask m w = List.map (fun e => overwrite1 e w) m.
Proof.
  unfold setTask. induction m as [|[k' v'] m IH]; simpl; [tauto|].
  intros ND Hin. inversion ND as [|? ? Hnin ND']; subst.
  unfold overwrite1 at 1. simpl.
  destruct (JsString.eqb (Task.id w) k') eqn:E.
  - apply eqb_eq in E. subst k'. f_equal.
    rewrite <- (map_id m) at 1. apply map_ext_in.
    intros e He. unfold overwrite1.
    destruct (JsString.eqb (Task.id w) (fst e)) eqn:E'; auto.
    apply eqb_eq in E'. exfalso. apply Hnin. rewrite E'. now apply in_map.
  - apply eqb_neq in E. f_equal. apply IH; auto.
    destruct Hin as [Hin|Hin]; [congruence | exact Hin].
Qed.

Lemma fold_set_present ws m :
  NoDup (keys m) ->
  (forall w, In w ws -> In (Task.id w) (keys m)) ->
  fold_left setTask ws m = List.map (overwrite ws) m.
Proof.
  revert m; induction ws as [|w ws IH]; intros m ND Hall; simpl.
  - symmetry. apply map_id.
  - assert (Hk : keys (setTask m w) = keys m)
      by (apply set_present, Hall; now left).
    rewrite IH.
    + rewrite set_present_map by (auto; apply Hall; now left).
      rewrite map_map. reflexivity.
    + now rewrite Hk.
    + intros w' Hw'. rewrite Hk. apply Hall. now right.
Qed.

(** Every entry of the map has absorbed all the writes of its id. *)
Lemma entries_absorb_writes ws m e :
  NoDup (keys m) -> In e (fold_left setTask ws m) -> overwrite ws e = e.
Proof.
  intros ND. revert e. induction ws as [|w ws IH] using rev_ind; intros e.
  - reflexivity.
  - rewrite fold_left_app. simpl. unfold overwrite. rewrite fold_left_app. simpl.
    fold (overwrite ws e). intros Hin. unfold setTask in Hin.
    apply In_set_inv in Hin; [| now apply NoDup_keys_fold].
    destruct Hin as [->|[Hin Hne]].
    + unfold overwrite1. rewrite overwrite_fst. simpl. now rewrite eqb_refl.
    + rewrite (IH _ Hin). unfold overwrite1.
      destruct (JsString.eqb (Task.id w) (fst e)) eqn:E; auto.
      apply eqb_eq in E. congruence.
Qed.

Lemma fold_set_fresh l m :
  NoDup (List.map Task.id l) ->
  (forall k, In k (List.map Task.id l) -> ~ In k (keys m)) ->
  fold_left setTask l m = m ++ List.map entry l.
Proof.
  revert m; induction l as [|x l IH]; intros m ND Hd; simpl.
  - now rewrite app_nil_r.
  - inversion ND as [|? ? Hnin ND']; subst.
    unfold setTask at 2. rewrite set_absent by (apply Hd; now left).
    rewrite IH; auto.
    + now rewrite <- app_assoc.
    + intros k Hk. unfold keys. rewrite map_app, in_app_iff. simpl.
      intros [H|[H|[]]].
      * apply (Hd k); auto. now right.
      * congruence.
Qed.

Lemma filter_all (f : Task.t -> bool) l :
  (forall x, In x l -> f x = true) -> filter f l = l.
Proof.
  induction l as [|x l IH]; simpl; intros H; [reflexivity|].
  rewrite H by now left. f_equal. apply IH. intros; apply H; now right.
Qed.

Lemma NoDup_history_ids h l r now :
  NoDup (List.map Task.id (history h l r now)).
Proof.
  unfold history.
  eapply Permutation_NoDup.
  - apply Permutation_map, Permutation_sym, sort_perm.
  - rewrite <- (keyed_keys (keyed_historyMap h l r now)).
    apply NoDup_keys_historyMap.
Qed.

Lemma historyMap_of_history h l r now :
  historyMap (history h l r now) l r now
  = List.map entry (history h l r now).
Proof.
  set (H1 := history h l r now).
  set (W := filter isTerminal l ++ stuckTasks l r now).
  rewrite historyMap_writes. unfold writes.
  rewrite (filter_all isTerminal H1)
    by (intros x Hx; eapply history_terminal, Hx).
  fold W. rewrite fold_left_app.
  rewrite (@fold_set_fresh H1 []);
    [| apply NoDup_history_ids | intros k _ []].
  simpl.
  assert (Hkeys : keys (List.map entry H1) = List.map Task.id H1)
    by (unfold keys; rewrite map_map; reflexivity).
  rewrite fold_set_present.
  - rewrite <- (map_id (List.map entry H1)) at 2. apply map_ext_in.
    intros e He. apply in_map_iff in He. destruct He as [t [<- Ht]].
    apply entries_absorb_writes with (m := fold_left setTask (filter isTerminal h) []).
    + apply NoDup_keys_fold. constructor.
    + rewrite <- fold_left_app.
      change (In (entry t) (fold_left setTask (writes h l r now) [])).
      rewrite <- historyMap_writes.
      unfold H1, history in Ht.
      apply (Permutation_in _ (sort_perm newestFirst _)) in Ht.
      unfold values in Ht. apply in_map_iff in Ht.
      destruct Ht as [[k v] [Hv Hin]]. simpl in Hv. subst v.
      pose proof (keyed_historyMap h l r now) as HK.
      unfold keyed in HK. rewrite Forall_forall in HK.
      specialize (HK _ Hin). simpl in HK. subst k. exact Hin.
  - rewrite Hkeys. apply NoDup_history_ids.
  - intros w Hw. rewrite Hkeys. apply history_ids.
    rewrite historyMap_writes. apply keys_fold_incl. right.
    apply in_map. unfold writes. apply in_or_app. now right.
Qed.

(** *** Which write an entry comes from *)

Lemma overwrite_entry ws w :
  exists w', In w' (w :: ws) /\ overwrite ws (entry w) = entry w'.
Proof.
  revert w; induction ws as [|x ws IH]; intros w.
  - exists w. simpl. auto.
  - unfold overwrite. simpl. unfold overwrite1 at 2. simpl.
    destruct (JsString.eqb (Task.id x) (Task.id w)).
    + destruct (IH x) as [w' [Hin Heq]]. exists w'. split; [now right | exact Heq].
    + destruct (IH w) as [w' [Hin Heq]]. exists w'. split; [| exact Heq].
      destruct Hin as [<-|Hin]; [now left | now right; right].
Qed.

Lemma overwrite_hit ws e :
  In (fst e) (List.map Task.id ws) ->
  exists w', In w' ws /\ overwrite ws e = entry w'.
Proof.
  revert e; induction ws as [|x ws IH]; intros e; simpl; [tauto|].
  intros Hin. unfold overwrite. simpl. unfold overwrite1 at 2.
  destruct (JsString.eqb (Task.id x) (fst e)) eqn:E.
  - destruct (overwrite_entry ws x) as [w' [Hw Heq]]. exists w'. auto.
  - apply eqb_neq in E. destruct Hin as [Hin|Hin]; [congruence|].
    destruct (IH e Hin) as [w' [Hw Heq]]. exists w'. auto.
Qed.

(** After the writes [ws], the entry of an id written by [ws] is one of
    the tasks of [ws]. *)
Lemma written_entry ws m k :
  NoDup (keys m) -> In k (List.map Task.id ws) ->
  exists w, In w ws /\ Task.id w = k /\ In w (values (fold_left setTask ws m)).
Proof.
  intros ND Hk.
  assert (Hin : In k (keys (fold_left setTask ws m)))
    by (apply keys_fold_incl; now right).
  unfold keys in Hin. apply in_map_iff in Hin. destruct Hin as [e [Hfst He]].
  pose proof (@entries_absorb_writes ws m e ND He) as Habs.
  destruct (@overwrite_hit ws e) as [w [Hw Heq]]; [now rewrite Hfst|].
  rewrite Habs in Heq. exists w. split; [exact Hw|]. split.
  - rewrite <- Hfst, Heq. reflexivity.
  - unfold values. apply in_map_iff. exists e. split; [now rewrite Heq | exact He].
Qed.

Lemma NoDup_map_inj (f : Task.t -> TaskId) l x y :
  NoDup (List.map f l) -> In x l -> In y l -> f x = f y -> x = y.
Proof.
  induction l as [|a l IH]; simpl; [tauto|].
  intros ND. inversion ND as [|? ? Hnin ND']; subst.
  intros [->|Hx] [->|Hy] Hf; auto.
  - exfalso. apply Hnin. rewrite Hf. now apply in_map.
  - exfalso. apply Hnin. rewrite <- Hf. now apply in_map.
Qed.

Lemma stuck_in_history h l r now j :
  In j l -> stuckFilter r now j = true ->
  exists x, In x l /\ stuckFilter r now x = true /\ Task.id x = Task.id j
            /\ In (Task.with_status failed x) (history h l r now).
Proof.
  intros Hj Hs.
  set (m2 := fold_left setTask (filter isTerminal l)
               (fold_left preserveTerminal h [])).
  assert (ND : NoDup (keys m2)).
  { unfold m2. rewrite fold_preserveTerminal. rewrite <- fold_left_app.
    apply NoDup_keys_fold. constructor. }
  destruct (@written_entry (stuckTasks l r now) m2 (Task.id j) ND)
    as [w [Hw [Hid Hval]]].
  { unfold stuckTasks. rewrite map_map. simpl.
    apply in_map_iff. exists j. split; [reflexivity|].
    apply filter_In. auto. }
  unfold stuckTasks in Hw. apply in_map_iff in Hw.
  destruct Hw as [x [Hx Hfx]]. apply filter_In in Hfx. destruct Hfx as [Hxl Hxs].
  exists x. subst w. repeat split; auto.
  unfold history. apply (Permutation_in _ (Permutation_sym (sort_perm newestFirst _))).
  exact Hval.
Qed.

Lemma stuckTasks_ext l r r' now :
  (forall j, In j l -> stuckFilter r now j = stuckFilter r' now j) ->
  stuckTasks l r now = stuckTasks l r' now.
Proof.
  intros H. unfold stuckTasks. f_equal. now apply filter_ext_in.
Qed.

End SyncFacts.

(** ** Facts about trimming and splitting *)

Module TextFacts.
Import Notions.

Lemma dropWhile_app_stop p a c r :
  p c = false -> dropWhile p (a ++ c :: r) = dropWhile p a ++ c :: r.
Proof.
  intros Hc. induction a as [|x a IH]; simpl.
  - now rewrite Hc.
  - destruct (p x); [exact IH | reflexivity].
Qed.

Lemma dropWhile_all p a : forallb p a = true -> dropWhile p a = [].
Proof.
  induction a as [|x a IH]; simpl; [reflexivity|].
  intros H. apply andb_true_iff in H. destruct H as [Hx Ha].
  rewrite Hx. now apply IH.
Qed.

Lemma dropWhile_all_app p a r :
  forallb p a = true -> dropWhile p (a ++ r) = dropWhile p r.
Proof.
  induction a as [|x a IH]; simpl; [reflexivity|].
  intros H. apply andb_true_iff in H. destruct H as [Hx Ha].
  rewrite Hx. now apply IH.
Qed.

Lemma dropWhile_idem p s : dropWhile p (dropWhile p s) = dropWhile p s.
Proof.
  induction s as [|x s IH]; simpl; [reflexivity|].
  destruct (p x) eqn:E; [exact IH | simpl; now rewrite E].
Qed.

(** A string is blank, or it has a first character that is not blank. *)
Lemma blank_or_not (p : N -> bool) (s : jsstring) :
  forallb p s = true
  \/ exists a c r, s = a ++ c :: r /\ forallb p a = true /\ p c = false.
Proof.
  induction s as [|x s IH]; simpl; [now left|].
  destruct (p x) eqn:E.
  - destruct IH as [H|[a [c [r [-> [Ha Hc]]]]]]; [now left|].
    right. exists (x :: a), c, r. simpl. rewrite E. auto.
  - right. exists [], x, s. auto.
Qed.

Lemma forallb_dropWhile (q p : N -> bool) s :
  forallb q s = true -> forallb q (dropWhile p s) = true.
Proof.
  induction s as [|x s IH]; simpl; [reflexivity|].
  intros H. destruct (p x).
  - apply andb_true_iff in H. now apply IH.
  - exact H.
Qed.

Lemma forallb_rev_true (q : N -> bool) s :
  forallb q s = true -> forallb q (rev s) = true.
Proof.
  rewrite !forallb_forall. intros H x Hx. apply H. now apply in_rev.
Qed.

Lemma forallb_trimStart (q : N -> bool) s : forallb q s = true -> forallb q (trimStart s) = true.
Proof. apply forallb_dropWhile. Qed.

Lemma forallb_trimEnd (q : N -> bool) s : forallb q s = true -> forallb q (trimEnd s) = true.
Proof.
  intros H. unfold trimEnd.
  now apply forallb_rev_true, forallb_dropWhile, forallb_rev_true.
Qed.

Lemma trimEnd_app_cons a c r :
  isWhiteSpace c = false -> trimEnd (a ++ c :: r) = a ++ c :: trimEnd r.
Proof.
  intros Hc. unfold trimEnd. rewrite rev_app_distr. simpl.
  rewrite <- app_assoc. simpl.
  rewrite dropWhile_app_stop by exact Hc.
  rewrite rev_app_distr. simpl. rewrite rev_involutive.
  now rewrite <- app_assoc.
Qed.

Lemma trimEnd_cons c r :
  isWhiteSpace c = false -> trimEnd (c :: r) = c :: trimEnd r.
Proof. intros Hc. exact (@trimEnd_app_cons [] c r Hc). Qed.

Lemma trimEnd_snoc a c :
  isWhiteSpace c = false -> trimEnd (a ++ [c]) = a ++ [c].
Proof. intros Hc. now rewrite trimEnd_app_cons. Qed.

Lemma trimEnd_blank s : forallb isWhiteSpace s = true -> trimEnd s = [].
Proof.
  intros H. unfold trimEnd. rewrite dropWhile_all; [reflexivity|].
  now apply forallb_rev_true.
Qed.

Lemma trimEnd_idem s : trimEnd (trimEnd s) = trimEnd s.
Proof. unfold trimEnd. now rewrite rev_involutive, dropWhile_idem. Qed.

Lemma trim_blank s : forallb isWhiteSpace s = true -> trim s = [].
Proof.
  intros H. unfold trim, trimStart. now rewrite dropWhile_all.
Qed.

(** [trim] of a string whose first non-blank character is [c]. *)
Lemma trim_app_cons a c r :
  forallb isWhiteSpace a = true -> isWhiteSpace c = false ->
  trim (a ++ c :: r) = c :: trimEnd r.
Proof.
  intros Ha Hc. unfold trim, trimStart.
  rewrite dropWhile_all_app by exact Ha. simpl. rewrite Hc.
  now apply trimEnd_cons.
Qed.

Lemma trim_cons c r : isWhiteSpace c = false -> trim (c :: r) = c :: trimEnd r.
Proof. intros Hc. exact (@trim_app_cons [] c r eq_refl Hc). Qed.

Lemma trim_idem s : trim (trim s) = trim s.
Proof.
  destruct (blank_or_not isWhiteSpace s) as [H|[a [c [r [-> [Ha Hc]]]]]].
  - rewrite (trim_blank _ H). reflexivity.
  - rewrite trim_app_cons by assumption.
    rewrite trim_cons by exact Hc.
    now rewrite trimEnd_idem.
Qed.

Lemma trim_trimStart s : trim (trimStart s) = trim s.
Proof. unfold trim, trimStart. now rewrite dropWhile_idem. Qed.

Lemma trim_trimEnd s : trim (trimEnd s) = trim s.
Proof.
  destruct (blank_or_not isWhiteSpace s) as [H|[a [c [r [-> [Ha Hc]]]]]].
  - rewrite (trimEnd_blank _ H), (trim_blank _ H). reflexivity.
  - rewrite trimEnd_app_cons by exact Hc.
    rewrite !trim_app_cons by assumption. now rewrite trimEnd_idem.
Qed.

Lemma trim_noWhiteSpace s : noWhiteSpace s = true -> trim s = s.
Proof.
  unfold noWhiteSpace. intros H. destruct s as [|c r]; [reflexivity|].
  simpl in H. apply andb_true_iff in H. destruct H as [Hc Hr].
  apply negb_true_iff in Hc.
  rewrite trim_cons by exact Hc. f_equal.
  induction r as [|x r IH]; [reflexivity|].
  simpl in Hr. apply andb_true_iff in Hr. destruct Hr as [Hx Hr].
  apply negb_true_iff in Hx. rewrite trimEnd_cons by exact Hx. now rewrite IH.
Qed.

(** [trim] before a comma: the comma is not blank. *)
Lemma trim_around_comma a r :
  trim (a ++ 44%N :: r) = trimStart a ++ 44%N :: trimEnd r.
Proof.
  unfold trim, trimStart. rewrite dropWhile_app_stop by reflexivity.
  now apply trimEnd_app_cons.
Qed.

(** *** [split(',')] and [includes(',')] *)

Lemma js_comma : js "," = [44%N].
Proof. reflexivity. Qed.

Lemma noComma_cons c s : noComma (c :: s) = negb (c =? 44)%N && noComma s.
Proof. reflexivity. Qed.

Lemma startsWith_comma x s : startsWith [44%N] (x :: s) = (x =? 44)%N.
Proof.
  change (startsWith [44%N] (x :: s)) with ((44 =? x)%N && true).
  rewrite andb_true_r. apply N.eqb_sym.
Qed.

Lemma indexOf_comma_cons x s :
  indexOf [44%N] (x :: s)
  = if (x =? 44)%N then Some O else option_map S (indexOf [44%N] s).
Proof.
  change (indexOf [44%N] (x :: s))
    with (if startsWith [44%N] (x :: s) then Some O
          else option_map S (indexOf [44%N] s)).
  now rewrite startsWith_comma.
Qed.

Lemma includes_comma a r : includes [44%N] (a ++ 44%N :: r) = true.
Proof.
  unfold includes.
  assert (H : exists i, indexOf [44%N] (a ++ 44%N :: r) = Some i).
  { induction a as [|x a [i IH]].
    - now exists O.
    - rewrite <- app_comm_cons, indexOf_comma_cons.
      destruct (x =? 44)%N.
      + now exists O.
      + rewrite IH. simpl. now exists (S i). }
  destruct H as [i ->]. reflexivity.
Qed.

Lemma includes_noComma s : noComma s = true -> includes [44%N] s = false.
Proof.
  unfold includes. intros H.
  assert (Hn : indexOf [44%N] s = None).
  { induction s as [|x s IH]; [reflexivity|].
    rewrite noComma_cons in H. apply andb_true_iff in H. destruct H as [Hx Hs].
    apply negb_true_iff in Hx. rewrite indexOf_comma_cons, Hx.
    now rewrite IH. }
  now rewrite Hn.
Qed.

Lemma split_acc_noComma cur a :
  noComma a = true -> split_acc 44 cur a = [rev cur ++ a].
Proof.
  revert cur; induction a as [|x a IH]; intros cur H; simpl.
  - now rewrite app_nil_r.
  - rewrite noComma_cons in H. apply andb_true_iff in H. destruct H as [Hx Ha].
    apply negb_true_iff in Hx. rewrite Hx, IH by exact Ha. simpl.
    now rewrite <- app_assoc.
Qed.

Lemma split_acc_comma cur a r :
  noComma a = true ->
  split_acc 44 cur (a ++ 44%N :: r) = (rev cur ++ a) :: split_acc 44 [] r.
Proof.
  revert cur; induction a as [|x a IH]; intros cur H; simpl.
  - now rewrite app_nil_r.
  - rewrite noComma_cons in H. apply andb_true_iff in H. destruct H as [Hx Ha].
    apply negb_true_iff in Hx. rewrite Hx, IH by exact Ha. simpl.
    now rewrite <- app_assoc.
Qed.

Lemma split_comma a r :
  noComma a = true -> split 44 (a ++ 44%N :: r) = a :: split 44 r.
Proof. intros Ha. unfold split. now rewrite split_acc_comma. Qed.

Lemma split_noComma a : noComma a = true -> split 44 a = [a].
Proof. intros Ha. unfold split. now rewrite split_acc_noComma. Qed.

Lemma split_acc_nonempty c cur s : (1 <= List.length (split_acc c cur s))%nat.
Proof.
  revert cur; induction s as [|x s IH]; intros cur; simpl; [lia|].
  destruct (x =? c)%N; simpl; [lia | apply IH].
Qed.

(** *** [split(/\s+/)] *)

Lemma splitWs_acc_noWhiteSpace cur a :
  noWhiteSpace a = true -> splitWs_acc false cur a = [rev cur ++ a].
Proof.
  unfold noWhiteSpace.
  revert cur; induction a as [|x a IH]; intros cur H; simpl.
  - now rewrite app_nil_r.
  - simpl in H. apply andb_true_iff in H. destruct H as [Hx Ha].
    apply negb_true_iff in Hx. rewrite Hx, IH by exact Ha. simpl.
    now rewrite <- app_assoc.
Qed.

Lemma splitWs_two a b c r :
  noWhiteSpace a = true -> isWhiteSpace b = true ->
  noWhiteSpace (c :: r) = true ->
  splitWs (a ++ b :: c :: r) = [a; c :: r].
Proof.
  intros Ha Hb Hcr. unfold splitWs.
  assert (H : forall cur, splitWs_acc false cur (a ++ b :: c :: r)
                          = [rev cur ++ a; c :: r]).
  { unfold noWhiteSpace in Ha.
    induction a as [|x a IH]; intros cur; simpl.
    - rewrite Hb, app_nil_r.
      pose proof Hcr as Hcr'. unfold noWhiteSpace in Hcr'. simpl in Hcr'.
      apply andb_true_iff in Hcr'. destruct Hcr' as [Hc Hr].
      apply negb_true_iff in Hc. rewrite Hc.
      now rewrite (@splitWs_acc_noWhiteSpace [c] r Hr).
    - simpl in Ha. apply andb_true_iff in Ha. destruct Ha as [Hx Ha].
      apply negb_true_iff in Hx. rewrite Hx, IH by exact Ha. simpl.
      now rewrite <- app_assoc. }
  exact (H []).
Qed.

End TextFacts.

(** ** Facts about numerals and the count pattern *)

Module ParserFacts.
Import TextFacts InputParser Notions.

Lemma isDigit_range c : isDigit c = true -> (48 <= c <= 57)%N.
Proof.
  unfold isDigit. rewrite andb_true_iff, !N.leb_le. tauto.
Qed.

Lemma isDigit_not_blank c : isDigit c = true -> isWhiteSpace c = false.
Proof.
  intros H. apply isDigit_range in H. unfold isWhiteSpace.
  repeat match goal with
         | |- context [(c =? ?k)%N] =>
           replace (c =? k)%N with false by (symmetry; apply N.eqb_neq; lia)
         end.
  replace (c <=? 13)%N with false by (symmetry; apply N.leb_gt; lia).
  replace (8192 <=? c)%N with false by (symmetry; apply N.leb_gt; lia).
  now rewrite andb_false_r.
Qed.

Lemma isDigit_not_comma c : isDigit c = true -> (c =? 44)%N = false.
Proof. intros H. apply isDigit_range in H. apply N.eqb_neq. lia. Qed.

Lemma allDigits_noWhiteSpace s : allDigits s = true -> noWhiteSpace s = true.
Proof.
  unfold allDigits, noWhiteSpace. rewrite !forallb_forall. intros H x Hx.
  apply negb_true_iff, isDigit_not_blank, H, Hx.
Qed.

Lemma allDigits_noComma s : allDigits s = true -> noComma s = true.
Proof.
  unfold allDigits, noComma. rewrite !forallb_forall. intros H x Hx.
  apply negb_true_iff, isDigit_not_comma, H, Hx.
Qed.

Lemma takeWhile_all p s : forallb p s = true -> takeWhile p s = s.
Proof.
  induction s as [|x s IH]; simpl; [reflexivity|].
  intros H. apply andb_true_iff in H. destruct H as [Hx Hs].
  now rewrite Hx, IH.
Qed.

Lemma allDigits_uintUnits d : allDigits (uintUnits d) = true.
Proof. induction d; simpl; auto. Qed.

Lemma uintUnits_nil d : uintUnits d = [] -> d = Decimal.Nil.
Proof. destruct d; simpl; intros H; [reflexivity | discriminate ..]. Qed.

Lemma numeral_digits n : allDigits (numeral n) = true.
Proof. apply allDigits_uintUnits. Qed.

Lemma numeral_not_empty n : numeral n <> [].
Proof.
  unfold numeral. intros H. apply uintUnits_nil in H.
  destruct n as [|p]; [discriminate|].
  exact (DecimalPos.Unsigned.to_uint_nonnil p H).
Qed.

Lemma digits_acc d acc :
  fold_left digitStep (uintUnits d) (Z.pos acc) = Z.pos (Pos.of_uint_acc d acc).
Proof.
  revert acc; induction d; intros acc;
    cbn [uintUnits fold_left Pos.of_uint_acc]; [reflexivity | ..];
    rewrite <- IHd; f_equal; unfold digitStep; lia.
Qed.

Lemma digitsValue_uintUnits d :
  digitsValue (uintUnits d) = Z.of_N (N.of_uint d).
Proof.
  unfold digitsValue. change (fun acc c => acc * 10 + (Z.of_N c - 48)) with digitStep.
  induction d; cbn [uintUnits fold_left N.of_uint Pos.of_uint];
    [reflexivity | exact IHd | ..];
    match goal with
    | |- fold_left digitStep _ ?z = _ =>
      let k := eval vm_compute in z in change z with k
    end; apply digits_acc.
Qed.

Lemma digitsValue_numeral n : digitsValue (numeral n) = Z.of_N n.
Proof.
  unfold numeral. rewrite digitsValue_uintUnits.
  now rewrite DecimalN.Unsigned.of_to.
Qed.

Lemma parseInt10_digits ds :
  ds <> [] -> allDigits ds = true -> parseInt10 ds = Some (digitsValue ds).
Proof.
  intros Hne Hd. destruct ds as [|c r]; [congruence|].
  pose proof Hd as Hd'. unfold allDigits in Hd'. simpl in Hd'.
  apply andb_true_iff in Hd'. destruct Hd' as [Hc Hr].
  pose proof (isDigit_range _ Hc) as Hrange.
  unfold parseInt10, trimStart. simpl dropWhile.
  rewrite (isDigit_not_blank _ Hc).
  replace (c =? 45)%N with false by (symmetry; apply N.eqb_neq; lia).
  replace (c =? 43)%N with false by (symmetry; apply N.eqb_neq; lia).
  rewrite (takeWhile_all isDigit (c :: r) Hd).
  f_equal. lia.
Qed.

Lemma parseInt10_numeral n : parseInt10 (numeral n) = Some (Z.of_N n).
Proof.
  rewrite parseInt10_digits.
  - now rewrite digitsValue_numeral.
  - apply numeral_not_empty.
  - apply numeral_digits.
Qed.

Lemma numberMatch_digits ds :
  ds <> [] -> allDigits ds = true -> numberMatch ds = Some ds.
Proof.
  intros Hne Hd. unfold numberMatch.
  rewrite (takeWhile_all isDigit ds Hd), (dropWhile_all isDigit ds Hd).
  destruct ds; [congruence | reflexivity].
Qed.

Lemma numberMatch_not_number s :
  match s with [] => True | c :: _ => isDigit c = false end ->
  numberMatch s = None.
Proof.
  unfold numberMatch. destruct s as [|c r]; [reflexivity|].
  intros Hc. simpl. now rewrite Hc.
Qed.

Lemma countOf_range countPart : 1 <= countOf countPart <= 20.
Proof.
  unfold countOf. destruct (numberMatch countPart) as [g|]; [|lia].
  destruct (parseInt10 g) as [n|]; [|lia].
  destruct (0 <? n) eqn:E1; simpl; [|lia].
  destruct (n <=? 20) eqn:E2; [|lia].
  apply Z.ltb_lt in E1. apply Z.leb_le in E2. lia.
Qed.


Lemma countOf_not_number s :
  match s with [] => True | c :: _ => isDigit c = false end -> countOf s = 3.
Proof. intros H. unfold countOf. now rewrite numberMatch_not_number. Qed.

(** The outcome on an input with a comma, [a] being the text before the
    first comma of the trimmed input and [r] the text after it. *)
Lemma parseInput_comma raw a r :
  trim raw = a ++ 44%N :: r -> noComma a = true ->
  parseInput raw
  = if isEmpty (trim a) then emptyKeyword
    else Parsed (trim a)
                (countOf (trim (join (js ",") (List.map trim (split 44 r))))).
Proof.
  intros Htrim Ha. unfold parseInput. rewrite Htrim.
  replace (isEmpty (a ++ 44%N :: r)) with false by (destruct a; reflexivity).
  rewrite js_comma at 1. rewrite includes_comma.
  rewrite !(@split_comma a r Ha).
  match goal with
  | |- context [(2 <=? ?n)%nat] =>
    assert (Hlen : (2 <=? n)%nat = true);
      [apply Nat.leb_le; simpl; rewrite length_map;
       pose proof (split_acc_nonempty 44 [] r); unfold split; lia
      | rewrite Hlen]
  end.
  cbn [List.map nth skipn]. rewrite trim_idem.
  unfold countOf, emptyKeyword, inRange.
  destruct (numberMatch _) as [g|]; [|reflexivity].
  destruct (parseInt10 g) as [n|]; [|reflexivity].
  destruct ((0 <? n) && (n <=? 20)); reflexivity.
Qed.

Lemma parseInput_clause kw clause :
  noComma kw = true -> noComma clause = true ->
  parseInput (kw ++ 44%N :: clause)
  = if isEmpty (trim kw) then emptyKeyword
    else Parsed (trim kw) (countOf (trim clause)).
Proof.
  intros Hkw Hcl.
  rewrite (@parseInput_comma (kw ++ 44%N :: clause) (trimStart kw) (trimEnd clause)).
  - rewrite trim_trimStart.
    rewrite split_noComma by (now apply forallb_trimEnd).
    cbn [List.map join]. now rewrite trim_idem, trim_trimEnd.
  - apply trim_around_comma.
  - now apply forallb_trimStart.
Qed.

Lemma trim_edges c m d :
  isWhiteSpace c = false -> isWhiteSpace d = false ->
  trim (c :: m ++ [d]) = c :: m ++ [d].
Proof.
  intros Hc Hd. rewrite trim_cons by exact Hc. f_equal.
  now apply trimEnd_snoc.
Qed.

Lemma parseInput_blank raw :
  allWhiteSpace raw = true ->
  parseInput raw = ValidationError (js "Please enter a keyword").
Proof.
  intros H. unfold parseInput. now rewrite (trim_blank raw H).
Qed.

Lemma parseInput_single tok :
  tok <> [] -> noWhiteSpace tok = true -> noComma tok = true ->
  parseInput tok = Parsed tok 3.
Proof.
  intros Hne Hws Hco. unfold parseInput.
  rewrite (trim_noWhiteSpace tok Hws).
  change (js ",") with [44%N]. rewrite (includes_noComma tok Hco).
  unfold splitWs. rewrite (@splitWs_acc_noWhiteSpace [] tok Hws).
  destruct tok; [congruence | reflexivity].
Qed.

Lemma parseInput_trailing w n :
  w <> [] -> noWhiteSpace w = true -> noComma w = true ->
  parseInput (w ++ 32%N :: numeral n)
  = if ((1 <=? n) && (n <=? 20))%N then Parsed w (Z.of_N n)
    else Parsed (w ++ 32%N :: numeral n) 3.
Proof.
  intros Hne Hws Hco.
  pose proof (numeral_digits n) as Hd. pose proof (numeral_not_empty n) as Hn.
  pose proof (allDigits_noWhiteSpace _ Hd) as Hnws.
  assert (Htrim : trim (w ++ 32%N :: numeral n) = w ++ 32%N :: numeral n).
  { destruct w as [|c w']; [congruence|].
    destruct (exists_last Hn) as [num' [d Hlast]]. rewrite Hlast.
    pose proof Hws as Hws'. unfold noWhiteSpace in Hws'. simpl in Hws'.
    apply andb_true_iff in Hws'. destruct Hws' as [Hc _].
    apply negb_true_iff in Hc.
    assert (Hdd : isWhiteSpace d = false).
    { apply isDigit_not_blank. unfold allDigits in Hd.
      rewrite forallb_forall in Hd. apply Hd. rewrite Hlast.
      apply in_or_app. right. now left. }
    change ((c :: w') ++ 32%N :: num' ++ [d])
      with (c :: (w' ++ 32%N :: num' ++ [d])).
    replace (w' ++ 32%N :: num' ++ [d]) with ((w' ++ 32%N :: num') ++ [d])
      by (now rewrite <- app_assoc).
    now apply trim_edges. }
  unfold parseInput. rewrite Htrim.
  replace (isEmpty (w ++ 32%N :: numeral n)) with false by (destruct w; reflexivity).
  change (js ",") with [44%N].
  rewrite includes_noComma.
  2:{ unfold noComma in *. rewrite forallb_app. rewrite Hco. simpl.
      now apply allDigits_noComma. }
  destruct (numeral n) as [|c r] eqn:En; [congruence|].
  rewrite (@splitWs_two w 32%N c r Hws eq_refl Hnws).
  cbn [List.length Nat.ltb Nat.leb last removelast join].
  rewrite (numberMatch_digits Hn Hd). rewrite <- En, parseInt10_numeral.
  rewrite (trim_noWhiteSpace w Hws). unfold inRange.
  replace ((0 <? Z.of_N n) && (Z.of_N n <=? 20))
    with ((1 <=? n) && (n <=? 20))%N.
  2:{ destruct (N.leb_spec 1 n), (N.leb_spec n 20),
        (Z.ltb_spec 0 (Z.of_N n)), (Z.leb_spec (Z.of_N n) 20);
        simpl; try reflexivity; lia. }
  destruct ((1 <=? n) && (n <=? 20))%N.
  - destruct w; [congruence | reflexivity].
  - destruct w; [congruence | reflexivity].
Qed.


Lemma takeWhile_app_stop (p : N -> bool) a c r :
  forallb p a = true -> p c = false -> takeWhile p (a ++ c :: r) = a.
Proof.
  intros Ha Hc. induction a as [|x a IH]; simpl.
  - now rewrite Hc.
  - simpl in Ha. apply andb_true_iff in Ha. destruct Ha as [Hx Ha].
    now rewrite Hx, IH.
Qed.

(** A numeral followed by a blank and a count noun matches the pattern. *)
Lemma numberMatch_noun num noun :
  num <> [] -> allDigits num = true -> In noun nouns ->
  numberMatch (num ++ 32%N :: noun) = Some num.
Proof.
  intros Hne Hd Hin. unfold numberMatch.
  rewrite (@takeWhile_app_stop isDigit num 32%N noun Hd eq_refl).
  rewrite (@dropWhile_all_app isDigit num (32%N :: noun) Hd).
  destruct num as [|c r]; [congruence|].
  repeat (destruct Hin as [<-|Hin]; [reflexivity|]). destruct Hin.
Qed.

Lemma noun_shape noun :
  In noun nouns ->
  noComma noun = true
  /\ exists body d, noun = body ++ [d] /\ isWhiteSpace d = false.
Proof.
  intros Hin.
  repeat (destruct Hin as [<-|Hin];
          [split; [reflexivity|];
           match goal with
           | |- exists body d, ?n = _ /\ _ =>
             exists (removelast n), (last n 0%N); split; reflexivity
           end|]).
  destruct Hin.
Qed.

Lemma parseInput_count_noun kw n noun :
  noComma kw = true -> trim kw <> [] -> In noun nouns ->
  parseInput (kw ++ 44%N :: 32%N :: numeral n ++ 32%N :: noun)
  = Parsed (trim kw) (if ((1 <=? n) && (n <=? 20))%N then Z.of_N n else 3).
Proof.
  intros Hkw Hne Hin.
  pose proof (numeral_digits n) as Hd. pose proof (numeral_not_empty n) as Hn.
  destruct (noun_shape Hin) as [Hnc [body [d [Hnoun Hdws]]]].
  rewrite parseInput_clause; [| exact Hkw |].
  - destruct (trim kw) eqn:E; [congruence|]. cbn [isEmpty]. f_equal.
    assert (Ht : trim (32%N :: numeral n ++ 32%N :: noun)
                 = numeral n ++ 32%N :: noun).
    { unfold trim, trimStart. cbn [dropWhile].
      change (isWhiteSpace 32) with true. cbv iota.
      fold (trimStart (numeral n ++ 32%N :: noun)).
      fold (trim (numeral n ++ 32%N :: noun)).
      destruct (numeral n) as [|c r] eqn:En; [congruence|].
      assert (Hc : isWhiteSpace c = false).
      { apply isDigit_not_blank. unfold allDigits in Hd. simpl in Hd.
        apply andb_true_iff in Hd. tauto. }
      rewrite Hnoun.
      change ((c :: r) ++ 32%N :: body ++ [d])
        with (c :: (r ++ 32%N :: body ++ [d])).
      replace (r ++ 32%N :: body ++ [d]) with ((r ++ 32%N :: body) ++ [d])
        by (now rewrite <- app_assoc).
      now apply trim_edges. }
    rewrite Ht. unfold countOf.
    rewrite (numberMatch_noun Hn Hd Hin), parseInt10_numeral.
    destruct (N.leb_spec 1 n), (N.leb_spec n 20),
      (Z.ltb_spec 0 (Z.of_N n)), (Z.leb_spec (Z.of_N n) 20);
      simpl; try reflexivity; lia.
  - unfold noComma. cbn [forallb]. change (negb (32 =? 44)%N) with true.
    cbn [andb]. rewrite forallb_app.
    fold (noComma (numeral n)). rewrite (allDigits_noComma _ Hd).
    cbn [forallb andb]. change (negb (32 =? 44)%N) with true. exact Hnc.
Qed.

End ParserFacts.

(** ** Facts about PDF resolution *)

Module ApiFacts.
Import Api Notions.

Lemma suffixOf_refl p : suffixOf p p.
Proof. now exists []. Qed.

Lemma suffixOf_skipn n (p : jsstring) : suffixOf (skipn n p) p.
Proof. exists (firstn n p). symmetry. apply firstn_skipn. Qed.

Lemma suffixOf_trans a b c : suffixOf a b -> suffixOf b c -> suffixOf a c.
Proof.
  intros [p1 ->] [p2 ->]. exists (p2 ++ p1). now rewrite app_assoc.
Qed.

Lemma startsWith_app p a b :
  startsWith p a = true -> startsWith p (a ++ b) = true.
Proof.
  revert a; induction p as [|x p IH]; intros a; [reflexivity|].
  destruct a as [|y a]; simpl; [discriminate|].
  rewrite !andb_true_iff. intros [Hxy Hp]. split; [exact Hxy | now apply IH].
Qed.

Lemma startsWith_self p r : startsWith p (p ++ r) = true.
Proof.
  induction p as [|x p IH]; [reflexivity|].
  simpl. now rewrite N.eqb_refl, IH.
Qed.

Lemma skipn_past (a b r : jsstring) :
  skipn (List.length a + List.length b) (a ++ b ++ r) = r.
Proof.
  rewrite app_assoc, <- length_app.
  rewrite skipn_app, Nat.sub_diag, skipn_all. reflexivity.
Qed.

Lemma getPdfUrl_steps base p :
  p <> [] ->
  getPdfUrl base (Some p)
  = base ++ mediaSegment
         ++ withoutMediaPrefix (withoutLeadingSlash (relativePart p)).
Proof.
  intros Hne. destruct p as [|c p]; [congruence|]. reflexivity.
Qed.

Lemma relativePart_suffix p : suffixOf (relativePart p) p.
Proof.
  unfold relativePart. destruct (isAbsoluteUrl p); [|apply suffixOf_refl].
  destruct (indexOf mediaSegment p); [apply suffixOf_skipn|].
  destruct (lastIndexOf (js "/") p); [apply suffixOf_skipn | apply suffixOf_refl].
Qed.

Lemma withoutLeadingSlash_suffix p : suffixOf (withoutLeadingSlash p) p.
Proof.
  unfold withoutLeadingSlash.
  destruct (startsWith (js "/") p); [apply suffixOf_skipn | apply suffixOf_refl].
Qed.

Lemma withoutMediaPrefix_suffix p : suffixOf (withoutMediaPrefix p) p.
Proof.
  unfold withoutMediaPrefix.
  destruct (startsWith mediaPrefix p); [apply suffixOf_skipn | apply suffixOf_refl].
Qed.

(** A canonical storage-relative path is left as it is by the last two
    steps. *)
Lemma canonical_kept r :
  startsWith (js "/") r = false -> startsWith mediaPrefix r = false ->
  withoutMediaPrefix (withoutLeadingSlash r) = r.
Proof.
  intros Hs Hm. unfold withoutLeadingSlash. rewrite Hs.
  unfold withoutMediaPrefix. now rewrite Hm.
Qed.

Lemma relativePart_of_url origin r :
  isAbsoluteUrl origin = true ->
  indexOf mediaSegment (origin ++ mediaSegment ++ r) = Some (List.length origin) ->
  relativePart (origin ++ mediaSegment ++ r) = r.
Proof.
  intros Hurl Hidx. unfold relativePart.
  assert (H : isAbsoluteUrl (origin ++ mediaSegment ++ r) = true).
  { unfold isAbsoluteUrl in *. apply orb_true_iff in Hurl. apply orb_true_iff.
    destruct Hurl as [H|H]; [left | right]; now apply startsWith_app. }
  rewrite H, Hidx. unfold substring. apply skipn_past.
Qed.

End ApiFacts.

(** ** Further lemmas on passes, URLs, the parser and messages *)

Module PassFacts.
Import Sync JsMap JsMapFacts Notions MoreNotions SyncFacts.

Lemma terminal_not_pending t :
  isTerminal t = true -> isPendingOrProcessing t = false.
Proof.
  unfold isTerminal, isPendingOrProcessing. destruct (Task.status t); simpl; congruence.
Qed.

Lemma stuck_is_pending r now t :
  stuckFilter r now t = true -> isPendingOrProcessing t = true.
Proof.
  unfold stuckFilter. destruct (JsSet.has r (Task.id t)); [discriminate|].
  destruct (isPendingOrProcessing t); [reflexivity | discriminate].
Qed.

Lemma stuck_not_active r now t :
  stuckFilter r now t = true -> activeFilter r now t = false.
Proof.
  unfold stuckFilter, activeFilter.
  destruct (JsSet.has r (Task.id t)); [discriminate|].
  destruct (isPendingOrProcessing t); [|discriminate].
  cbv zeta. intros ->. reflexivity.
Qed.

Lemma active_is_pending r now t :
  activeFilter r now t = true -> isPendingOrProcessing t = true.
Proof.
  unfold activeFilter. destruct (JsSet.has r (Task.id t)); [discriminate|].
  destruct (isPendingOrProcessing t); [reflexivity | discriminate].
Qed.

Lemma inOrder_notOlder l :
  Sorted (inOrder newestFirst) l -> StronglySorted notOlder l.
Proof.
  intros HS.
  assert (HT : StronglySorted (inOrder newestFirst) l).
  { apply Sorted_StronglySorted; [|exact HS].
    intros a b c. unfold inOrder, newestFirst. lia. }
  induction HT as [|a l _ IH Hall]; constructor.
  - apply IH. now inversion HS.
  - eapply Forall_impl; [|exact Hall].
    intros b. unfold inOrder, newestFirst, notOlder. lia.
Qed.

(** Where an entry of History comes from. *)
Lemma history_provenance h l r now v :
  In v (history h l r now) ->
  (In v h /\ isTerminal v = true)
  \/ (In v l /\ isTerminal v = true)
  \/ exists x, In x l /\ stuckFilter r now x = true
               /\ v = Task.with_status failed x.
Proof.
  intros H. apply history_from_writes in H. unfold writes, stuckTasks in H.
  rewrite !in_app_iff, !filter_In, in_map_iff in H.
  destruct H as [H|[H|[x [Hx Hin]]]]; auto.
  right. right. exists x. apply filter_In in Hin. destruct Hin. auto.
Qed.

(** A list that already is a History is left as it is by a pass that
    fetches nothing. *)
Lemma history_of_nothing H r now :
  (forall v, In v H -> isTerminal v = true) ->
  NoDup (List.map Task.id H) ->
  Sorted (inOrder newestFirst) H ->
  history H [] r now = H.
Proof.
  intros Hterm Hnd Hs. unfold history, historyMap, stuckTasks. simpl.
  rewrite fold_preserveTerminal, (filter_all isTerminal H Hterm).
  rewrite (@fold_set_fresh H []); [| exact Hnd | intros k _ []].
  simpl. unfold values. rewrite map_map. simpl. rewrite map_id.
  now apply sort_of_sorted.
Qed.

Lemma history_sorted h l r now :
  Sorted (inOrder newestFirst) (history h l r now).
Proof. unfold history. apply sort_sorted. exact newestFirst_total. Qed.

End PassFacts.

Module UrlFacts.
Import Api Notions MoreNotions.

Lemma js_slash : js "/" = [47%N].
Proof. reflexivity. Qed.

Lemma startsWith_inv q s : startsWith q s = true -> exists r, s = q ++ r.
Proof.
  revert s; induction q as [|x q IH]; intros s H.
  - now exists s.
  - destruct s as [|y s]; [discriminate|]. simpl in H.
    apply andb_true_iff in H. destruct H as [Hxy Hq].
    apply N.eqb_eq in Hxy. subst y.
    destruct (IH s Hq) as [r ->]. now exists r.
Qed.

Lemma startsWith_slash_cons c s : startsWith [47%N] (c :: s) = (47 =? c)%N.
Proof. simpl. apply andb_true_r. Qed.

Lemma noSlash_cons c s : noSlash (c :: s) = negb (c =? 47)%N && noSlash s.
Proof. reflexivity. Qed.

Lemma noSlash_app a b : noSlash (a ++ b) = noSlash a && noSlash b.
Proof. apply forallb_app. Qed.

Lemma lastIndexOf_noSlash name :
  noSlash name = true -> lastIndexOf [47%N] name = None.
Proof.
  induction name as [|c name IH]; [reflexivity|].
  rewrite noSlash_cons, andb_true_iff. intros [Hc Hn].
  cbn [lastIndexOf]. rewrite (IH Hn), startsWith_slash_cons.
  apply negb_true_iff in Hc. rewrite N.eqb_sym. now rewrite Hc.
Qed.

Lemma lastIndexOf_slash dir name :
  noSlash name = true ->
  lastIndexOf [47%N] (dir ++ 47%N :: name) = Some (List.length dir).
Proof.
  intros Hn. induction dir as [|c dir IH].
  - cbn [app lastIndexOf List.length]. rewrite (lastIndexOf_noSlash name Hn).
    now rewrite startsWith_slash_cons.
  - cbn [app lastIndexOf List.length]. now rewrite IH.
Qed.

(** A string either has no slash or splits at its last one. *)
Lemma last_slash (s : jsstring) :
  noSlash s = true
  \/ exists dir name, s = dir ++ 47%N :: name /\ noSlash name = true.
Proof.
  induction s as [|c s IH]; [now left|].
  destruct IH as [Hn | (dir & name & -> & Hn)].
  - destruct (c =? 47)%N eqn:Hc.
    + right. exists [], s. apply N.eqb_eq in Hc. subst c. now split.
    + left. rewrite noSlash_cons, Hc. exact Hn.
  - right. exists (c :: dir), name. now split.
Qed.

Lemma absolute_has_slash p : isAbsoluteUrl p = true -> noSlash p = false.
Proof.
  unfold isAbsoluteUrl. intros H. apply orb_true_iff in H.
  destruct H as [H|H]; apply startsWith_inv in H; destruct H as [r ->];
    rewrite noSlash_app; reflexivity.
Qed.

Lemma skipn_past_one (dir : jsstring) c name :
  skipn (List.length dir + 1) (dir ++ c :: name) = name.
Proof.
  change (dir ++ c :: name) with (dir ++ [c] ++ name).
  change 1%nat with (List.length [c]). apply ApiFacts.skipn_past.
Qed.

Lemma noSlash_no_leading_slash name :
  noSlash name = true -> startsWith [47%N] name = false.
Proof.
  destruct name as [|c name]; [reflexivity|].
  rewrite noSlash_cons, andb_true_iff, startsWith_slash_cons. intros [Hc _].
  apply negb_true_iff in Hc. now rewrite N.eqb_sym.
Qed.

Lemma noSlash_no_media_prefix name :
  noSlash name = true -> startsWith mediaPrefix name = false.
Proof.
  intros Hn. destruct (startsWith mediaPrefix name) eqn:E; [|reflexivity].
  apply startsWith_inv in E. destruct E as [r ->].
  rewrite noSlash_app in Hn. discriminate.
Qed.

Lemma startsWith_false q s :
  startsWith q s = false -> forall r, s <> q ++ r.
Proof.
  intros H r ->. rewrite ApiFacts.startsWith_self in H. discriminate.
Qed.

Lemma indexOf_Some q s n :
  indexOf q s = Some n ->
  exists o r, s = o ++ q ++ r /\ List.length o = n
              /\ forall o' r', s = o' ++ q ++ r' -> (n <= List.length o')%nat.
Proof.
  revert n; induction s as [|c s IH]; intros n H.
  - cbn [indexOf] in H. destruct (startsWith q []) eqn:E; [|discriminate].
    injection H; intros <-. apply startsWith_inv in E. destruct E as [r Hr].
    exists [], r. repeat split; [exact Hr | intros; lia].
  - cbn [indexOf] in H. destruct (startsWith q (c :: s)) eqn:E.
    + injection H; intros <-. apply startsWith_inv in E. destruct E as [r Hr].
      exists [], r. repeat split; [exact Hr | intros; lia].
    + destruct (indexOf q s) as [n'|] eqn:En; [|discriminate].
      injection H; intros <-.
      destruct (IH n' eq_refl) as (o & r & -> & <- & Hmin).
      exists (c :: o), r. repeat split.
      intros [|c' o'] r' Heq.
      * exfalso. exact (@startsWith_false _ _ E r' Heq).
      * injection Heq; intros Heq' _. apply Hmin in Heq'. cbn [List.length]. lia.
Qed.

Lemma indexOf_None q s : indexOf q s = None -> forall o r, s <> o ++ q ++ r.
Proof.
  induction s as [|c s IH]; intros H o r Heq.
  - cbn [indexOf] in H. destruct (startsWith q []) eqn:E; [discriminate|].
    destruct o; [|discriminate]. exact (@startsWith_false _ _ E r Heq).
  - cbn [indexOf] in H. destruct (startsWith q (c :: s)) eqn:E; [discriminate|].
    destruct (indexOf q s) eqn:En; [discriminate|].
    destruct o as [|c' o].
    + exact (@startsWith_false _ _ E r Heq).
    + injection Heq; intros Heq' _. exact (IH eq_refl o r Heq').
Qed.

Lemma strippedOnce_step pre s :
  strippedOnce pre s
    (if startsWith pre s then substring (List.length pre) s else s).
Proof.
  unfold strippedOnce. destruct (startsWith pre s) eqn:E.
  - left. apply startsWith_inv in E. destruct E as [r ->].
    unfold substring. f_equal.
    now rewrite skipn_app, Nat.sub_diag, skipn_all.
  - right. split; [|reflexivity]. now apply startsWith_false.
Qed.

(** The first step of the normalisation, stated on the text itself. *)
Lemma relativeOf_step p : relativeOf p (relativePart p).
Proof.
  unfold relativeOf, relativePart. destruct (isAbsoluteUrl p) eqn:Hurl; [|reflexivity].
  destruct (indexOf mediaSegment p) as [n|] eqn:Hidx.
  - left. destruct (@indexOf_Some _ _ _ Hidx) as (o & r & Hp & Hn & Hmin).
    exists o. split.
    + rewrite Hp at 1. f_equal. f_equal. unfold substring. rewrite Hp, <- Hn.
      symmetry. apply ApiFacts.skipn_past.
    + intros o' q Heq. rewrite Hn. now apply (Hmin o' q).
  - right. split; [exact (@indexOf_None _ _ Hidx)|].
    destruct (last_slash p) as [Hn | (dir & name & Hp & Hn)].
    + rewrite (absolute_has_slash p Hurl) in Hn. discriminate.
    + exists dir. rewrite js_slash, Hp, (@lastIndexOf_slash dir name Hn).
      unfold substring. rewrite skipn_past_one. now split.
Qed.

End UrlFacts.

Module OutcomeFacts.
Import InputParser Notions MoreNotions.

Lemma splitWs_acc_head s cur :
  exists p ps, splitWs_acc false cur s = (rev cur ++ p) :: ps.
Proof.
  revert cur; induction s as [|x s IH]; intros cur.
  - exists [], []. cbn. now rewrite app_nil_r.
  - cbn [splitWs_acc]. destruct (isWhiteSpace x).
    + exists [], (splitWs_acc true [] s). now rewrite app_nil_r.
    + destruct (IH (x :: cur)) as (p & ps & ->).
      exists (x :: p), ps. cbn [rev]. now rewrite <- app_assoc.
Qed.

Lemma splitWs_acc_forall (q : N -> bool) s insep cur :
  forallb q cur = true -> forallb q s = true ->
  Forall (fun part => forallb q part = true) (splitWs_acc insep cur s).
Proof.
  revert insep cur; induction s as [|x s IH]; intros insep cur Hcur Hs.
  - cbn. constructor; [|constructor]. now apply TextFacts.forallb_rev_true.
  - cbn [forallb] in Hs. apply andb_true_iff in Hs. destruct Hs as [Hx Hs].
    cbn [splitWs_acc]. destruct (isWhiteSpace x).
    + destruct insep.
      * now apply IH.
      * constructor; [now apply TextFacts.forallb_rev_true | now apply IH].
    + apply IH; [|exact Hs]. cbn [forallb]. now rewrite Hx, Hcur.
Qed.

Lemma join_forall (q : N -> bool) sep parts :
  forallb q sep = true ->
  Forall (fun part => forallb q part = true) parts ->
  forallb q (join sep parts) = true.
Proof.
  intros Hsep H. induction H as [|p rest Hp Hrest IH]; [reflexivity|].
  cbn [join]. destruct rest as [|p' rest']; [exact Hp|].
  rewrite !forallb_app, Hp, Hsep. exact IH.
Qed.

Lemma Forall_removelast (A : Type) (P : A -> Prop) (l : list A) :
  Forall P l -> Forall P (removelast l).
Proof.
  induction 1 as [|x l Hx Hl IH]; [constructor|].
  cbn [removelast]. destruct l; [constructor | now constructor].
Qed.

Lemma join_head sep (c : N) p q ps :
  exists t, join sep (removelast ((c :: p) :: q :: ps)) = c :: t.
Proof.
  change (removelast ((c :: p) :: q :: ps)) with ((c :: p) :: removelast (q :: ps)).
  destruct (removelast (q :: ps)) as [|y ys].
  - now exists p.
  - cbn [join]. eexists. cbn [app]. reflexivity.
Qed.

(** The trimmed text of an input that is not blank starts with a character
    that is not white space. *)
Lemma trim_head raw :
  allWhiteSpace raw = true
  \/ exists pre c r, raw = pre ++ c :: r /\ allWhiteSpace pre = true
                     /\ isWhiteSpace c = false /\ trim raw = c :: trimEnd r.
Proof.
  destruct (TextFacts.blank_or_not isWhiteSpace raw)
    as [H | (a & c & r & -> & Ha & Hc)]; [now left|].
  right. exists a, c, r. repeat split; try assumption.
  now apply TextFacts.trim_app_cons.
Qed.

Lemma first_comma (s : jsstring) :
  noComma s = true
  \/ exists a r, s = a ++ 44%N :: r /\ noComma a = true.
Proof.
  destruct (TextFacts.blank_or_not notComma s)
    as [H | (a & c & r & -> & Ha & Hc)]; [now left|].
  right. exists a, r. unfold notComma in Hc. apply negb_false_iff in Hc.
  apply N.eqb_eq in Hc. subst c. now split.
Qed.

Lemma trim_forall (q : N -> bool) s : forallb q s = true -> forallb q (trim s) = true.
Proof.
  intros H. unfold trim. now apply TextFacts.forallb_trimEnd, TextFacts.forallb_trimStart.
Qed.

(** Without a comma, an input that is not blank is always parsed, and its
    keyword is either the whole trimmed input or the words before the last. *)
Lemma parseInput_words raw :
  trim raw <> [] -> noComma (trim raw) = true ->
  exists kw n,
    parseInput raw = Parsed kw n
    /\ kw <> [] /\ trim kw = kw /\ noComma kw = true.
Proof.
  intros Hne Hco.
  destruct (trim_head raw) as [Hb | (pre & c & r & _ & _ & Hc & Htrim)].
  { now rewrite (TextFacts.trim_blank raw Hb) in Hne. }
  assert (Hwhole : trim raw <> [] /\ trim (trim raw) = trim raw
                   /\ noComma (trim raw) = true)
    by (repeat split; [exact Hne | apply TextFacts.trim_idem | exact Hco]).
  unfold parseInput. change (js ",") with [44%N].
  rewrite (TextFacts.includes_noComma (trim raw) Hco).
  pose proof (@splitWs_acc_forall notComma (trim raw) false [] eq_refl Hco) as Hparts.
  fold (splitWs (trim raw)) in Hparts.
  assert (Hhead : exists p ps, splitWs (trim raw) = (c :: p) :: ps).
  { rewrite Htrim. unfold splitWs. cbn [splitWs_acc]. rewrite Hc.
    destruct (splitWs_acc_head (trimEnd r) [c]) as (p & ps & ->).
    now exists p, ps. }
  destruct Hhead as (p & ps & Hsplit).
  rewrite Htrim in *. cbn [isEmpty]. rewrite Hsplit in *.
  destruct ps as [|q ps].
  { cbn. exists (c :: trimEnd r), 3. now split. }
  change ((1 <? List.length ((c :: p) :: q :: ps))%nat) with true. cbv iota.
  destruct (numberMatch _) as [g|].
  2:{ cbn. exists (c :: trimEnd r), 3. now split. }
  destruct (inRange (parseInt10 g)).
  2:{ cbn. exists (c :: trimEnd r), 3. now split. }
  destruct (join_head (js " ") c p q ps) as [t Ht].
  match goal with
  | |- context [isEmpty (trim ?j)] =>
    assert (Hj : j = c :: t) by exact Ht;
    assert (Hkw : forallb notComma j = true)
      by (apply join_forall; [reflexivity | now apply Forall_removelast]);
    rewrite Hj in *
  end.
  rewrite (@TextFacts.trim_cons c t Hc). cbn [isEmpty].
  eexists. eexists. split; [reflexivity|].
  rewrite <- (@TextFacts.trim_cons c t Hc).
  split; [rewrite (@TextFacts.trim_cons c t Hc); discriminate|].
  split; [apply TextFacts.trim_idem | now apply trim_forall].
Qed.

End OutcomeFacts.

Module CaseFacts.
Import InputParser Notions MoreNotions.

(** Every input falls under exactly one of three outcomes. *)
Lemma parse_cases raw :
  (allWhiteSpace raw = true
   /\ parseInput raw = ValidationError (js "Please enter a keyword"))
  \/ (exists pre rest, raw = pre ++ 44%N :: rest /\ allWhiteSpace pre = true
                       /\ parseInput raw = emptyKeyword)
  \/ (exists kw n, parseInput raw = Parsed kw n
                   /\ kw <> [] /\ trim kw = kw /\ noComma kw = true).
Proof.
  destruct (OutcomeFacts.trim_head raw)
    as [Hb | (pre & c & r & Hraw & Hpre & Hc & Htrim)].
  { left. split; [exact Hb | now apply ParserFacts.parseInput_blank]. }
  right.
  destruct (OutcomeFacts.first_comma (trim raw)) as [Hco | (a & r' & Ha & Hnoa)].
  { right. apply OutcomeFacts.parseInput_words; [rewrite Htrim; discriminate | exact Hco]. }
  pose proof (@ParserFacts.parseInput_comma raw a r' Ha Hnoa) as Hparse.
  rewrite Htrim in Ha. destruct a as [|x a'].
  - left. injection Ha; intros _ ->. exists pre, r. repeat split; assumption.
  - right. injection Ha; intros _ <-.
    rewrite (@TextFacts.trim_cons c a' Hc) in Hparse. cbn [isEmpty] in Hparse.
    rewrite <- (@TextFacts.trim_cons c a' Hc) in Hparse.
    eexists. eexists. split; [exact Hparse|].
    split; [rewrite (@TextFacts.trim_cons c a' Hc); discriminate|].
    split; [apply TextFacts.trim_idem | now apply OutcomeFacts.trim_forall].
Qed.

Lemma hasComma_In s : hasComma s = true <-> In 44%N s.
Proof.
  unfold hasComma. rewrite existsb_exists. split.
  - intros (c & Hin & Hc). apply N.eqb_eq in Hc. now subst c.
  - intros Hin. exists 44%N. now split.
Qed.

Lemma In_dropWhile (p : N -> bool) (s : jsstring) :
  p 44%N = false -> In 44%N s -> In 44%N (dropWhile p s).
Proof.
  intros Hp. induction s as [|c s IH]; [easy|].
  intros [-> | Hin]; cbn [dropWhile].
  - rewrite Hp. now left.
  - destruct (p c); [now apply IH | now right].
Qed.

Lemma In_trimEnd s : In 44%N s -> In 44%N (trimEnd s).
Proof.
  intros H. unfold trimEnd. apply -> in_rev.
  apply In_dropWhile; [reflexivity | now apply in_rev in H].
Qed.

Lemma In_trim s : In 44%N s -> In 44%N (trim s).
Proof.
  intros H. unfold trim, trimStart. apply In_trimEnd.
  now apply In_dropWhile.
Qed.

Lemma In_join p q ps : In 44%N (join [44%N] (p :: q :: ps)).
Proof.
  cbn [join]. apply in_or_app. right. now left.
Qed.

Lemma comma_not_blank s : In 44%N s -> allWhiteSpace s = false.
Proof.
  intros Hin. destruct (allWhiteSpace s) eqn:E; [|reflexivity].
  unfold allWhiteSpace in E. rewrite forallb_forall in E.
  now apply E in Hin.
Qed.

Lemma comma_not_noComma s : In 44%N s -> noComma s = false.
Proof.
  intros Hin. destruct (noComma s) eqn:E; [|reflexivity].
  unfold noComma in E. rewrite forallb_forall in E.
  now apply E in Hin.
Qed.

Lemma matchLiteral_comma pat s r :
  forallb (fun p => negb (canonicalize p =? 44)%N) pat = true ->
  matchLiteral pat s = Some r -> In 44%N s -> In 44%N r.
Proof.
  revert s; induction pat as [|p pat IH]; intros s Hpat Hm Hin.
  - cbn in Hm. now injection Hm; intros <-.
  - destruct s as [|c s]; [easy|]. cbn [matchLiteral] in Hm.
    cbn [forallb] in Hpat. apply andb_true_iff in Hpat. destruct Hpat as [Hp Hpat].
    destruct (canonicalize p =? canonicalize c)%N eqn:E; [|discriminate].
    apply N.eqb_eq in E. destruct Hin as [-> | Hin].
    + rewrite E in Hp. discriminate.
    + now apply (IH s).
Qed.

Lemma nouns_no_comma noun :
  In noun nouns -> forallb (fun p => negb (canonicalize p =? 44)%N) noun = true.
Proof.
  intros H. repeat (destruct H as [<- | H]; [vm_compute; reflexivity|]).
  destruct H.
Qed.

(** The count pattern does not match a clause that holds a comma. *)
Lemma numberMatch_comma s : In 44%N s -> numberMatch s = None.
Proof.
  intros Hin. unfold numberMatch.
  destruct (takeWhile isDigit s); [reflexivity|]. cbv zeta.
  assert (Hrest : In 44%N (dropWhile isWhiteSpace (dropWhile isDigit s)))
    by (apply In_dropWhile; [reflexivity|]; now apply In_dropWhile).
  rewrite (@comma_not_blank _ Hrest). cbn [orb].
  match goal with
  | |- (if ?b then _ else _) = _ => destruct b eqn:E; [|reflexivity]
  end.
  apply existsb_exists in E. destruct E as (noun & Hnoun & Hm).
  destruct (matchLiteral noun _) as [r|] eqn:Er; [|discriminate].
  apply (@matchLiteral_comma noun _ r (@nouns_no_comma noun Hnoun) Er) in Hrest.
  rewrite (@comma_not_blank _ Hrest) in Hm. discriminate.
Qed.

End CaseFacts.

Module RuleFacts.
Import InputParser Notions MoreNotions.































End RuleFacts.

Module MessageFacts.
Import NewsSearch.

Lemma errorText_not_blank err fallback :
  fallback <> [] -> errorText err fallback <> [].
Proof.
  intros Hf. unfold errorText.
  destruct (detail err) as [[|c d]|]; [|discriminate|];
    (destruct (message err) as [[|c' m]|]; [exact Hf | discriminate | exact Hf]).
Qed.

Lemma failureText_prefix taskData :
  startsWith (js "Search task failed") (failureText taskData) = true.
Proof.
  unfold failureText.
  destruct (Task.error_message taskData) as [[|c m]|]; reflexivity.
Qed.

End MessageFacts.

(* ================================================================== *)
(** * Part III.  The properties of the job-tracking engine             *)
(* ================================================================== *)

Lemma loadTasks_fulfilled_history captured tasks now s :
  NewsSearch.historyTasks (fst (NewsSearch.loadTasks_fulfilled captured tasks now s))
  = Sync.history captured (Sync.tasksArray_of tasks)
                 (NewsSearch.removedTaskIdsRef s) now.
Proof. reflexivity. Qed.

Lemma loadTasks_fulfilled_active captured tasks now s :
  NewsSearch.activeTasks (fst (NewsSearch.loadTasks_fulfilled captured tasks now s))
  = Sync.active (Sync.tasksArray_of tasks) (NewsSearch.removedTaskIdsRef s) now.
Proof. reflexivity. Qed.

Lemma loadTasks_fulfilled_removed captured tasks now s :
  NewsSearch.removedTaskIdsRef (fst (NewsSearch.loadTasks_fulfilled captured tasks now s))
  = NewsSearch.removedTaskIdsRef s.
Proof. reflexivity. Qed.

(** What a pass does keep: every id whose entry in the History that the
    pass reads, the one its closure captured, is completed or failed is an
    id of the History that the pass produces, whatever was fetched. *)
Lemma captured_terminal_ids_kept :
  forall (captured : list Task.t) (tasks : Sync.ListResponse) (now : Z)
         (s : NewsSearch.State) (h : Task.t),
    In h captured ->
    isTerminal h = true ->
    In (Task.id h)
       (List.map Task.id
          (NewsSearch.historyTasks
             (fst (NewsSearch.loadTasks_fulfilled captured tasks now s)))).
Proof.
  intros captured tasks now s h Hin Hterm.
  rewrite loadTasks_fulfilled_history.
  apply SyncFacts.history_ids. rewrite SyncFacts.historyMap_writes.
  apply SyncFacts.keys_fold_incl. right. apply in_map.
  unfold Notions.writes. apply in_or_app. left.
  apply filter_In. split; assumption.
Qed.

(** C1.  A completed job disappears from History.  The component is
    mounted with an empty History and stays on the active tab, so both
    passes below are started by the timers of the refresh effect of the
    first render, whose closure holds the empty History of that render.
    The first pass fetches a completed job and puts it into History.  The
    second pass fetches nothing; it seeds its map from the History of its
    closure, not from the History of the component, and the completed job
    is gone.  The same happens in a run of the component with these two
    answers. *)
Theorem stale_pass_drops_terminal_job :
  let mounted := Component.mount Ledger.Missing in
  let first :=
    fst (Component.refreshPass mounted (Sync.BareArray [Samples.rome]) 2000
           mounted) in
  let second :=
    fst (Component.refreshPass mounted (Sync.BareArray []) 7000 first) in
  NewsSearch.historyTasks mounted = []
  /\ NewsSearch.activeView first = NewsSearch.activeView mounted
  /\ isTerminal Samples.rome = true
  /\ NewsSearch.historyTasks first = [Samples.rome]
  /\ NewsSearch.historyTasks second = []
  /\ ~ In (Task.id Samples.rome)
         (List.map Task.id (NewsSearch.historyTasks second))
  /\ NewsSearch.historyTasks
       (fst (Component.run
               [Component.LoadFulfilled (NewsSearch.historyTasks mounted)
                  (Sync.BareArray [Samples.rome]) 2000;
                Component.LoadFulfilled (NewsSearch.historyTasks mounted)
                  (Sync.BareArray []) 7000]
               mounted)) = [].
Proof.
  cbv zeta. repeat split; try reflexivity.
  intros [].
Qed.

(** C2, at the boundary.  A pending job whose age is exactly the timeout
    is kept in Active and gets no entry in History. *)
Lemma stuck_boundary_counterexample :
  let pass := NewsSearch.loadTasks_fulfilled [] (Sync.BareArray [Samples.oslo])
                Samples.quarterHour NewsSearch.initial in
  Samples.quarterHour - Task.created_at Samples.oslo >= Sync.STUCK_TASK_TIMEOUT
  /\ isPendingOrProcessing Samples.oslo = true
  /\ In Samples.oslo (NewsSearch.activeTasks (fst pass))
  /\ NewsSearch.historyTasks (fst pass) = []
  /\ ~ (In Samples.oslo (NewsSearch.activeTasks (fst pass))
        <-> JsSet.has [] (Task.id Samples.oslo) = false
            /\ Samples.quarterHour - Task.created_at Samples.oslo
               < Sync.STUCK_TASK_TIMEOUT).
Proof.
  cbv zeta. split; [vm_compute; discriminate|].
  split; [reflexivity|]. split; [left; reflexivity|]. split; [reflexivity|].
  intros [H _]. destruct (H (or_introl eq_refl)) as [_ Hlt].
  vm_compute in Hlt. discriminate Hlt.
Qed.

(** C2, as the code has it.  For a pending or processing job of the
    fetched collection: it is in Active iff its id is not in the removal
    set and its age is at most the timeout; if it is older than the timeout
    and not removed, History holds an entry with its id and status failed
    that is a copy of a fetched job (the copy of that very job when the
    fetched ids are distinct); the pass issues the list request and nothing
    else, so no write reaches the backing store. *)
Theorem stuck_jobs_partition :
  forall (captured : list Task.t) (tasks : Sync.ListResponse) (now : Z)
         (s : NewsSearch.State) (j : Task.t),
    In j (Sync.tasksArray_of tasks) ->
    isPendingOrProcessing j = true ->
    let pass := NewsSearch.loadTasks_fulfilled captured tasks now s in
    let removed := NewsSearch.removedTaskIdsRef s in
    let age := now - Task.created_at j in
    (In j (NewsSearch.activeTasks (fst pass))
     <-> JsSet.has removed (Task.id j) = false /\ age <= Sync.STUCK_TASK_TIMEOUT)
    /\ (Sync.STUCK_TASK_TIMEOUT < age ->
        JsSet.has removed (Task.id j) = false ->
        (exists x, In x (Sync.tasksArray_of tasks)
                   /\ Task.id x = Task.id j
                   /\ In (Task.with_status failed x)
                         (NewsSearch.historyTasks (fst pass)))
        /\ (NoDup (List.map Task.id (Sync.tasksArray_of tasks)) ->
            In (Task.with_status failed j) (NewsSearch.historyTasks (fst pass))))
    /\ NewsSearch.loadTasks ++ snd pass = [NewsSearch.GetAllSearchTasks]
    /\ forallb (fun e => negb (NewsSearch.isWrite e))
               (NewsSearch.loadTasks ++ snd pass) = true.
Proof.
  intros captured tasks now s j Hj Hp pass removed age.
  split; [|split; [|split; reflexivity]].
  - unfold pass. rewrite loadTasks_fulfilled_active. unfold Sync.active.
    rewrite filter_In. unfold Sync.activeFilter. fold removed. rewrite Hp.
    fold age. destruct (JsSet.has removed (Task.id j)).
    + split; [intros [_ H]; discriminate | intros [H _]; discriminate].
    + destruct (age >? Sync.STUCK_TASK_TIMEOUT) eqn:E.
      * apply Z.gtb_lt in E. split; [intros [_ H]; discriminate | lia].
      * rewrite Z.gtb_ltb in E. apply Z.ltb_ge in E. tauto.
  - intros Hage Hrem.
    assert (Hs : Sync.stuckFilter removed now j = true).
    { unfold Sync.stuckFilter. rewrite Hrem, Hp. fold age.
      apply Z.gtb_lt. exact Hage. }
    destruct (@SyncFacts.stuck_in_history captured (Sync.tasksArray_of tasks)
                removed now j Hj Hs) as [x [Hx [Hxs [Hid Hin]]]].
    unfold pass. rewrite loadTasks_fulfilled_history. fold removed. split.
    + exists x. auto.
    + intros ND.
      rewrite <- (@SyncFacts.NoDup_map_inj Task.id _ x j ND Hx Hj Hid). exact Hin.
Qed.

Lemma stuck_jobs_partition_witness :
  let tasks := Sync.BareArray [Samples.oslo; Samples.lima] in
  let pass := NewsSearch.loadTasks_fulfilled [] tasks 1000000 NewsSearch.initial in
  In Samples.oslo (Sync.tasksArray_of tasks)
  /\ isPendingOrProcessing Samples.oslo = true
  /\ ~ In Samples.oslo (NewsSearch.activeTasks (fst pass))
  /\ In (Task.with_status failed Samples.oslo) (NewsSearch.historyTasks (fst pass)).
Proof.
  cbv zeta.
  pose proof (@stuck_jobs_partition [] (Sync.BareArray [Samples.oslo; Samples.lima])
                1000000 NewsSearch.initial Samples.oslo
                (or_introl eq_refl) eq_refl) as H.
  cbv zeta in H. destruct H as [Hact [Hhist _]].
  split; [now left|]. split; [reflexivity|]. split.
  - intros Hin. apply Hact in Hin. destruct Hin as [_ Hage].
    vm_compute in Hage. apply Hage. reflexivity.
  - apply Hhist; [reflexivity | reflexivity |].
    vm_compute. repeat constructor; simpl; intuition discriminate.
Defined.

(** C4.  The merge is idempotent: a second pass over the same fetched
    collection, removal set and time, seeded with the History of the first
    pass, produces that same History. *)
Theorem merge_idempotent :
  forall (captured : list Task.t) (tasks : Sync.ListResponse) (now : Z)
         (s : NewsSearch.State),
    let first := fst (NewsSearch.loadTasks_fulfilled captured tasks now s) in
    let second :=
      fst (NewsSearch.loadTasks_fulfilled (NewsSearch.historyTasks first)
             tasks now first) in
    NewsSearch.historyTasks second = NewsSearch.historyTasks first.
Proof.
  intros captured tasks now s first second. unfold second.
  rewrite loadTasks_fulfilled_history. unfold first.
  rewrite loadTasks_fulfilled_removed, loadTasks_fulfilled_history.
  set (l := Sync.tasksArray_of tasks). set (r := NewsSearch.removedTaskIdsRef s).
  unfold Sync.history at 1. rewrite SyncFacts.historyMap_of_history.
  unfold JsMap.values. rewrite map_map. simpl. rewrite map_id.
  unfold Sync.history. apply sort_idempotent.
  exact SyncFacts.newestFirst_total.
Qed.

(** C5, for a stuck job.  Dismissing a pending job that is older than the
    timeout changes History: its synthesized entry is left out. *)
Lemma dismissed_stuck_job_counterexample :
  let tasks := Sync.BareArray [Samples.oslo] in
  Sync.history [] (Sync.tasksArray_of tasks) [] 1000000
    = [Task.with_status failed Samples.oslo]
  /\ Sync.history [] (Sync.tasksArray_of tasks) [Task.id Samples.oslo] 1000000 = []
  /\ Sync.history [] (Sync.tasksArray_of tasks) [] 1000000
     <> Sync.history [] (Sync.tasksArray_of tasks) [Task.id Samples.oslo] 1000000.
Proof.
  cbv zeta. split; [reflexivity|]. split; [reflexivity|]. vm_compute. discriminate.
Qed.

(** C5, as the code has it.  Two removal sets that agree on the ids of the
    fetched pending or processing jobs older than the timeout give the same
    History; whatever the removal set, every completed or failed job of
    the fetched collection has its id in History, so a dismissed terminal
    job still appears there; and a dismissed job that is stuck gets no
    synthesized entry: no synthesized entry carries a dismissed id, and an
    entry of History with a dismissed id is a completed or failed entry of
    the previous History or of the fetched collection, as it was there. *)
Theorem ledger_only_hides_stuck_entries :
  forall (captured tasksArray : list Task.t) (removed removed' : JsSet.t) (now : Z),
    (forall j, In j tasksArray ->
               isPendingOrProcessing j = true ->
               Sync.STUCK_TASK_TIMEOUT < now - Task.created_at j ->
               JsSet.has removed (Task.id j) = JsSet.has removed' (Task.id j)) ->
    Sync.history captured tasksArray removed now
      = Sync.history captured tasksArray removed' now
    /\ (forall j, In j tasksArray -> isTerminal j = true ->
                  In (Task.id j)
                     (List.map Task.id (Sync.history captured tasksArray removed now)))
    /\ (forall v, In v (Sync.stuckTasks tasksArray removed now) ->
                  JsSet.has removed (Task.id v) = false)
    /\ (forall j, In j tasksArray ->
                  JsSet.has removed (Task.id j) = true ->
                  ~ In (Task.with_status failed j)
                       (Sync.stuckTasks tasksArray removed now))
    /\ (forall v, In v (Sync.history captured tasksArray removed now) ->
                  JsSet.has removed (Task.id v) = true ->
                  (In v captured \/ In v tasksArray) /\ isTerminal v = true).
Proof.
  intros captured l r r' now Hagree.
  assert (Hstuck : forall v, In v (Sync.stuckTasks l r now) ->
                             JsSet.has r (Task.id v) = false).
  { intros v Hv. unfold Sync.stuckTasks in Hv. apply in_map_iff in Hv.
    destruct Hv as (x & <- & Hx). apply filter_In in Hx. destruct Hx as [_ Hf].
    rewrite SyncFacts.with_status_id. unfold Sync.stuckFilter in Hf.
    destruct (JsSet.has r (Task.id x)); [discriminate | reflexivity]. }
  split; [|split; [|split; [|split]]].
  - unfold Sync.history, Sync.historyMap.
    rewrite (@SyncFacts.stuckTasks_ext l r r' now); [reflexivity|].
    intros j Hj. unfold Sync.stuckFilter.
    destruct (isPendingOrProcessing j) eqn:Hp.
    + destruct (now - Task.created_at j >? Sync.STUCK_TASK_TIMEOUT) eqn:E.
      * apply Z.gtb_lt in E. rewrite (Hagree j Hj Hp E). reflexivity.
      * destruct (JsSet.has r (Task.id j)), (JsSet.has r' (Task.id j)); reflexivity.
    + destruct (JsSet.has r (Task.id j)), (JsSet.has r' (Task.id j)); reflexivity.
  - intros j Hj Hterm. apply SyncFacts.history_ids.
    rewrite SyncFacts.historyMap_writes. apply SyncFacts.keys_fold_incl. right.
    apply in_map. unfold Notions.writes. apply in_or_app. right.
    apply in_or_app. left. apply filter_In. split; assumption.
  - exact Hstuck.
  - intros j _ Hrem Hin. apply Hstuck in Hin.
    rewrite SyncFacts.with_status_id in Hin. congruence.
  - intros v Hv Hrem.
    destruct (PassFacts.history_provenance _ _ _ _ _ Hv)
      as [[Hc Ht] | [[Hl Ht] | (x & Hx & Hf & ->)]]; [tauto | tauto |].
    exfalso. rewrite SyncFacts.with_status_id in Hrem.
    unfold Sync.stuckFilter in Hf. rewrite Hrem in Hf. discriminate.
Qed.

Lemma ledger_only_hides_stuck_entries_witness :
  isPendingOrProcessing Samples.oslo = true
  /\ Sync.STUCK_TASK_TIMEOUT < 1000000 - Task.created_at Samples.oslo
  /\ Sync.history [] [Samples.rome; Samples.oslo] [js "b2"; js "a1"] 1000000
     = Sync.history [] [Samples.rome; Samples.oslo] [js "b2"] 1000000
  /\ In (js "a1")
        (List.map Task.id
           (Sync.history [] [Samples.rome; Samples.oslo] [js "b2"; js "a1"] 1000000))
  /\ ~ In (Task.with_status failed Samples.oslo)
         (Sync.stuckTasks [Samples.rome; Samples.oslo] [js "b2"; js "a1"] 1000000)
  /\ Sync.history [] [Samples.rome; Samples.oslo] [js "b2"; js "a1"] 1000000
     = [Samples.rome]
  /\ Sync.history [] [Samples.rome; Samples.oslo] [] 1000000
     = [Samples.rome; Task.with_status failed Samples.oslo].
Proof.
  destruct (@ledger_only_hides_stuck_entries [] [Samples.rome; Samples.oslo]
              [js "b2"; js "a1"] [js "b2"] 1000000)
    as (Heq & Hin & _ & Hnot & _).
  - intros j [<-|[<-|[]]] Hp Hage.
    + discriminate Hp.
    + reflexivity.
  - split; [reflexivity|]. split; [reflexivity|]. split; [exact Heq|]. split.
    + apply (Hin Samples.rome); [now left | reflexivity].
    + split.
      * apply (Hnot Samples.oslo); [right; now left | reflexivity].
      * split; reflexivity.
Defined.

(** C6, on a finished search.  After a failed create, the task id, the
    displayed status, the results, the active view and the history page are
    not what they were before the submission. *)
Lemma create_failure_counterexample :
  let before := Samples.viewingRome in
  let submitted := fst (NewsSearch.handleSearch before) in
  let after := fst (NewsSearch.handleSearch_createFailed Samples.offline submitted) in
  snd (NewsSearch.handleSearch before)
    = [NewsSearch.CreateSearchTask (js "Rome") 2]
  /\ NewsSearch.taskId before = Some (js "a1")
  /\ NewsSearch.taskId after = None
  /\ NewsSearch.status before = Some completed
  /\ NewsSearch.status after = None
  /\ NewsSearch.results before <> []
  /\ NewsSearch.results after = []
  /\ NewsSearch.activeView before = HistoryView
  /\ NewsSearch.activeView after = ActiveView
  /\ NewsSearch.historyPage before = 2
  /\ NewsSearch.historyPage after = 1
  /\ ~ (NewsSearch.taskId after = NewsSearch.taskId before
        /\ NewsSearch.status after = NewsSearch.status before
        /\ NewsSearch.results after = NewsSearch.results before
        /\ NewsSearch.activeView after = NewsSearch.activeView before
        /\ NewsSearch.historyPage after = NewsSearch.historyPage before).
Proof.
  cbv zeta. repeat split; try reflexivity; try (vm_compute; discriminate).
  intros [H _]. vm_compute in H. discriminate H.
Qed.

(** C6, as the code has it.  When create fails during a submission, the
    error is surfaced and loading ends; no poller is started and no status
    request is sent (a poller that was live is cleared on submission); the
    task id, task keyword, status and results have been reset, the view is
    the active one and the history page is 1; the typed text, the Active and
    History lists and the removal set are left as they were. *)
Theorem create_failure_surfaces_error :
  forall (s : NewsSearch.State) (err : NewsSearch.RequestError)
         (searchKeyword : jsstring) (articleCount : Z),
    NewsSearch.inProgress s = false ->
    InputParser.parseInput (NewsSearch.keyword s)
      = InputParser.Parsed searchKeyword articleCount ->
    let submitted := NewsSearch.handleSearch s in
    let rejected := NewsSearch.handleSearch_createFailed err (fst submitted) in
    let after := fst rejected in
    snd submitted
      = match NewsSearch.pollingIntervalRef s with
        | Some id => [NewsSearch.ClearInterval id]
        | None => []
        end ++ [NewsSearch.CreateSearchTask searchKeyword articleCount]
    /\ snd rejected = []
    /\ forallb (fun e => negb (NewsSearch.startsPoller e))
               (snd submitted ++ snd rejected) = true
    /\ NewsSearch.pollingIntervalRef after = None
    /\ NewsSearch.error after
       = Some (NewsSearch.errorText err (js "Failed to create search task"))
    /\ NewsSearch.isLoading after = false
    /\ NewsSearch.taskId after = None
    /\ NewsSearch.taskKeyword after = None
    /\ NewsSearch.status after = None
    /\ NewsSearch.results after = []
    /\ NewsSearch.activeView after = ActiveView
    /\ NewsSearch.historyPage after = 1
    /\ NewsSearch.keyword after = NewsSearch.keyword s
    /\ NewsSearch.activeTasks after = NewsSearch.activeTasks s
    /\ NewsSearch.historyTasks after = NewsSearch.historyTasks s
    /\ NewsSearch.removedTaskIdsRef after = NewsSearch.removedTaskIdsRef s.
Proof.
  intros s err kw n Hidle Hparse submitted rejected after.
  unfold after, rejected, submitted, NewsSearch.handleSearch.
  rewrite Hidle, Hparse. unfold NewsSearch.clearPolling.
  destruct s as [k tid tk st rs er il av at' ht ex hp rm [pid|]];
    cbn; repeat split; reflexivity.
Qed.

Lemma create_failure_surfaces_error_witness :
  let after :=
    fst (NewsSearch.handleSearch_createFailed Samples.offline
           (fst (NewsSearch.handleSearch Samples.viewingRome))) in
  NewsSearch.inProgress Samples.viewingRome = false
  /\ NewsSearch.error after = Some (js "Network Error")
  /\ NewsSearch.pollingIntervalRef after = None
  /\ NewsSearch.historyTasks after = NewsSearch.historyTasks Samples.viewingRome.
Proof.
  cbv zeta.
  pose proof (@create_failure_surfaces_error Samples.viewingRome Samples.offline
                (js "Rome") 2 eq_refl eq_refl) as H.
  cbv zeta in H.
  destruct H as (_ & _ & _ & Hpoll & Herr & _ & _ & _ & _ & _ & _ & _ & _ & _ & Hhist & _).
  split; [reflexivity|]. split; [exact Herr|]. split; [exact Hpoll | exact Hhist].
Defined.

(** C8.  When the status request of a poller fails, the live interval is
    cleared and none is left, the error is surfaced, and the displayed
    status, the task id and the Active and History lists are left as they
    were; no request is sent again and nothing is written to the store.
    The surfaced error is a text that is never empty, so that it is shown:
    the detail of the response when it has one that is not empty, else the
    message of the error when that is not empty, else the fixed text
    [Failed to fetch task status]. *)
Theorem poll_failure_stops_polling :
  forall (s : NewsSearch.State) (err : NewsSearch.RequestError),
    let rejected := NewsSearch.pollTaskStatus_rejected err s in
    let after := fst rejected in
    NewsSearch.pollingIntervalRef after = None
    /\ snd rejected
       = match NewsSearch.pollingIntervalRef s with
         | Some id => [NewsSearch.ClearInterval id]
         | None => []
         end
    /\ forallb (fun e => negb (NewsSearch.startsPoller e || NewsSearch.isWrite e))
               (snd rejected) = true
    /\ NewsSearch.error after
       = Some (NewsSearch.errorText err (js "Failed to fetch task status"))
    /\ NewsSearch.isLoading after = false
    /\ NewsSearch.status after = NewsSearch.status s
    /\ NewsSearch.taskId after = NewsSearch.taskId s
    /\ NewsSearch.results after = NewsSearch.results s
    /\ NewsSearch.activeTasks after = NewsSearch.activeTasks s
    /\ NewsSearch.historyTasks after = NewsSearch.historyTasks s
    /\ (exists m,
          NewsSearch.error after = Some m
          /\ m <> []
          /\ (forall d, NewsSearch.detail err = Some d -> d <> [] -> m = d)
          /\ ((NewsSearch.detail err = None \/ NewsSearch.detail err = Some []) ->
              forall t, NewsSearch.message err = Some t -> t <> [] -> m = t)
          /\ ((NewsSearch.detail err = None \/ NewsSearch.detail err = Some []) ->
              (NewsSearch.message err = None \/ NewsSearch.message err = Some []) ->
              m = js "Failed to fetch task status")).
Proof.
  intros s err rejected after.
  assert (Htext :
    let m := NewsSearch.errorText err (js "Failed to fetch task status") in
    m <> []
    /\ (forall d, NewsSearch.detail err = Some d -> d <> [] -> m = d)
    /\ ((NewsSearch.detail err = None \/ NewsSearch.detail err = Some []) ->
        forall t, NewsSearch.message err = Some t -> t <> [] -> m = t)
    /\ ((NewsSearch.detail err = None \/ NewsSearch.detail err = Some []) ->
        (NewsSearch.message err = None \/ NewsSearch.message err = Some []) ->
        m = js "Failed to fetch task status")).
  { cbv zeta. split; [apply MessageFacts.errorText_not_blank; discriminate|].
    unfold NewsSearch.errorText. split; [|split].
    - intros d -> Hd. destruct d; [congruence | reflexivity].
    - intros [-> | ->] t -> Ht; destruct t; congruence || reflexivity.
    - intros [-> | ->] [-> | ->]; reflexivity. }
  unfold after, rejected, NewsSearch.pollTaskStatus_rejected, NewsSearch.clearPolling.
  destruct s as [k tid tk st rs er il av at' ht ex hp rm [pid|]];
    cbn; (repeat split; try reflexivity);
    (eexists; split; [reflexivity | exact Htext]).
Qed.

(** ** HistoryPaginator *)

Lemma ceilThird_is_ceiling len :
  3 * (Paginator.ceilThird len - 1) < len <= 3 * Paginator.ceilThird len.
Proof.
  unfold Paginator.ceilThird.
  pose proof (Z.div_mod (len + 2) 3 ltac:(lia)).
  pose proof (Z.mod_pos_bound (len + 2) 3 ltac:(lia)). lia.
Qed.

Lemma pageCount_max len :
  0 <= len -> Paginator.pageCount len = Z.max 1 (Paginator.ceilThird len).
Proof.
  intros H. unfold Paginator.pageCount. pose proof (ceilThird_is_ceiling len).
  destruct (Paginator.ceilThird len =? 0) eqn:E.
  - apply Z.eqb_eq in E. lia.
  - apply Z.eqb_neq in E. lia.
Qed.

(** C7, outside the guard of the effect.  In the active view, and in the
    history view with an empty History, the effect leaves a page beyond the
    page count where it is. *)
Lemma page_not_clamped_counterexample :
  NewsSearch.historyPage (NewsSearch.historyPageEffect Samples.backOnActiveTab) = 2
  /\ Paginator.resetOutOfBounds ActiveView 3 2 = 2
  /\ Paginator.pageCount 3 = 1
  /\ Paginator.resetOutOfBounds HistoryView 0 2 = 2
  /\ Paginator.pageCount 0 = 1
  /\ ~ (1 <= Paginator.resetOutOfBounds ActiveView 3 2 <= Paginator.pageCount 3).
Proof.
  repeat split; try reflexivity. vm_compute. intros [_ H]. apply H. reflexivity.
Qed.

(** C7, as the code has it.  For a History of length N the page count is
    max(1, ceil(N/3)).  While the history view is shown and History is not
    empty, the effect that follows a change of the length leaves the current
    page in [1, pageCount]; in the active view or with an empty History it
    leaves the page as it is.  Next at the last page and previous at page 1
    change nothing, and from a page in range both stay in range. *)
Theorem history_pagination :
  forall (activeView : View) (len historyPage : Z),
    0 <= len ->
    1 <= historyPage ->
    Paginator.pageCount len = Z.max 1 (Paginator.ceilThird len)
    /\ 3 * (Paginator.ceilThird len - 1) < len <= 3 * Paginator.ceilThird len
    /\ (activeView = HistoryView -> 0 < len ->
        1 <= Paginator.resetOutOfBounds activeView len historyPage
          <= Paginator.pageCount len)
    /\ (activeView = ActiveView \/ len = 0 ->
        Paginator.resetOutOfBounds activeView len historyPage = historyPage)
    /\ (0 < len ->
        Paginator.nextPage len (Paginator.pageCount len) = Paginator.pageCount len
        /\ (historyPage <= Paginator.pageCount len ->
            1 <= Paginator.nextPage len historyPage <= Paginator.pageCount len))
    /\ Paginator.previousPage 1 = 1
    /\ (historyPage <= Paginator.pageCount len ->
        1 <= Paginator.previousPage historyPage <= Paginator.pageCount len).
Proof.
  intros view len page Hlen Hpage.
  pose proof (ceilThird_is_ceiling len) as Hc.
  pose proof (pageCount_max Hlen) as Hpc.
  split; [exact Hpc|]. split; [exact Hc|].
  unfold Paginator.resetOutOfBounds, Paginator.nextPage, Paginator.previousPage.
  rewrite Hpc. repeat split.
  - subst view. destruct (0 <? len); [|lia].
    destruct (page >? Paginator.ceilThird len); lia.
  - subst view. destruct (0 <? len) eqn:E; [|lia].
    destruct (page >? Paginator.ceilThird len) eqn:E'; [lia|].
    rewrite Z.gtb_ltb in E'. apply Z.ltb_ge in E'. lia.
  - intros [-> | ->]; [reflexivity | destruct view; reflexivity].
  - lia.
  - lia.
  - lia.
  - lia.
  - lia.
Qed.

Lemma history_pagination_witness :
  1 <= Paginator.resetOutOfBounds HistoryView 4 5 <= Paginator.pageCount 4
  /\ Paginator.pageCount 4 = 2
  /\ Paginator.nextPage 4 2 = 2.
Proof.
  destruct (@history_pagination HistoryView 4 5 ltac:(lia) ltac:(lia))
    as (_ & _ & Hclamp & _ & Hnext & _).
  split; [apply Hclamp; [reflexivity | lia]|].
  split; [reflexivity|].
  destruct (Hnext ltac:(lia)) as [H _]. exact H.
Defined.

(** ** InputParser *)



(** C10.  A submission whose text before the first comma is blank, so
    that the parsed keyword is empty, ends in a validation error: no request
    is issued, in particular no create, and nothing but the error message
    changes. *)
Theorem empty_keyword_is_rejected :
  forall (s : NewsSearch.State) (pre rest : jsstring),
    NewsSearch.inProgress s = false ->
    NewsSearch.keyword s = pre ++ js "," ++ rest ->
    InputParser.allWhiteSpace pre = true ->
    let submitted := NewsSearch.handleSearch s in
    let after := fst submitted in
    InputParser.parseInput (NewsSearch.keyword s)
      = InputParser.ValidationError (js "Please enter a valid keyword")
    /\ snd submitted = []
    /\ after = NewsSearch.setError (Some (js "Please enter a valid keyword")) s
    /\ NewsSearch.error after = Some (js "Please enter a valid keyword")
    /\ NewsSearch.taskId after = NewsSearch.taskId s
    /\ NewsSearch.taskKeyword after = NewsSearch.taskKeyword s
    /\ NewsSearch.status after = NewsSearch.status s
    /\ NewsSearch.results after = NewsSearch.results s
    /\ NewsSearch.isLoading after = NewsSearch.isLoading s
    /\ NewsSearch.activeView after = NewsSearch.activeView s
    /\ NewsSearch.activeTasks after = NewsSearch.activeTasks s
    /\ NewsSearch.historyTasks after = NewsSearch.historyTasks s
    /\ NewsSearch.historyPage after = NewsSearch.historyPage s
    /\ NewsSearch.pollingIntervalRef after = NewsSearch.pollingIntervalRef s.
Proof.
  intros s pre rest Hidle Hkw Hpre submitted after.
  assert (Hparse : InputParser.parseInput (NewsSearch.keyword s)
                   = InputParser.ValidationError (js "Please enter a valid keyword")).
  { rewrite Hkw. change (pre ++ js "," ++ rest) with (pre ++ 44%N :: rest).
    rewrite (@ParserFacts.parseInput_comma (pre ++ 44%N :: rest) [] (trimEnd rest)).
    - reflexivity.
    - rewrite TextFacts.trim_around_comma. unfold trimStart.
      now rewrite (TextFacts.dropWhile_all isWhiteSpace pre Hpre).
    - reflexivity. }
  split; [exact Hparse|].
  unfold after, submitted, NewsSearch.handleSearch. rewrite Hidle, Hparse.
  cbn. repeat split; reflexivity.
Qed.

Lemma empty_keyword_is_rejected_witness :
  let s := NewsSearch.setActiveTasks [Samples.lima]
             (NewsSearch.mkState (js ", 5") None None None [] None false
                ActiveView [] [Samples.rome] None 1 [] None) in
  NewsSearch.inProgress s = false
  /\ snd (NewsSearch.handleSearch s) = []
  /\ NewsSearch.error (fst (NewsSearch.handleSearch s))
     = Some (js "Please enter a valid keyword")
  /\ NewsSearch.activeTasks (fst (NewsSearch.handleSearch s)) = [Samples.lima].
Proof.
  cbv zeta.
  pose proof (@empty_keyword_is_rejected
                (NewsSearch.setActiveTasks [Samples.lima]
                   (NewsSearch.mkState (js ", 5") None None None [] None false
                      ActiveView [] [Samples.rome] None 1 [] None))
                [] (js " 5") eq_refl eq_refl eq_refl) as H.
  cbv zeta in H.
  destruct H as (_ & Heff & _ & Herr & _ & _ & _ & _ & _ & _ & Hact & _).
  split; [reflexivity|]. split; [exact Heff|]. split; [exact Herr | exact Hact].
Defined.

(** ** PDF resolution *)

(** C9, on a repeated prefix.  A stored path that begins with the media
    prefix twice resolves to a location with a doubled media prefix, and a
    media prefix inside a relative path is not stripped. *)
Lemma doubled_media_prefix_counterexample :
  Api.getPdfUrl (Api.API_BASE_URL None) (Some (js "media/media/a.pdf"))
    = js "http://localhost:8000/media/media/a.pdf"
  /\ includes (js "/media/media/")
       (Api.getPdfUrl (Api.API_BASE_URL None) (Some (js "media/media/a.pdf")))
     = true
  /\ Api.getPdfUrl (Api.API_BASE_URL None) (Some (js "files/media/a.pdf"))
     = js "http://localhost:8000/media/files/media/a.pdf".
Proof. repeat split; vm_compute; reflexivity. Qed.

(** C9, as the code has it.  For a non-empty stored path or URL the result
    is the base location, the media prefix, and what is left of the input
    after dropping, once each and in this order: for an absolute URL
    everything up to and including its first media segment (or up to its
    last separator when it has none), one leading separator, one leading
    media prefix.  Hence every spelling of a canonical storage-relative
    path [r] (one that starts with neither a separator nor the media
    prefix) -- the path itself, with a leading separator, with the media
    prefix, with both, or as an absolute URL whose first media segment is
    followed by [r] -- resolves to the same location, base + media prefix +
    [r], in which the media prefix is not doubled; an absolute URL without
    a media segment resolves to its file name alone; and a media prefix
    that is repeated or embedded in a relative path is kept, since only one
    leading media prefix is dropped. *)
Theorem pdf_resolution :
  forall (base r : jsstring),
    startsWith (js "/") r = false ->
    startsWith Api.mediaPrefix r = false ->
    let location := base ++ Api.mediaSegment ++ r in
    (forall p, p <> [] ->
       exists finalPath,
         Notions.suffixOf finalPath p
         /\ Api.getPdfUrl base (Some p) = base ++ Api.mediaSegment ++ finalPath)
    /\ (r <> [] -> Notions.isAbsoluteUrl r = false ->
        Api.getPdfUrl base (Some r) = location)
    /\ Api.getPdfUrl base (Some (js "/" ++ r)) = location
    /\ Api.getPdfUrl base (Some (Api.mediaPrefix ++ r)) = location
    /\ Api.getPdfUrl base (Some (Api.mediaSegment ++ r)) = location
    /\ (forall origin,
          Notions.isAbsoluteUrl origin = true ->
          indexOf Api.mediaSegment (origin ++ Api.mediaSegment ++ r)
            = Some (List.length origin) ->
          Api.getPdfUrl base (Some (origin ++ Api.mediaSegment ++ r)) = location)
    /\ startsWith (js "/media/media/") (Api.mediaSegment ++ r) = false
    /\ (forall p, p <> [] ->
          exists t1 t2 t3,
            MoreNotions.relativeOf p t1
            /\ MoreNotions.strippedOnce (js "/") t1 t2
            /\ MoreNotions.strippedOnce Api.mediaPrefix t2 t3
            /\ Api.getPdfUrl base (Some p) = base ++ Api.mediaSegment ++ t3)
    /\ (forall origin,
          Notions.isAbsoluteUrl origin = true ->
          (forall o q, origin ++ Api.mediaSegment ++ r = o ++ Api.mediaSegment ++ q ->
                       (List.length origin <= List.length o)%nat) ->
          Api.getPdfUrl base (Some (origin ++ Api.mediaSegment ++ r)) = location)
    /\ (forall p,
          Notions.isAbsoluteUrl p = true ->
          MoreNotions.noSegment Api.mediaSegment p ->
          exists dir name,
            p = dir ++ js "/" ++ name
            /\ MoreNotions.noSlash name = true
            /\ Api.getPdfUrl base (Some p) = base ++ Api.mediaSegment ++ name)
    /\ (forall q,
          Api.getPdfUrl base (Some (Api.mediaPrefix ++ q))
          = base ++ Api.mediaSegment ++ q)
    /\ (forall q,
          Api.getPdfUrl base (Some (js "/" ++ Api.mediaPrefix ++ q))
          = base ++ Api.mediaSegment ++ q)
    /\ Api.getPdfUrl base (Some (Api.mediaPrefix ++ Api.mediaPrefix ++ r))
       = base ++ Api.mediaSegment ++ Api.mediaPrefix ++ r.
Proof.
  intros base r Hslash Hmedia location. unfold location.
  assert (Hurl_r : forall origin,
            Notions.isAbsoluteUrl origin = true ->
            indexOf Api.mediaSegment (origin ++ Api.mediaSegment ++ r)
              = Some (List.length origin) ->
            Api.getPdfUrl base (Some (origin ++ Api.mediaSegment ++ r))
            = base ++ Api.mediaSegment ++ r).
  { intros origin Hurl Hidx.
    rewrite ApiFacts.getPdfUrl_steps.
    + rewrite ApiFacts.relativePart_of_url by assumption.
      now rewrite ApiFacts.canonical_kept.
    + destruct origin; [discriminate Hurl | discriminate]. }
  split; [|split; [|split; [|split; [|split; [|split; [|split;
    [|split; [|split; [|split; [|split; [|split]]]]]]]]]]].
  - intros p Hp. eexists. split; [|apply ApiFacts.getPdfUrl_steps, Hp].
    eapply ApiFacts.suffixOf_trans; [apply ApiFacts.withoutMediaPrefix_suffix|].
    eapply ApiFacts.suffixOf_trans; [apply ApiFacts.withoutLeadingSlash_suffix|].
    apply ApiFacts.relativePart_suffix.
  - intros Hne Hrel. rewrite ApiFacts.getPdfUrl_steps by exact Hne.
    unfold Notions.relativePart. rewrite Hrel.
    now rewrite ApiFacts.canonical_kept.
  - rewrite ApiFacts.getPdfUrl_steps by discriminate.
    change (Notions.relativePart (js "/" ++ r)) with (js "/" ++ r).
    change (Notions.withoutLeadingSlash (js "/" ++ r)) with r.
    unfold Notions.withoutMediaPrefix. now rewrite Hmedia.
  - rewrite ApiFacts.getPdfUrl_steps by discriminate.
    change (Notions.relativePart (Api.mediaPrefix ++ r)) with (Api.mediaPrefix ++ r).
    change (Notions.withoutLeadingSlash (Api.mediaPrefix ++ r))
      with (Api.mediaPrefix ++ r).
    unfold Notions.withoutMediaPrefix.
    rewrite ApiFacts.startsWith_self. unfold substring.
    change (Api.mediaPrefix ++ r) with (Api.mediaPrefix ++ [] ++ r).
    change (List.length Api.mediaPrefix)
      with (List.length Api.mediaPrefix + List.length (@nil N))%nat.
    now rewrite ApiFacts.skipn_past.
  - rewrite ApiFacts.getPdfUrl_steps by discriminate.
    change (Notions.relativePart (Api.mediaSegment ++ r)) with (Api.mediaSegment ++ r).
    change (Notions.withoutLeadingSlash (Api.mediaSegment ++ r))
      with (Api.mediaPrefix ++ r).
    unfold Notions.withoutMediaPrefix.
    rewrite ApiFacts.startsWith_self. unfold substring.
    change (Api.mediaPrefix ++ r) with (Api.mediaPrefix ++ [] ++ r).
    change (List.length Api.mediaPrefix)
      with (List.length Api.mediaPrefix + List.length (@nil N))%nat.
    now rewrite ApiFacts.skipn_past.
  - exact Hurl_r.
  - change (startsWith (js "/media/media/") (Api.mediaSegment ++ r))
      with (startsWith Api.mediaPrefix r).
    exact Hmedia.
  - intros p Hp.
    exists (Notions.relativePart p),
           (Notions.withoutLeadingSlash (Notions.relativePart p)),
           (Notions.withoutMediaPrefix
              (Notions.withoutLeadingSlash (Notions.relativePart p))).
    split; [apply UrlFacts.relativeOf_step|].
    split; [apply UrlFacts.strippedOnce_step|].
    split; [apply UrlFacts.strippedOnce_step | now apply ApiFacts.getPdfUrl_steps].
  - intros origin Hurl Hfirst. apply Hurl_r; [exact Hurl|].
    destruct (indexOf Api.mediaSegment (origin ++ Api.mediaSegment ++ r))
      as [n|] eqn:Hidx.
    + destruct (@UrlFacts.indexOf_Some _ _ _ Hidx) as (o & q & Hp & Hn & Hmin).
      f_equal. apply Nat.le_antisymm.
      * apply (Hmin origin r). reflexivity.
      * rewrite <- Hn. now apply (Hfirst o q).
    + exfalso. exact (@UrlFacts.indexOf_None _ _ Hidx origin r eq_refl).
  - intros p Hurl Hnone.
    assert (Hidx : indexOf Api.mediaSegment p = None).
    { destruct (indexOf Api.mediaSegment p) eqn:E; [|reflexivity].
      destruct (@UrlFacts.indexOf_Some _ _ _ E) as (o & q & Hp & _).
      exfalso. exact (Hnone o q Hp). }
    destruct (UrlFacts.last_slash p) as [Hn | (dir & name & Hp & Hn)].
    { rewrite (UrlFacts.absolute_has_slash p Hurl) in Hn. discriminate. }
    exists dir, name. rewrite UrlFacts.js_slash.
    split; [exact Hp|]. split; [exact Hn|].
    rewrite ApiFacts.getPdfUrl_steps
      by (intros ->; destruct dir; discriminate Hp).
    assert (Hrel : Notions.relativePart p = name).
    { unfold Notions.relativePart.
      rewrite Hurl, Hidx, UrlFacts.js_slash, Hp, (@UrlFacts.lastIndexOf_slash dir name Hn).
      unfold substring. apply UrlFacts.skipn_past_one. }
    rewrite Hrel. f_equal. f_equal.
    apply ApiFacts.canonical_kept.
    + rewrite UrlFacts.js_slash. now apply UrlFacts.noSlash_no_leading_slash.
    + now apply UrlFacts.noSlash_no_media_prefix.
  - intros q. reflexivity.
  - intros q. reflexivity.
  - reflexivity.
Qed.

Lemma pdf_resolution_witness :
  Api.getPdfUrl (js "http://localhost:8000") (Some (js "/media/pdfs/a.pdf"))
    = js "http://localhost:8000/media/pdfs/a.pdf"
  /\ Api.getPdfUrl (js "http://localhost:8000")
       (Some (js "https://files.example/media/pdfs/a.pdf"))
     = js "http://localhost:8000/media/pdfs/a.pdf"
  /\ (exists dir name,
        js "https://files.example/docs/a.pdf" = dir ++ js "/" ++ name
        /\ MoreNotions.noSlash name = true
        /\ Api.getPdfUrl (js "http://localhost:8000")
             (Some (js "https://files.example/docs/a.pdf"))
           = js "http://localhost:8000" ++ Api.mediaSegment ++ name)
  /\ Api.getPdfUrl (js "http://localhost:8000") (Some (js "media/media/pdfs/a.pdf"))
     = js "http://localhost:8000/media/media/pdfs/a.pdf".
Proof.
  destruct (@pdf_resolution (js "http://localhost:8000") (js "pdfs/a.pdf")
              eq_refl eq_refl)
    as (_ & _ & _ & _ & Hseg & Hurl & _ & _ & _ & Hname & _ & _ & Htwice).
  split; [exact Hseg|].
  split; [exact (Hurl (js "https://files.example") eq_refl eq_refl)|].
  split; [|exact Htwice].
  apply Hname; [reflexivity|].
  exact (@UrlFacts.indexOf_None Api.mediaSegment
           (js "https://files.example/docs/a.pdf") eq_refl).
Defined.

(* ================================================================== *)
(** * Part IV.  Further properties of the code                         *)
(* ================================================================== *)

(** ** The synchronisation pass *)


(** X1.  The History that a pass produces is well formed whatever it was
    given: its ids are distinct, every entry is completed or failed, the
    entries are in order of creation, newest first, and each entry is a
    terminal entry of the previous History, a terminal job of the fetched
    collection, or the failed copy of a fetched job that is stuck. *)
Theorem history_is_well_formed :
  forall (captured tasksArray : list Task.t) (removed : JsSet.t) (now : Z),
    let H := Sync.history captured tasksArray removed now in
    NoDup (List.map Task.id H)
    /\ (forall v, In v H -> isTerminal v = true)
    /\ StronglySorted MoreNotions.notOlder H
    /\ (forall v, In v H ->
          (In v captured /\ isTerminal v = true)
          \/ (In v tasksArray /\ isTerminal v = true)
          \/ exists x, In x tasksArray
                       /\ Sync.stuckFilter removed now x = true
                       /\ v = Task.with_status failed x).
Proof.
  intros captured l r now H. unfold H. split; [|split; [|split]].
  - apply SyncFacts.NoDup_history_ids.
  - intros v. apply SyncFacts.history_terminal.
  - apply PassFacts.inOrder_notOlder, PassFacts.history_sorted.
  - intros v. apply PassFacts.history_provenance.
Qed.

(** X2.  The server wins: when the fetched ids are distinct, every
    completed or failed job of the fetched collection is in History exactly
    as fetched, whatever the previous History held under its id. *)
Theorem fetched_terminal_entry_wins :
  forall (captured tasksArray : list Task.t) (removed : JsSet.t) (now : Z)
         (j : Task.t),
    NoDup (List.map Task.id tasksArray) ->
    In j tasksArray ->
    isTerminal j = true ->
    In j (Sync.history captured tasksArray removed now).
Proof.
  intros captured l r now j Hnd Hj Hterm.
  set (m1 := fold_left Sync.preserveTerminal captured []).
  set (W := filter isTerminal l ++ Sync.stuckTasks l r now).
  assert (HM : Sync.historyMap captured l r now = fold_left Sync.setTask W m1).
  { unfold Sync.historyMap, W. now rewrite fold_left_app. }
  assert (ND : NoDup (JsMap.keys m1)).
  { unfold m1. rewrite SyncFacts.fold_preserveTerminal.
    apply SyncFacts.NoDup_keys_fold. constructor. }
  destruct (@SyncFacts.written_entry W m1 (Task.id j) ND) as [w [Hw [Hid Hval]]].
  { unfold W. rewrite map_app. apply in_or_app. left. apply in_map.
    apply filter_In. auto. }
  assert (w = j) as ->.
  { unfold W in Hw. apply in_app_or in Hw. destruct Hw as [Hw|Hw].
    - apply filter_In in Hw. destruct Hw as [Hwl _].
      exact (@SyncFacts.NoDup_map_inj Task.id l w j Hnd Hwl Hj Hid).
    - unfold Sync.stuckTasks in Hw. apply in_map_iff in Hw.
      destruct Hw as [x [<- Hx]]. apply filter_In in Hx. destruct Hx as [Hxl Hxs].
      simpl in Hid.
      pose proof (@SyncFacts.NoDup_map_inj Task.id l x j Hnd Hxl Hj Hid) as ->.
      apply PassFacts.stuck_is_pending in Hxs.
      rewrite (PassFacts.terminal_not_pending _ Hterm) in Hxs. discriminate. }
  unfold Sync.history. rewrite HM.
  apply (Permutation_in _ (Permutation_sym (sort_perm Sync.newestFirst _))).
  exact Hval.
Qed.

Lemma fetched_terminal_entry_wins_witness :
  let stale := Task.with_status failed Samples.rome in
  NoDup (List.map Task.id [Samples.rome; Samples.lima])
  /\ In Samples.rome (Sync.history [stale] [Samples.rome; Samples.lima] [] 600000)
  /\ ~ In stale (Sync.history [stale] [Samples.rome; Samples.lima] [] 600000).
Proof.
  cbv zeta.
  assert (ND : NoDup (List.map Task.id [Samples.rome; Samples.lima])).
  { vm_compute. repeat constructor; simpl; intuition discriminate. }
  split; [exact ND|]. split.
  - apply (@fetched_terminal_entry_wins [Task.with_status failed Samples.rome]
             [Samples.rome; Samples.lima] [] 600000 Samples.rome ND).
    + now left.
    + reflexivity.
  - vm_compute. intros [H|[]]. discriminate H.
Defined.

(** X3.  A job is shown in both views of one pass only while the server
    lags: when the fetched ids are distinct, an Active job has its id in
    History only if the previous History already held that id as completed
    or failed. *)
Theorem views_overlap_only_on_lag :
  forall (captured tasksArray : list Task.t) (removed : JsSet.t) (now : Z)
         (t : Task.t),
    NoDup (List.map Task.id tasksArray) ->
    In t (Sync.active tasksArray removed now) ->
    In (Task.id t)
       (List.map Task.id (Sync.history captured tasksArray removed now)) ->
    exists h, In h captured /\ isTerminal h = true /\ Task.id h = Task.id t.
Proof.
  intros captured l r now t Hnd Hact Hin.
  unfold Sync.active in Hact. apply filter_In in Hact. destruct Hact as [Htl Hta].
  apply SyncFacts.history_ids in Hin. rewrite SyncFacts.historyMap_writes in Hin.
  apply SyncFacts.keys_fold_inv in Hin. destruct Hin as [[]|Hin].
  apply in_map_iff in Hin. destruct Hin as [w [Hid Hw]].
  unfold Notions.writes in Hw. apply in_app_or in Hw. destruct Hw as [Hw|Hw].
  - apply filter_In in Hw. destruct Hw. exists w. auto.
  - exfalso. apply in_app_or in Hw. destruct Hw as [Hw|Hw].
    + apply filter_In in Hw. destruct Hw as [Hwl Hwt].
      pose proof (@SyncFacts.NoDup_map_inj Task.id l w t Hnd Hwl Htl Hid) as ->.
      apply PassFacts.active_is_pending in Hta.
      rewrite (PassFacts.terminal_not_pending _ Hwt) in Hta. discriminate.
    + unfold Sync.stuckTasks in Hw. apply in_map_iff in Hw.
      destruct Hw as [x [<- Hx]]. apply filter_In in Hx. destruct Hx as [Hxl Hxs].
      simpl in Hid.
      pose proof (@SyncFacts.NoDup_map_inj Task.id l x t Hnd Hxl Htl Hid) as ->.
      rewrite (PassFacts.stuck_not_active _ _ _ Hxs) in Hta. discriminate.
Qed.

Lemma views_overlap_only_on_lag_witness :
  let done := Task.with_status completed Samples.lima in
  In Samples.lima (Sync.active [Samples.lima] [] 600000)
  /\ In (Task.id Samples.lima)
        (List.map Task.id (Sync.history [done] [Samples.lima] [] 600000))
  /\ exists h, In h [done] /\ isTerminal h = true
               /\ Task.id h = Task.id Samples.lima.
Proof.
  cbv zeta.
  assert (Ha : In Samples.lima (Sync.active [Samples.lima] [] 600000))
    by (left; reflexivity).
  assert (Hh : In (Task.id Samples.lima)
                  (List.map Task.id
                     (Sync.history [Task.with_status completed Samples.lima]
                        [Samples.lima] [] 600000)))
    by (left; reflexivity).
  split; [exact Ha|]. split; [exact Hh|].
  apply (@views_overlap_only_on_lag [Task.with_status completed Samples.lima]
           [Samples.lima] [] 600000 Samples.lima); auto.
  vm_compute. repeat constructor. intros [].
Defined.

(** X4.  Along a chain of passes, each seeded with the History of the one
    before, History only grows: whatever the later fetch, removal set and
    time, every id of the earlier History is an id of the later one, and
    the later one is at least as long. *)
Theorem chained_history_grows :
  forall (captured tasksArray tasksArray' : list Task.t)
         (removed removed' : JsSet.t) (now now' : Z),
    let H1 := Sync.history captured tasksArray removed now in
    let H2 := Sync.history H1 tasksArray' removed' now' in
    incl (List.map Task.id H1) (List.map Task.id H2)
    /\ (List.length H1 <= List.length H2)%nat.
Proof.
  intros captured l l' r r' now now' H1 H2.
  assert (Hincl : incl (List.map Task.id H1) (List.map Task.id H2)).
  { intros k Hk. apply in_map_iff in Hk. destruct Hk as [v [<- Hv]].
    unfold H2. apply SyncFacts.history_ids. rewrite SyncFacts.historyMap_writes.
    apply SyncFacts.keys_fold_incl. right. apply in_map.
    unfold Notions.writes. apply in_or_app. left. apply filter_In.
    split; [exact Hv|]. unfold H1 in Hv. eapply SyncFacts.history_terminal, Hv. }
  split; [exact Hincl|].
  rewrite <- (length_map Task.id H1), <- (length_map Task.id H2).
  apply NoDup_incl_length; [|exact Hincl].
  unfold H1. apply SyncFacts.NoDup_history_ids.
Qed.

(** X5.  A fetch that returns nothing, as a bare empty array or as an
    envelope with or without an empty [results], empties Active, and leaves
    in History the completed and failed entries of the History that the
    pass reads, the one its closure captured, and nothing else.  So when
    the pass reads the History that the previous pass produced, History is
    left exactly as it was; a pass that reads an older History does not
    keep what was recorded since. *)
Theorem empty_fetch_keeps_history :
  forall (captured read : list Task.t) (tasks nothing : Sync.ListResponse)
         (now now' : Z) (s : NewsSearch.State),
    Sync.tasksArray_of nothing = [] ->
    let first := fst (NewsSearch.loadTasks_fulfilled captured tasks now s) in
    let second := fst (NewsSearch.loadTasks_fulfilled read nothing now' first) in
    NewsSearch.activeTasks second = []
    /\ (forall v, In v (NewsSearch.historyTasks second) ->
                  In v read /\ isTerminal v = true)
    /\ (forall h, In h read -> isTerminal h = true ->
                  In (Task.id h)
                     (List.map Task.id (NewsSearch.historyTasks second)))
    /\ (read = NewsSearch.historyTasks first ->
        NewsSearch.historyTasks second = NewsSearch.historyTasks first).
Proof.
  intros captured read tasks nothing now now' s Hn first second.
  split; [|split; [|split]].
  - unfold second. now rewrite loadTasks_fulfilled_active, Hn.
  - intros v Hv. unfold second in Hv.
    rewrite loadTasks_fulfilled_history, Hn in Hv.
    destruct (PassFacts.history_provenance _ _ _ _ _ Hv)
      as [H | [[[] _] | (x & [] & _)]]. exact H.
  - intros h Hh Ht. unfold second. now apply captured_terminal_ids_kept.
  - intros ->. unfold second.
    rewrite loadTasks_fulfilled_history, Hn.
    unfold first. rewrite loadTasks_fulfilled_history.
    apply PassFacts.history_of_nothing.
    + intros v. apply SyncFacts.history_terminal.
    + apply SyncFacts.NoDup_history_ids.
    + apply PassFacts.history_sorted.
Qed.

Lemma empty_fetch_keeps_history_witness :
  let first := fst (NewsSearch.loadTasks_fulfilled []
                      (Sync.BareArray [Samples.rome; Samples.lima]) 600000
                      NewsSearch.initial) in
  let second := fst (NewsSearch.loadTasks_fulfilled
                       (NewsSearch.historyTasks first) (Sync.Envelope None)
                       700000 first) in
  let stale := fst (NewsSearch.loadTasks_fulfilled [] (Sync.Envelope None)
                      700000 first) in
  NewsSearch.historyTasks second = [Samples.rome]
  /\ NewsSearch.activeTasks first = [Samples.lima]
  /\ NewsSearch.activeTasks second = []
  /\ NewsSearch.historyTasks stale = [].
Proof.
  cbv zeta.
  destruct (@empty_fetch_keeps_history []
              (NewsSearch.historyTasks
                 (fst (NewsSearch.loadTasks_fulfilled []
                         (Sync.BareArray [Samples.rome; Samples.lima]) 600000
                         NewsSearch.initial)))
              (Sync.BareArray [Samples.rome; Samples.lima])
              (Sync.Envelope None) 600000 700000 NewsSearch.initial eq_refl)
    as (Ha & _ & _ & Hh).
  split; [rewrite (Hh eq_refl); reflexivity|].
  split; [reflexivity|]. split; [exact Ha | reflexivity].
Defined.

(** ** The removal ledger *)

Module LedgerFacts.
Import JsStringFacts MoreNotions.

Lemma has_In s k : JsSet.has s k = true <-> In k s.
Proof.
  unfold JsSet.has. rewrite existsb_exists. split.
  - intros [x [Hx He]]. apply eqb_eq in He. now subst.
  - intros H. exists k. split; [exact H | apply eqb_refl].
Qed.

Lemma has_false s k : JsSet.has s k = false <-> ~ In k s.
Proof.
  rewrite <- has_In. destruct (JsSet.has s k); split; congruence.
Qed.

Lemma In_add k s x : In x (JsSet.add k s) <-> x = k \/ In x s.
Proof.
  unfold JsSet.add. destruct (JsSet.has s k) eqn:E.
  - apply has_In in E. split; [auto | intros [->|H]; auto].
  - rewrite in_app_iff. simpl. intuition.
Qed.

Lemma add_present k s : In k s -> JsSet.add k s = s.
Proof. intros H. unfold JsSet.add. apply has_In in H. now rewrite H. Qed.

Lemma add_idempotent k s : JsSet.add k (JsSet.add k s) = JsSet.add k s.
Proof. apply add_present, In_add. now left. Qed.

Lemma NoDup_add k s : NoDup s -> NoDup (JsSet.add k s).
Proof.
  intros ND. unfold JsSet.add. destruct (JsSet.has s k) eqn:E; [exact ND|].
  apply has_false in E. apply NoDup_app; auto.
  - constructor; [tauto | constructor].
  - intros x Hx [<-|[]]. exact (E Hx).
Qed.

Lemma In_addAll ids s x : In x (addAll ids s) <-> In x s \/ In x ids.
Proof.
  unfold addAll. revert s; induction ids as [|k ids IH]; intros s; simpl.
  - tauto.
  - rewrite IH, In_add. intuition.
Qed.

Lemma NoDup_addAll ids s : NoDup s -> NoDup (addAll ids s).
Proof.
  unfold addAll. revert s; induction ids as [|k ids IH]; intros s ND; simpl; auto.
  apply IH. now apply NoDup_add.
Qed.

(** Adding ids that are new and distinct appends them in order. *)
Lemma addAll_fresh ids s :
  NoDup (s ++ ids) -> addAll ids s = s ++ ids.
Proof.
  unfold addAll. revert s; induction ids as [|k ids IH]; intros s ND; simpl.
  - now rewrite app_nil_r.
  - assert (Hk : ~ In k s).
    { apply NoDup_remove_2 in ND. intros H. apply ND. apply in_or_app. now left. }
    unfold JsSet.add at 2. apply has_false in Hk. rewrite Hk.
    rewrite IH; rewrite <- app_assoc; [reflexivity | exact ND].
Qed.

Lemma fromArray_of_set s : NoDup s -> Ledger.fromArray s = s.
Proof. intros ND. exact (@addAll_fresh s [] ND). Qed.

End LedgerFacts.

(** X6.  Dismissal is idempotent and lasting: once an id has been added to
    the ledger, adding it again changes nothing, later dismissals never
    remove it or any earlier id, and no pass puts a job with that id into
    Active, whatever status the server reports for it. *)
Theorem removed_id_never_returns :
  forall (removed : JsSet.t) (id : TaskId) (later : list TaskId)
         (tasksArray : list Task.t) (now : Z),
    let ledger := MoreNotions.addAll later (JsSet.add id removed) in
    JsSet.add id ledger = ledger
    /\ JsSet.has ledger id = true
    /\ (forall k, JsSet.has removed k = true -> JsSet.has ledger k = true)
    /\ (forall t, In t (Sync.active tasksArray ledger now) -> Task.id t <> id).
Proof.
  intros removed id later l now ledger.
  assert (Hin : In id ledger).
  { unfold ledger. apply LedgerFacts.In_addAll. left.
    apply LedgerFacts.In_add. now left. }
  split; [now apply LedgerFacts.add_present|].
  split; [now apply LedgerFacts.has_In|]. split.
  - intros k Hk. apply LedgerFacts.has_In. apply LedgerFacts.has_In in Hk.
    unfold ledger. apply LedgerFacts.In_addAll. left.
    apply LedgerFacts.In_add. now right.
  - intros t Ht Heq. unfold Sync.active in Ht. apply filter_In in Ht.
    destruct Ht as [_ Hf]. unfold Sync.activeFilter in Hf.
    rewrite Heq in Hf. apply LedgerFacts.has_In in Hin. rewrite Hin in Hf.
    discriminate.
Qed.

(** X7.  Reading the persisted record: whatever array of ids is stored,
    the ledger built from it has no duplicates and holds exactly the stored
    ids; an array without duplicates, such as every array the component
    writes, is read back as it is; and a missing or unreadable record leaves
    the ledger as it was. *)
Theorem stored_ledger_is_read_back :
  forall (ids : list TaskId) (current : JsSet.t),
    NoDup (Ledger.load (Ledger.Ids ids) current)
    /\ (forall k, JsSet.has (Ledger.load (Ledger.Ids ids) current) k = true
                  <-> In k ids)
    /\ (NoDup ids -> Ledger.load (Ledger.Ids ids) current = ids)
    /\ (forall id,
          Ledger.load
            (Ledger.saved (JsSet.add id (Ledger.load (Ledger.Ids ids) current)))
            current
          = JsSet.add id (Ledger.load (Ledger.Ids ids) current))
    /\ Ledger.load Ledger.Missing current = current
    /\ Ledger.load Ledger.Unreadable current = current.
Proof.
  intros ids current. cbn [Ledger.load].
  assert (ND : NoDup (Ledger.fromArray ids))
    by (apply (LedgerFacts.NoDup_addAll ids); constructor).
  split; [exact ND|]. split; [|split; [|split; [|split; reflexivity]]].
  - intros k. rewrite LedgerFacts.has_In.
    unfold Ledger.fromArray. fold (MoreNotions.addAll ids []).
    rewrite LedgerFacts.In_addAll. simpl. tauto.
  - apply LedgerFacts.fromArray_of_set.
  - intros id. unfold Ledger.saved, Ledger.toArray. cbn [Ledger.load].
    apply LedgerFacts.fromArray_of_set. now apply LedgerFacts.NoDup_add.
Qed.

(** ** The poller *)

Module PollFacts.
Import NewsSearch JsStringFacts MoreNotions.

Lemma sameId_eq id task : sameId id task = true <-> Task.id task = id.
Proof. unfold sameId. apply eqb_eq. Qed.

Lemma existsb_sameId id l :
  existsb (sameId id) l = true <-> In id (List.map Task.id l).
Proof.
  rewrite existsb_exists, in_map_iff. split.
  - intros [x [Hx Hs]]. exists x. split; [now apply sameId_eq | exact Hx].
  - intros [x [Hs Hx]]. exists x. split; [exact Hx | now apply sameId_eq].
Qed.

Lemma replace_ids id taskData l :
  Task.id taskData = id ->
  List.map Task.id (List.map (replaceBy id taskData) l) = List.map Task.id l.
Proof.
  intros Hid. rewrite map_map. apply map_ext. intros t. unfold replaceBy.
  destruct (sameId id t) eqn:E; [|reflexivity].
  apply sameId_eq in E. congruence.
Qed.

Lemma replace_twice id taskData l :
  Task.id taskData = id ->
  List.map (replaceBy id taskData) (List.map (replaceBy id taskData) l)
  = List.map (replaceBy id taskData) l.
Proof.
  intros Hid. rewrite map_map. apply map_ext. intros t. unfold replaceBy.
  destruct (sameId id t) eqn:E.
  - assert (H : sameId id taskData = true) by now apply sameId_eq.
    now rewrite H.
  - now rewrite E.
Qed.

Lemma replace_nothing id taskData l :
  (forall t, In t l -> sameId id t = true -> t = taskData) ->
  List.map (replaceBy id taskData) l = l.
Proof.
  intros H. rewrite <- (map_id l) at 2. apply map_ext_in. intros t Ht.
  unfold replaceBy. destruct (sameId id t) eqn:E; [|reflexivity].
  symmetry. now apply H.
Qed.

Lemma recordInHistory_exists id taskData prev :
  existsb (sameId id) prev = true ->
  recordInHistory id taskData prev = List.map (replaceBy id taskData) prev.
Proof. intros H. unfold recordInHistory. now rewrite H. Qed.

Lemma recordInHistory_new id taskData prev :
  existsb (sameId id) prev = false ->
  recordInHistory id taskData prev = sort Sync.newestFirst (taskData :: prev).
Proof. intros H. unfold recordInHistory. now rewrite H. Qed.

Lemma In_recorded id taskData prev : In taskData (recordInHistory id taskData prev).
Proof.
  destruct (existsb (sameId id) prev) eqn:E.
  - rewrite recordInHistory_exists by exact E.
    apply existsb_exists in E. destruct E as [x [Hx Hs]].
    apply in_map_iff. exists x. split; [|exact Hx].
    unfold replaceBy. now rewrite Hs.
  - rewrite recordInHistory_new by exact E.
    apply (Permutation_in _ (Permutation_sym (sort_perm Sync.newestFirst _))).
    now left.
Qed.

End PollFacts.

(** X8.  Recording a terminal poll result never duplicates a job: when the
    History had distinct ids and the result carries the polled id, the new
    History has distinct ids, holds the result, keeps every earlier id,
    grows by one entry at most, and recording the same result again changes
    nothing. *)
Theorem recording_never_duplicates :
  forall (id : TaskId) (taskData : Task.t) (prev : list Task.t),
    NoDup (List.map Task.id prev) ->
    Task.id taskData = id ->
    let next := NewsSearch.recordInHistory id taskData prev in
    NoDup (List.map Task.id next)
    /\ In taskData next
    /\ incl (List.map Task.id prev) (List.map Task.id next)
    /\ (List.length next <= S (List.length prev))%nat
    /\ NewsSearch.recordInHistory id taskData next = next.
Proof.
  intros id taskData prev ND Hid next. unfold next.
  split; [|split; [apply PollFacts.In_recorded|]].
  - destruct (existsb (NewsSearch.sameId id) prev) eqn:E.
    + rewrite PollFacts.recordInHistory_exists by exact E.
      now rewrite PollFacts.replace_ids.
    + rewrite PollFacts.recordInHistory_new by exact E.
      eapply Permutation_NoDup.
      * apply Permutation_map, Permutation_sym, sort_perm.
      * simpl. constructor; [|exact ND]. rewrite Hid.
        intros Hin. apply PollFacts.existsb_sameId in Hin. congruence.
  - destruct (existsb (NewsSearch.sameId id) prev) eqn:E.
    + rewrite PollFacts.recordInHistory_exists by exact E.
      rewrite PollFacts.replace_ids by exact Hid.
      split; [apply incl_refl|]. split; [rewrite length_map; lia|].
      rewrite PollFacts.recordInHistory_exists.
      * now apply PollFacts.replace_twice.
      * apply PollFacts.existsb_sameId.
        rewrite PollFacts.replace_ids by exact Hid.
        now apply PollFacts.existsb_sameId.
    + rewrite PollFacts.recordInHistory_new by exact E.
      pose proof (sort_perm Sync.newestFirst (taskData :: prev)) as HP.
      split; [|split].
      * intros k Hk. apply (Permutation_in _ (Permutation_map Task.id (Permutation_sym HP))).
        now right.
      * rewrite (Permutation_length HP). simpl. lia.
      * rewrite PollFacts.recordInHistory_exists.
        -- apply PollFacts.replace_nothing. intros t Ht Hs.
           apply (Permutation_in _ HP) in Ht. destruct Ht as [<-|Ht]; [reflexivity|].
           exfalso. apply PollFacts.sameId_eq in Hs.
           assert (Hin : In id (List.map Task.id prev))
             by (rewrite <- Hs; now apply in_map).
           apply PollFacts.existsb_sameId in Hin. congruence.
        -- apply PollFacts.existsb_sameId.
           apply (Permutation_in _ (Permutation_map Task.id (Permutation_sym HP))).
           left. exact Hid.
Qed.

Lemma recording_never_duplicates_witness :
  let done := Task.with_status completed Samples.lima in
  let next := NewsSearch.recordInHistory (js "c3") done [Samples.rome; Samples.bern] in
  NoDup (List.map Task.id next)
  /\ next = [done; Samples.rome; Samples.bern]
  /\ NewsSearch.recordInHistory (js "c3") done next = next.
Proof.
  cbv zeta.
  destruct (@recording_never_duplicates (js "c3")
              (Task.with_status completed Samples.lima)
              [Samples.rome; Samples.bern]) as (Hnd & _ & _ & _ & Hidem).
  - vm_compute. repeat constructor; simpl; intuition discriminate.
  - reflexivity.
  - split; [exact Hnd|]. split; [reflexivity | exact Hidem].
Defined.

(** X9.  While the polled job is pending or processing the poller goes on:
    the answer issues nothing, leaves the interval, the loading flag, the
    error, History and the length of Active as they are, and only updates
    the displayed status. *)
Theorem pending_answer_keeps_polling :
  forall (captured : option TaskId) (id : TaskId) (taskData : Task.t)
         (s : NewsSearch.State),
    isPendingOrProcessing taskData = true ->
    let answered := NewsSearch.pollTaskStatus_fulfilled captured id taskData s in
    let after := fst answered in
    snd answered = []
    /\ NewsSearch.pollingIntervalRef after = NewsSearch.pollingIntervalRef s
    /\ NewsSearch.status after = Some (Task.status taskData)
    /\ NewsSearch.isLoading after = NewsSearch.isLoading s
    /\ NewsSearch.error after = NewsSearch.error s
    /\ NewsSearch.taskId after = NewsSearch.taskId s
    /\ NewsSearch.results after = NewsSearch.results s
    /\ NewsSearch.historyTasks after = NewsSearch.historyTasks s
    /\ NewsSearch.activeTasks after
       = List.map (MoreNotions.replaceBy id taskData) (NewsSearch.activeTasks s).
Proof.
  intros captured id taskData s Hp answered after.
  unfold after, answered, NewsSearch.pollTaskStatus_fulfilled.
  unfold isPendingOrProcessing in Hp.
  destruct (Task.status taskData); try discriminate Hp;
    destruct (NewsSearch.isCurrent captured id);
    cbn; repeat split; reflexivity.
Qed.

Lemma pending_answer_keeps_polling_witness :
  let s := NewsSearch.setPollingInterval (Some (js "c3"))
             (NewsSearch.setActiveTasks [Samples.oslo] NewsSearch.initial) in
  let answered := NewsSearch.pollTaskStatus_fulfilled None (js "c3") Samples.lima s in
  snd answered = []
  /\ NewsSearch.pollingIntervalRef (fst answered) = Some (js "c3")
  /\ NewsSearch.status (fst answered) = Some processing.
Proof.
  cbv zeta.
  destruct (@pending_answer_keeps_polling None (js "c3") Samples.lima
              (NewsSearch.setPollingInterval (Some (js "c3"))
                 (NewsSearch.setActiveTasks [Samples.oslo] NewsSearch.initial))
              eq_refl) as (Hfx & Href & Hst & _).
  split; [exact Hfx|]. split; [exact Href | exact Hst].
Defined.

(** X10.  A completed or failed answer ends the polling, whichever job the
    live interval was polling: the interval is cleared and none is started,
    loading ends, the answer is recorded in History, exactly one list
    reload is requested (at once on completion, by a timer on failure), a
    failure also surfaces its message, and unless the render that started
    the poller had the polled job as its current task, no job with that id
    is left in Active. *)
Theorem terminal_answer_stops_polling :
  forall (captured : option TaskId) (id : TaskId) (taskData : Task.t)
         (s : NewsSearch.State),
    isTerminal taskData = true ->
    let answered := NewsSearch.pollTaskStatus_fulfilled captured id taskData s in
    let after := fst answered in
    NewsSearch.pollingIntervalRef after = None
    /\ snd answered
       = Component.unmount s
         ++ match Task.status taskData with
            | completed => NewsSearch.loadTasks
            | _ => [NewsSearch.SetTimeoutLoadTasks]
            end
    /\ NewsSearch.isLoading after = false
    /\ NewsSearch.status after = Some (Task.status taskData)
    /\ In taskData (NewsSearch.historyTasks after)
    /\ NewsSearch.historyTasks after
       = NewsSearch.recordInHistory id taskData (NewsSearch.historyTasks s)
    /\ (Task.status taskData = failed ->
        NewsSearch.error after = Some (NewsSearch.failureText taskData))
    /\ (Task.status taskData = completed ->
        NewsSearch.error after = NewsSearch.error s)
    /\ (NewsSearch.isCurrent captured id = false ->
        forall t, In t (NewsSearch.activeTasks after) -> Task.id t <> id).
Proof.
  intros captured id taskData s Hterm answered after.
  assert (Hrec : forall h, In taskData (NewsSearch.recordInHistory id taskData h))
    by (intros h; apply PollFacts.In_recorded).
  unfold after, answered, NewsSearch.pollTaskStatus_fulfilled, Component.unmount,
    NewsSearch.clearPolling.
  unfold isTerminal in Hterm.
  destruct s as [k tid tk st rs er il av at' ht ex hp rm [pid|]];
    destruct (Task.status taskData) eqn:Est; try discriminate Hterm;
    destruct (NewsSearch.isCurrent captured id) eqn:Ecur;
    cbn; repeat split; try reflexivity; try discriminate; try apply Hrec;
    intros _ t Ht; apply filter_In in Ht; destruct Ht as [_ Hf];
    apply negb_true_iff in Hf; intros Heq; apply PollFacts.sameId_eq in Heq;
    congruence.
Qed.

Lemma terminal_answer_stops_polling_witness :
  let done := Task.with_status completed Samples.lima in
  let s := NewsSearch.setPollingInterval (Some (js "c3"))
             (NewsSearch.setActiveTasks [Samples.lima; Samples.oslo]
                NewsSearch.initial) in
  let answered := NewsSearch.pollTaskStatus_fulfilled None (js "c3") done s in
  NewsSearch.pollingIntervalRef (fst answered) = None
  /\ snd answered = [NewsSearch.ClearInterval (js "c3"); NewsSearch.GetAllSearchTasks]
  /\ NewsSearch.activeTasks (fst answered) = [Samples.oslo]
  /\ NewsSearch.historyTasks (fst answered) = [done].
Proof.
  cbv zeta.
  destruct (@terminal_answer_stops_polling None (js "c3")
              (Task.with_status completed Samples.lima)
              (NewsSearch.setPollingInterval (Some (js "c3"))
                 (NewsSearch.setActiveTasks [Samples.lima; Samples.oslo]
                    NewsSearch.initial))
              eq_refl) as (Href & Hfx & _).
  split; [exact Href|]. split; [exact Hfx|]. split; reflexivity.
Defined.

(** ** Runs of the component *)

Module RunFacts.
Import NewsSearch Component JsStringFacts.

#[local] Arguments InputParser.parseInput : simpl never.
#[local] Arguments recordInHistory : simpl never.
#[local] Arguments Sync.merge : simpl never.
#[local] Arguments trim : simpl never.
#[local] Arguments Paginator.previousPage : simpl never.
#[local] Arguments Paginator.nextPage : simpl never.
#[local] Arguments Paginator.ceilThird : simpl never.
#[local] Arguments JsSet.add : simpl never.
#[local] Arguments Z.of_nat : simpl never.

Ltac open_state s :=
  destruct s as [k tid tk st rs er il av at' ht ex hp rm [pid|]].

Ltac unfold_handlers :=
  unfold typeKeyword, handleKeyDown, handleSearch, cancelSearch,
    handleSearch_created, startPolling, handleSearch_createFailed,
    cancelSearch_settled, pollTaskStatus_fulfilled,
    pollTaskStatus_completed_finish, pollTaskStatus_rejected,
    loadTasks_fulfilled, loadTasks_rejected, removeCurrent, removeListed,
    remove_settled, viewTask, toggleExpanded, showActive, showHistory,
    previousPageClick, nextPageClick, clearPolling, clearCurrent, inProgress,
    pollTaskStatus, loadTasks, historyLength.

Ltac branch :=
  repeat first
    [ rewrite eqb_refl
    | progress cbn
    | match goal with
      | |- context [if ?b then _ else _] => destruct b eqn:?
      | |- context [match ?x with _ => _ end] => destruct x eqn:?
      end ].

Lemma previousPage_low hp : 1 <= Paginator.previousPage hp.
Proof. unfold Paginator.previousPage. lia. Qed.

Lemma nextPage_low av len hp :
  Paginator.controlsShown av len = true -> 1 <= hp ->
  1 <= Paginator.nextPage len hp.
Proof.
  intros Hc Hhp. unfold Paginator.controlsShown in Hc.
  destruct av; [discriminate|]. apply Z.ltb_lt in Hc.
  pose proof (ceilThird_is_ceiling len). unfold Paginator.nextPage. lia.
Qed.

(** What one event does to the quantities that the invariants are about. *)
Lemma handle_frame e s :
  liveIntervals (snd (handle e s)) (polled s) = polled (fst (handle e s))
  /\ (1 <= historyPage s -> 1 <= historyPage (fst (handle e s)))
  /\ removedTaskIdsRef (fst (handle e s))
     = match e with
       | RemoveSettled id => JsSet.add id (removedTaskIdsRef s)
       | _ => removedTaskIdsRef s
       end
  /\ (forall saved,
        recordAfter (snd (handle e s)) saved
        = match e with
          | RemoveSettled id =>
            Ledger.saved (JsSet.add id (removedTaskIdsRef s))
          | _ => saved
          end).
Proof.
  destruct e; open_state s; unfold handle, lift, silent; unfold_handlers.
  all: try (branch; repeat split; intros; try reflexivity; try lia).
  all: try apply previousPage_low.
  all: match goal with
       | H : _ && _ = true |- _ =>
         apply andb_true_iff in H; destruct H as [H _];
           eapply nextPage_low; [exact H | assumption]
       end.
Qed.

Lemma pageEffect_frame s :
  polled (historyPageEffect s) = polled s
  /\ removedTaskIdsRef (historyPageEffect s) = removedTaskIdsRef s
  /\ activeView (historyPageEffect s) = activeView s
  /\ historyTasks (historyPageEffect s) = historyTasks s
  /\ (1 <= historyPage s -> 1 <= historyPage (historyPageEffect s))
  /\ (activeView s = HistoryView -> historyTasks s <> [] ->
      historyPage (historyPageEffect s)
      <= Paginator.ceilThird (historyLength s)).
Proof.
  open_state s; unfold historyPageEffect, historyLength; cbn.
  all: repeat split; try reflexivity.
  all: try (intros Hp; unfold Paginator.resetOutOfBounds, Paginator.pageCount;
            destruct av; [exact Hp|];
            destruct (0 <? _); [|exact Hp];
            destruct (hp >? _); [|exact Hp];
            destruct (_ =? 0) eqn:E; [lia | apply Z.eqb_neq in E];
            match goal with
            | |- 1 <= Paginator.ceilThird ?n =>
              pose proof (ceilThird_is_ceiling n); lia
            end).
  all: intros -> Hne; unfold Paginator.resetOutOfBounds, Paginator.pageCount;
    assert (Hlen : 0 < Z.of_nat (List.length ht))
      by (destruct ht; [congruence | simpl; lia]);
    pose proof (ceilThird_is_ceiling (Z.of_nat (List.length ht))) as Hc;
    apply Z.ltb_lt in Hlen; rewrite Hlen; apply Z.ltb_lt in Hlen;
    destruct (hp >? _) eqn:E;
    [ destruct (_ =? 0) eqn:E0; [apply Z.eqb_eq in E0; lia | lia]
    | rewrite Z.gtb_ltb in E; apply Z.ltb_ge in E; exact E ].
Qed.

Lemma liveIntervals_app a b running :
  liveIntervals (a ++ b) running = liveIntervals b (liveIntervals a running).
Proof.
  revert running; induction a as [|o a IH]; intros running; [reflexivity|].
  destruct o as [[]|]; simpl; apply IH.
Qed.

Lemma recordAfter_app a b saved :
  recordAfter (a ++ b) saved = recordAfter b (recordAfter a saved).
Proof.
  revert saved; induction a as [|o a IH]; intros saved; [reflexivity|].
  destruct o; simpl; apply IH.
Qed.

Lemma run_tracks events s :
  liveIntervals (snd (run events s)) (polled s) = polled (fst (run events s)).
Proof.
  revert s; induction events as [|e events IH]; intros s; [reflexivity|].
  cbn [run fst snd]. rewrite liveIntervals_app. unfold advance at 2. cbn [snd].
  destruct (handle_frame e s) as [Ht _]. rewrite Ht.
  destruct (pageEffect_frame (fst (handle e s))) as [Hp _].
  rewrite <- Hp. apply IH.
Qed.

Lemma run_page events s :
  1 <= historyPage s -> 1 <= historyPage (fst (run events s)).
Proof.
  revert s; induction events as [|e events IH]; intros s Hs; [exact Hs|].
  cbn [run fst snd]. apply IH. unfold advance. cbn [fst].
  destruct (pageEffect_frame (fst (handle e s))) as (_ & _ & _ & _ & Hlow & _).
  apply Hlow. destruct (handle_frame e s) as (_ & H & _). now apply H.
Qed.

Lemma run_page_high events s :
  events <> [] ->
  activeView (fst (run events s)) = HistoryView ->
  historyTasks (fst (run events s)) <> [] ->
  historyPage (fst (run events s))
  <= Paginator.ceilThird (historyLength (fst (run events s))).
Proof.
  revert s; induction events as [|e events IH]; intros s Hne; [congruence|].
  cbn [run fst snd]. destruct events as [|e' events'].
  - cbn [run fst]. unfold advance. cbn [fst].
    destruct (pageEffect_frame (fst (handle e s))) as (_ & _ & Hv & Hh & _ & Hhigh).
    rewrite Hv. unfold historyLength. rewrite Hh. exact Hhigh.
  - apply IH. discriminate.
Qed.

Lemma run_ledger events s saved :
  NoDup (removedTaskIdsRef s) ->
  Ledger.load saved [] = removedTaskIdsRef s ->
  NoDup (removedTaskIdsRef (fst (run events s)))
  /\ (forall k, In k (removedTaskIdsRef s) ->
                In k (removedTaskIdsRef (fst (run events s))))
  /\ Ledger.load (recordAfter (snd (run events s)) saved) []
     = removedTaskIdsRef (fst (run events s)).
Proof.
  revert s saved; induction events as [|e events IH]; intros s saved ND Hrec.
  - cbn. auto.
  - cbn [run fst snd]. rewrite recordAfter_app.
    destruct (handle_frame e s) as (_ & _ & Hrm & Hsv).
    destruct (pageEffect_frame (fst (handle e s))) as (_ & Hrm' & _).
    assert (Hstep : removedTaskIdsRef (fst (advance e s))
                    = removedTaskIdsRef (fst (handle e s)))
      by (unfold advance; cbn [fst]; exact Hrm').
    assert (Hall : NoDup (removedTaskIdsRef (fst (advance e s)))
                   /\ (forall k, In k (removedTaskIdsRef s) ->
                                 In k (removedTaskIdsRef (fst (advance e s))))
                   /\ Ledger.load (recordAfter (snd (advance e s)) saved) []
                      = removedTaskIdsRef (fst (advance e s))).
    { rewrite Hstep, Hrm. unfold advance. cbn [snd]. rewrite Hsv.
      destruct e; auto.
      split; [now apply LedgerFacts.NoDup_add|]. split.
      - intros k Hk. apply LedgerFacts.In_add. now right.
      - unfold Ledger.saved, Ledger.toArray. cbn [Ledger.load].
        apply LedgerFacts.fromArray_of_set. now apply LedgerFacts.NoDup_add. }
    destruct Hall as (ND1 & Hin1 & Hrec1).
    destruct (IH (fst (advance e s)) (recordAfter (snd (advance e s)) saved)
                 ND1 Hrec1) as (ND2 & Hin2 & Hrec2).
    split; [exact ND2|]. split; [|exact Hrec2].
    intros k Hk. apply Hin2, Hin1, Hk.
Qed.

End RunFacts.

(** X11.  At most one poller is alive: after any sequence of user actions
    and settled requests on a mounted component, the intervals that have
    been started and not cleared are exactly the one that
    [pollingIntervalRef] holds, if any; and unmounting clears it. *)
Theorem one_live_poller :
  forall (saved : Ledger.Stored) (events : list Component.Event),
    let r := Component.run events (Component.mount saved) in
    Component.liveIntervals (snd r) [] = Component.polled (fst r)
    /\ (List.length (Component.liveIntervals (snd r) []) <= 1)%nat
    /\ Component.liveIntervals
         (snd r ++ List.map Component.Fx (Component.unmount (fst r))) [] = [].
Proof.
  intros saved events r.
  assert (H : Component.liveIntervals (snd r) [] = Component.polled (fst r))
    by (unfold r; apply (RunFacts.run_tracks events (Component.mount saved))).
  split; [exact H|]. split.
  - rewrite H. unfold Component.polled.
    destruct (NewsSearch.pollingIntervalRef (fst r)); simpl; lia.
  - rewrite RunFacts.liveIntervals_app, H.
    unfold Component.polled, Component.unmount.
    destruct (NewsSearch.pollingIntervalRef (fst r)); [|reflexivity].
    cbn. now rewrite JsStringFacts.eqb_refl.
Qed.

(** X12.  During a session the ledger only grows and stays free of
    duplicates, and the persisted record keeps up with it: after any
    sequence of events, every id that was in the ledger at mount is still
    in it, and mounting again from the record as last written (or as found,
    when nothing was written) gives exactly the current ledger. *)
Theorem ledger_is_kept :
  forall (saved : Ledger.Stored) (events : list Component.Event),
    let r := Component.run events (Component.mount saved) in
    let ledger := NewsSearch.removedTaskIdsRef (fst r) in
    NoDup ledger
    /\ (forall k, JsSet.has (NewsSearch.removedTaskIdsRef (Component.mount saved)) k
                  = true -> JsSet.has ledger k = true)
    /\ NewsSearch.removedTaskIdsRef
         (Component.mount (Component.recordAfter (snd r) saved))
       = ledger.
Proof.
  intros saved events r ledger.
  assert (ND : NoDup (NewsSearch.removedTaskIdsRef (Component.mount saved))).
  { destruct saved; cbn; try constructor.
    apply (LedgerFacts.NoDup_addAll ids). constructor. }
  destruct (@RunFacts.run_ledger events (Component.mount saved) saved ND eq_refl)
    as (H1 & H2 & H3).
  split; [exact H1|]. split.
  - intros k Hk. apply LedgerFacts.has_In. apply LedgerFacts.has_In in Hk.
    now apply H2.
  - exact H3.
Qed.

(** X13.  The history view never shows an empty or out-of-range page of a
    non-empty History: after any sequence of events the current page is at
    least 1, and whenever the history view is selected and History is not
    empty the page is at most the page count and its slice of History is
    not empty. *)
Theorem shown_page_is_in_range :
  forall (saved : Ledger.Stored) (events : list Component.Event),
    let s := fst (Component.run events (Component.mount saved)) in
    1 <= NewsSearch.historyPage s
    /\ (NewsSearch.activeView s = HistoryView ->
        NewsSearch.historyTasks s <> [] ->
        NewsSearch.historyPage s
        <= Paginator.pageCount (Component.historyLength s)
        /\ Component.shownHistory s <> []).
Proof.
  intros saved events s.
  assert (Hlow : 1 <= NewsSearch.historyPage s).
  { unfold s. apply RunFacts.run_page. cbn. lia. }
  split; [exact Hlow|]. intros Hv Hne.
  assert (Hhigh : NewsSearch.historyPage s
                  <= Paginator.ceilThird (Component.historyLength s)).
  { destruct events as [|e events].
    - discriminate Hv.
    - unfold s. apply RunFacts.run_page_high; [discriminate | exact Hv | exact Hne]. }
  assert (Hlen : 0 <= Component.historyLength s)
    by (unfold Component.historyLength; lia).
  split.
  - rewrite (pageCount_max Hlen). lia.
  - unfold Component.shownHistory, Paginator.pageSlice.
    pose proof (ceilThird_is_ceiling (Component.historyLength s)) as Hc.
    unfold Component.historyLength in *.
    set (l := NewsSearch.historyTasks s) in *.
    set (p := NewsSearch.historyPage s) in *.
    assert (Hk : (Z.to_nat ((p - 1) * 3) < List.length l)%nat) by lia.
    destruct (skipn (Z.to_nat ((p - 1) * 3)) l) eqn:E.
    + exfalso. pose proof (length_skipn (Z.to_nat ((p - 1) * 3)) l) as Hs.
      rewrite E in Hs. simpl in Hs. lia.
    + simpl. discriminate.
Qed.

(** ** Pages of the history *)

Module PageFacts.
Import MoreNotions.

Lemma pageSlice_at (l : list Task.t) (k : nat) :
  Paginator.pageSlice l (1 + Z.of_nat k) = firstn 3 (skipn (3 * k) l).
Proof.
  unfold Paginator.pageSlice. f_equal. f_equal. lia.
Qed.

Lemma pages_cover (l : list Task.t) (n k : nat) :
  (List.length l <= 3 * (k + n))%nat ->
  List.concat (List.map (Paginator.pageSlice l) (pagesFrom (1 + Z.of_nat k) n))
  = skipn (3 * k) l.
Proof.
  revert k; induction n as [|n IH]; intros k Hlen.
  - simpl. symmetry. apply skipn_all2. lia.
  - cbn [pagesFrom List.map List.concat]. rewrite pageSlice_at.
    replace (1 + Z.of_nat k + 1) with (1 + Z.of_nat (S k)) by lia.
    rewrite IH by lia.
    replace (3 * S k)%nat with (3 + 3 * k)%nat by lia.
    rewrite <- skipn_skipn. apply firstn_skipn.
Qed.

End PageFacts.

(** X14.  The pages partition History: the slices of pages 1 to
    ceil(N/3), in order, put together are the whole History, every slice
    holds at most three entries, and a page beyond the last has none. *)
Theorem pages_partition_history :
  forall (historyTasks : list Task.t),
    let N := Z.of_nat (List.length historyTasks) in
    List.concat (List.map (Paginator.pageSlice historyTasks)
              (MoreNotions.pagesFrom 1 (Z.to_nat (Paginator.ceilThird N))))
    = historyTasks
    /\ (forall page, (List.length (Paginator.pageSlice historyTasks page) <= 3)%nat)
    /\ (forall page, Paginator.ceilThird N < page ->
                     Paginator.pageSlice historyTasks page = []).
Proof.
  intros l N. pose proof (ceilThird_is_ceiling N) as Hc. split; [|split].
  - change 1 with (1 + Z.of_nat 0). rewrite PageFacts.pages_cover.
    + reflexivity.
    + unfold N in *. lia.
  - intros page. unfold Paginator.pageSlice. rewrite length_firstn. lia.
  - intros page Hp. unfold Paginator.pageSlice.
    rewrite skipn_all2; [reflexivity|]. unfold N in *. lia.
Qed.

(** ** Submission and cancellation *)

(** X15.  Submitting while a search is in progress never creates a task.
    Without a current task id nothing happens at all; with one, the poller
    is stopped and exactly one request is issued, the patch of that task to
    failed; and once that patch has settled, whether it succeeded or not,
    the form is idle again with status failed and a list reload is
    requested. *)
Theorem busy_submit_never_creates :
  forall (s : NewsSearch.State),
    NewsSearch.inProgress s = true ->
    let submitted := NewsSearch.handleSearch s in
    let settled := NewsSearch.cancelSearch_settled (fst submitted) in
    existsb Component.createsTask (List.map Component.Fx (snd submitted)) = false
    /\ (NewsSearch.taskId s = None -> submitted = (s, []))
    /\ (forall id, NewsSearch.taskId s = Some id ->
          snd submitted
          = Component.unmount s ++ [NewsSearch.UpdateTaskStatus id failed]
          /\ NewsSearch.pollingIntervalRef (fst submitted) = None
          /\ NewsSearch.status (fst submitted) = NewsSearch.status s
          /\ NewsSearch.keyword (fst submitted) = NewsSearch.keyword s)
    /\ NewsSearch.inProgress (fst settled) = false
    /\ NewsSearch.status (fst settled) = Some failed
    /\ NewsSearch.taskId (fst settled) = None
    /\ NewsSearch.results (fst settled) = []
    /\ snd settled = [NewsSearch.GetAllSearchTasks].
Proof.
  intros s Hbusy submitted settled.
  unfold settled, submitted, NewsSearch.handleSearch. rewrite Hbusy.
  unfold NewsSearch.cancelSearch, NewsSearch.clearPolling, Component.unmount.
  destruct s as [k [tid|] tk st rs er il av at' ht ex hp rm [pid|]];
    cbn; repeat split; intros; try reflexivity; try discriminate;
    match goal with
    | H : Some _ = Some _ |- _ => injection H; intros <-; reflexivity
    end.
Qed.

Lemma busy_submit_never_creates_witness :
  let s := NewsSearch.setPollingInterval (Some (js "c3"))
             (NewsSearch.setTaskId (Some (js "c3"))
                (NewsSearch.setIsLoading true NewsSearch.initial)) in
  snd (NewsSearch.handleSearch s)
    = [NewsSearch.ClearInterval (js "c3");
       NewsSearch.UpdateTaskStatus (js "c3") failed]
  /\ NewsSearch.handleSearch (NewsSearch.setIsLoading true NewsSearch.initial)
     = (NewsSearch.setIsLoading true NewsSearch.initial, []).
Proof.
  cbv zeta. split.
  - destruct (@busy_submit_never_creates
                (NewsSearch.setPollingInterval (Some (js "c3"))
                   (NewsSearch.setTaskId (Some (js "c3"))
                      (NewsSearch.setIsLoading true NewsSearch.initial)))
                eq_refl) as (_ & _ & H & _).
    destruct (H (js "c3") eq_refl) as [Hfx _]. exact Hfx.
  - destruct (@busy_submit_never_creates
                (NewsSearch.setIsLoading true NewsSearch.initial) eq_refl)
      as (_ & H & _).
    exact (H eq_refl).
Defined.

(** X16.  From submission to completion: a valid submission issues one
    create with the parsed keyword and count; when the task is created it
    becomes the current task, joins Active and gets a poller that asks for
    its status at once; when an answer with status completed arrives, the
    poller is stopped, the answer is recorded in History and a list reload
    is requested and awaited.  Whether that reload succeeds or fails, at
    the end the card shows the completed task with the results of the
    answer in the active view, with no error, no loading flag and no
    poller.  After a failed reload History still holds the answer; after a
    successful one Active and History are those of that pass, over the
    History its closure read: History holds the id of every completed or
    failed job that was fetched and of every completed or failed entry that
    was read. *)
Theorem submission_runs_to_completion :
  forall (s : NewsSearch.State) (searchKeyword : jsstring) (articleCount : Z)
         (created answer : Task.t) (captured : option TaskId)
         (read : list Task.t) (tasks : Sync.ListResponse) (now : Z),
    NewsSearch.inProgress s = false ->
    InputParser.parseInput (NewsSearch.keyword s)
      = InputParser.Parsed searchKeyword articleCount ->
    Task.status answer = completed ->
    let id := Task.id created in
    let r1 := NewsSearch.handleSearch s in
    let r2 := NewsSearch.handleSearch_created created (fst r1) in
    let r3 := NewsSearch.pollTaskStatus_fulfilled captured id answer (fst r2) in
    let reloaded := NewsSearch.loadTasks_fulfilled read tasks now (fst r3) in
    let unloaded := NewsSearch.loadTasks_rejected (fst r3) in
    let final := NewsSearch.pollTaskStatus_completed_finish answer (fst reloaded) in
    let final' := NewsSearch.pollTaskStatus_completed_finish answer (fst unloaded) in
    snd r1 = Component.unmount s
             ++ [NewsSearch.CreateSearchTask searchKeyword articleCount]
    /\ snd r2 = [NewsSearch.GetSearchTask id; NewsSearch.SetInterval id]
    /\ NewsSearch.pollingIntervalRef (fst r2) = Some id
    /\ NewsSearch.taskId (fst r2) = Some id
    /\ NewsSearch.isLoading (fst r2) = true
    /\ NewsSearch.activeTasks (fst r2) = NewsSearch.activeTasks s ++ [created]
    /\ NewsSearch.historyTasks (fst r2) = NewsSearch.historyTasks s
    /\ snd r3 = [NewsSearch.ClearInterval id; NewsSearch.GetAllSearchTasks]
    /\ In answer (NewsSearch.historyTasks (fst r3))
    /\ snd reloaded = [] /\ snd unloaded = [] /\ snd final = [] /\ snd final' = []
    /\ (forall f, f = fst final \/ f = fst final' ->
          NewsSearch.pollingIntervalRef f = None
          /\ NewsSearch.taskId f = Some id
          /\ NewsSearch.status f = Some completed
          /\ NewsSearch.results f = Task.results answer
          /\ NewsSearch.activeView f = ActiveView
          /\ NewsSearch.isLoading f = false
          /\ NewsSearch.error f = None)
    /\ In answer (NewsSearch.historyTasks (fst final'))
    /\ NewsSearch.historyTasks (fst final)
       = Sync.history read (Sync.tasksArray_of tasks)
           (NewsSearch.removedTaskIdsRef s) now
    /\ NewsSearch.activeTasks (fst final)
       = Sync.active (Sync.tasksArray_of tasks) (NewsSearch.removedTaskIdsRef s) now
    /\ (forall j, In j (Sync.tasksArray_of tasks) -> isTerminal j = true ->
          In (Task.id j) (List.map Task.id (NewsSearch.historyTasks (fst final))))
    /\ (forall h, In h read -> isTerminal h = true ->
          In (Task.id h) (List.map Task.id (NewsSearch.historyTasks (fst final)))).
Proof.
  intros s kw n created answer captured read tasks now Hidle Hparse Hdone
    id r1 r2 r3 reloaded unloaded final final'.
  assert (Hrec : forall h, In answer (NewsSearch.recordInHistory id answer h))
    by (intros h; apply PollFacts.In_recorded).
  assert (Hfetched : forall removed j,
            In j (Sync.tasksArray_of tasks) -> isTerminal j = true ->
            In (Task.id j)
               (List.map Task.id
                  (Sync.history read (Sync.tasksArray_of tasks) removed now))).
  { intros removed j Hj Hterm. apply SyncFacts.history_ids.
    rewrite SyncFacts.historyMap_writes. apply SyncFacts.keys_fold_incl. right.
    apply in_map. unfold Notions.writes. apply in_or_app. right.
    apply in_or_app. left. apply filter_In. split; assumption. }
  assert (Hread : forall removed h,
            In h read -> isTerminal h = true ->
            In (Task.id h)
               (List.map Task.id
                  (Sync.history read (Sync.tasksArray_of tasks) removed now))).
  { intros removed h Hh Hterm. apply SyncFacts.history_ids.
    rewrite SyncFacts.historyMap_writes. apply SyncFacts.keys_fold_incl. right.
    apply in_map. unfold Notions.writes. apply in_or_app. left.
    apply filter_In. split; assumption. }
  unfold final, final', reloaded, unloaded, r3, r2, r1, NewsSearch.handleSearch.
  rewrite Hidle, Hparse.
  unfold NewsSearch.pollTaskStatus_fulfilled, NewsSearch.handleSearch_created,
    NewsSearch.startPolling, NewsSearch.clearPolling, Component.unmount,
    NewsSearch.loadTasks_rejected, NewsSearch.loadTasks_fulfilled,
    NewsSearch.pollTaskStatus_completed_finish, Sync.merge.
  destruct s as [k tid tk st rs er il av at' ht ex hp rm [pid|]];
    cbn; rewrite Hdone; destruct (NewsSearch.isCurrent captured id);
    cbn; repeat match goal with |- _ /\ _ => split end;
    try reflexivity; try apply Hrec;
    try exact (Hfetched _); try exact (Hread _);
    intros f [-> | ->]; cbn; repeat split; reflexivity.
Qed.

Lemma submission_runs_to_completion_witness :
  let s := NewsSearch.mkState (js "Lima, 2") None None None [] None false
             ActiveView [] [Samples.rome] None 1 [] None in
  let answer := Task.with_status completed Samples.lima in
  let answered :=
    fst (NewsSearch.pollTaskStatus_fulfilled None (js "c3") answer
           (fst (NewsSearch.handleSearch_created Samples.lima
                   (fst (NewsSearch.handleSearch s))))) in
  let final :=
    fst (NewsSearch.pollTaskStatus_completed_finish answer
           (fst (NewsSearch.loadTasks_fulfilled (NewsSearch.historyTasks s)
                   (Sync.BareArray [Samples.rome; answer]) 600000 answered))) in
  let lagging :=
    fst (NewsSearch.pollTaskStatus_completed_finish answer
           (fst (NewsSearch.loadTasks_fulfilled (NewsSearch.historyTasks s)
                   (Sync.BareArray [Samples.rome; Samples.lima]) 600000
                   answered))) in
  snd (NewsSearch.handleSearch s) = [NewsSearch.CreateSearchTask (js "Lima") 2]
  /\ NewsSearch.historyTasks answered = [answer; Samples.rome]
  /\ NewsSearch.status final = Some completed
  /\ NewsSearch.historyTasks final = [answer; Samples.rome]
  /\ NewsSearch.historyTasks lagging = [Samples.rome].
Proof.
  cbv zeta.
  destruct (@submission_runs_to_completion
              (NewsSearch.mkState (js "Lima, 2") None None None [] None false
                 ActiveView [] [Samples.rome] None 1 [] None)
              (js "Lima") 2 Samples.lima
              (Task.with_status completed Samples.lima) None
              [Samples.rome]
              (Sync.BareArray [Samples.rome; Task.with_status completed Samples.lima])
              600000 eq_refl eq_refl eq_refl)
    as (H1 & _ & _ & _ & _ & _ & _ & _ & _ & _ & _ & _ & _ & Hfin & _).
  split; [exact H1|]. split; [reflexivity|].
  split; [exact (proj1 (proj2 (proj2 (Hfin _ (or_introl eq_refl)))))|].
  split; reflexivity.
Defined.

(** ** Dismissing a task *)

Module RemoveFacts.
Import NewsSearch Component.

Lemma ledger_hides ledger id l now t :
  In id ledger -> In t (Sync.active l ledger now) -> Task.id t <> id.
Proof.
  intros Hin Ht Heq. unfold Sync.active in Ht. apply filter_In in Ht.
  destruct Ht as [_ Hf]. unfold Sync.activeFilter in Hf.
  rewrite Heq in Hf. apply LedgerFacts.has_In in Hin. rewrite Hin in Hf.
  discriminate.
Qed.

Lemma removed_not_active id captured tasks now s t :
  In t (activeTasks (fst (loadTasks_fulfilled captured tasks now
                            (fst (remove_settled id s))))) ->
  Task.id t <> id.
Proof.
  rewrite loadTasks_fulfilled_active. intros Ht.
  eapply ledger_hides; [|exact Ht].
  destruct s; cbn. apply LedgerFacts.In_add. now left.
Qed.

Lemma listed_not_current s task :
  In task (otherActiveTasks s) -> isCurrent (taskId s) (Task.id task) = false.
Proof.
  unfold otherActiveTasks. intros H. apply filter_In in H.
  destruct H as [_ H]. now apply negb_true_iff in H.
Qed.

End RemoveFacts.

(** X17.  Removing a task from the list under the current card never
    disturbs the current task: the click issues only the patch of that task
    to failed and changes nothing in the component, the poller included.
    When the patch has settled, the id is in the ledger, the ledger is
    written to the persisted record and a list reload is requested; and no
    later pass with this ledger shows the task in Active. *)
Theorem listed_removal_spares_current :
  forall (s : NewsSearch.State) (task : Task.t) (captured : list Task.t)
         (tasks : Sync.ListResponse) (now : Z),
    In task (Component.otherActiveTasks s) ->
    let clicked := Component.removeListed task s in
    let settled := Component.remove_settled (Task.id task) (fst clicked) in
    let pass := NewsSearch.loadTasks_fulfilled captured tasks now (fst settled) in
    clicked = (s, [NewsSearch.UpdateTaskStatus (Task.id task) failed])
    /\ snd settled
       = [Component.SetItemRemoved
            (JsSet.add (Task.id task) (NewsSearch.removedTaskIdsRef s));
          Component.Fx NewsSearch.GetAllSearchTasks]
    /\ JsSet.has (NewsSearch.removedTaskIdsRef (fst settled)) (Task.id task) = true
    /\ NewsSearch.taskId (fst pass) = NewsSearch.taskId s
    /\ NewsSearch.status (fst pass) = NewsSearch.status s
    /\ NewsSearch.results (fst pass) = NewsSearch.results s
    /\ NewsSearch.pollingIntervalRef (fst pass) = NewsSearch.pollingIntervalRef s
    /\ (forall t, In t (NewsSearch.activeTasks (fst pass)) ->
                  Task.id t <> Task.id task).
Proof.
  intros s task captured tasks now Hin clicked settled pass.
  assert (Hc : clicked = (s, [NewsSearch.UpdateTaskStatus (Task.id task) failed])).
  { unfold clicked, Component.removeListed.
    now rewrite (RemoveFacts.listed_not_current s task Hin). }
  split; [exact Hc|].
  unfold pass, settled. rewrite Hc. cbn [fst].
  split; [reflexivity|]. split.
  - apply LedgerFacts.has_In. destruct s; cbn. apply LedgerFacts.In_add. now left.
  - split; [destruct s; reflexivity|]. split; [destruct s; reflexivity|].
    split; [destruct s; reflexivity|]. split; [destruct s; reflexivity|].
    intros t. apply RemoveFacts.removed_not_active.
Qed.

Lemma listed_removal_spares_current_witness :
  let s := NewsSearch.setPollingInterval (Some (js "c3"))
             (NewsSearch.setTaskId (Some (js "c3"))
                (NewsSearch.setActiveTasks [Samples.lima; Samples.oslo]
                   NewsSearch.initial)) in
  In Samples.oslo (Component.otherActiveTasks s)
  /\ Component.removeListed Samples.oslo s
     = (s, [NewsSearch.UpdateTaskStatus (js "b2") failed]).
Proof.
  cbv zeta.
  assert (Hin : In Samples.oslo
                  (Component.otherActiveTasks
                     (NewsSearch.setPollingInterval (Some (js "c3"))
                        (NewsSearch.setTaskId (Some (js "c3"))
                           (NewsSearch.setActiveTasks [Samples.lima; Samples.oslo]
                              NewsSearch.initial)))))
    by (left; reflexivity).
  split; [exact Hin|].
  destruct (@listed_removal_spares_current _ Samples.oslo [] (Sync.BareArray []) 0 Hin)
    as [H _].
  exact H.
Defined.

(** X18.  Dismissing the current task from its card: the click stops the
    poller, clears the card (task id, status, results, keyword) and issues
    the patch of that task to failed; once the patch has settled the id is
    in the ledger, and a later pass shows no job with that id in Active
    while the card stays cleared. *)
Theorem dismissing_current_task :
  forall (s : NewsSearch.State) (id : TaskId) (captured : list Task.t)
         (tasks : Sync.ListResponse) (now : Z),
    NewsSearch.taskId s = Some id ->
    let clicked := Component.removeCurrent s in
    let settled := Component.remove_settled id (fst clicked) in
    let pass := NewsSearch.loadTasks_fulfilled captured tasks now (fst settled) in
    snd clicked = Component.unmount s ++ [NewsSearch.UpdateTaskStatus id failed]
    /\ NewsSearch.pollingIntervalRef (fst clicked) = None
    /\ NewsSearch.taskId (fst pass) = None
    /\ NewsSearch.status (fst pass) = None
    /\ NewsSearch.results (fst pass) = []
    /\ NewsSearch.pollingIntervalRef (fst pass) = None
    /\ JsSet.has (NewsSearch.removedTaskIdsRef (fst pass)) id = true
    /\ (forall k, JsSet.has (NewsSearch.removedTaskIdsRef s) k = true ->
                  JsSet.has (NewsSearch.removedTaskIdsRef (fst pass)) k = true)
    /\ (forall t, In t (NewsSearch.activeTasks (fst pass)) -> Task.id t <> id).
Proof.
  intros s id captured tasks now Hid clicked settled pass.
  assert (Hact : forall t, In t (NewsSearch.activeTasks (fst pass)) -> Task.id t <> id)
    by (intros t; apply RemoveFacts.removed_not_active).
  unfold pass, settled, clicked, Component.removeCurrent in *. rewrite Hid in *.
  unfold NewsSearch.clearPolling, Component.unmount in *.
  destruct s as [k tid tk st rs er il av at' ht ex hp rm [pid|]];
    cbn in *; repeat split; try reflexivity; try exact Hact;
    try (apply LedgerFacts.has_In, LedgerFacts.In_add; now left);
    intros; apply LedgerFacts.has_In, LedgerFacts.In_add; right;
    now apply LedgerFacts.has_In.
Qed.

Lemma dismissing_current_task_witness :
  let s := NewsSearch.setPollingInterval (Some (js "c3"))
             (NewsSearch.setTaskId (Some (js "c3"))
                (NewsSearch.setActiveTasks [Samples.lima] NewsSearch.initial)) in
  let pass :=
    NewsSearch.loadTasks_fulfilled [] (Sync.BareArray [Samples.lima]) 600000
      (fst (Component.remove_settled (js "c3") (fst (Component.removeCurrent s)))) in
  snd (Component.removeCurrent s)
    = [NewsSearch.ClearInterval (js "c3");
       NewsSearch.UpdateTaskStatus (js "c3") failed]
  /\ NewsSearch.activeTasks (fst pass) = [].
Proof.
  cbv zeta.
  destruct (@dismissing_current_task
              (NewsSearch.setPollingInterval (Some (js "c3"))
                 (NewsSearch.setTaskId (Some (js "c3"))
                    (NewsSearch.setActiveTasks [Samples.lima] NewsSearch.initial)))
              (js "c3") [] (Sync.BareArray [Samples.lima]) 600000 eq_refl)
    as [H _].
  split; [exact H | reflexivity].
Defined.

(** ** Absolute URLs without a media segment *)


(** X19.  An absolute URL that has no media segment resolves to its file
    name alone: the URL splits at its last separator into a directory part
    and a name without separators, and the result is the base location, the
    media prefix and that name.  The directory part, host included, is
    dropped, and an absolute URL always has such a separator. *)
Theorem url_without_media_keeps_file_name :
  forall (base p : jsstring),
    Notions.isAbsoluteUrl p = true ->
    indexOf Api.mediaSegment p = None ->
    exists dir name,
      p = dir ++ js "/" ++ name
      /\ MoreNotions.noSlash name = true
      /\ lastIndexOf (js "/") p = Some (List.length dir)
      /\ Api.getPdfUrl base (Some p) = base ++ Api.mediaSegment ++ name.
Proof.
  intros base p Hurl Hidx.
  destruct (UrlFacts.last_slash p) as [Hn | (dir & name & Hp & Hn)].
  - rewrite (UrlFacts.absolute_has_slash p Hurl) in Hn. discriminate.
  - exists dir, name. rewrite UrlFacts.js_slash.
    assert (Hlast : lastIndexOf [47%N] p = Some (List.length dir))
      by (rewrite Hp; now apply UrlFacts.lastIndexOf_slash).
    split; [exact Hp|]. split; [exact Hn|]. split; [exact Hlast|].
    rewrite ApiFacts.getPdfUrl_steps
      by (intros ->; destruct dir; discriminate Hp).
    assert (Hrel : Notions.relativePart p = name).
    { unfold Notions.relativePart. rewrite Hurl, Hidx, UrlFacts.js_slash, Hlast.
      unfold substring. rewrite Hp. apply UrlFacts.skipn_past_one. }
    rewrite Hrel. f_equal. f_equal.
    apply ApiFacts.canonical_kept.
    + rewrite UrlFacts.js_slash. now apply UrlFacts.noSlash_no_leading_slash.
    + now apply UrlFacts.noSlash_no_media_prefix.
Qed.

Lemma url_without_media_keeps_file_name_witness :
  exists dir name,
    js "https://files.example/docs/2024/a.pdf" = dir ++ js "/" ++ name
    /\ MoreNotions.noSlash name = true
    /\ lastIndexOf (js "/") (js "https://files.example/docs/2024/a.pdf")
       = Some (List.length dir)
    /\ Api.getPdfUrl (js "http://localhost:8000")
         (Some (js "https://files.example/docs/2024/a.pdf"))
       = js "http://localhost:8000" ++ Api.mediaSegment ++ name.
Proof.
  exact (@url_without_media_keeps_file_name (js "http://localhost:8000")
           (js "https://files.example/docs/2024/a.pdf") eq_refl eq_refl).
Defined.

(** ** The outcomes of the parser *)


(** X20.  Whatever the input, a parsed keyword is never empty, carries no
    white space at either end and holds no comma. *)
Theorem parsed_keyword_is_clean :
  forall (raw searchKeyword : jsstring) (articleCount : Z),
    InputParser.parseInput raw = InputParser.Parsed searchKeyword articleCount ->
    searchKeyword <> []
    /\ trim searchKeyword = searchKeyword
    /\ Notions.noComma searchKeyword = true.
Proof.
  intros raw kw n H.
  destruct (CaseFacts.parse_cases raw)
    as [[_ H1] | [(pre & rest & _ & _ & H1) | (kw' & n' & H1 & Hrest)]];
    rewrite H in H1; try discriminate.
  injection H1; intros _ <-. exact Hrest.
Qed.

Lemma parsed_keyword_is_clean_witness :
  InputParser.parseInput (js "  red  panda  7 ") = InputParser.Parsed (js "red panda") 7
  /\ trim (js "red panda") = js "red panda"
  /\ Notions.noComma (js "red panda") = true.
Proof.
  assert (H : InputParser.parseInput (js "  red  panda  7 ")
              = InputParser.Parsed (js "red panda") 7) by (vm_compute; reflexivity).
  split; [exact H|].
  exact (proj2 (@parsed_keyword_is_clean (js "  red  panda  7 ") (js "red panda") 7 H)).
Defined.

(** X21.  The parser rejects an input in two cases only, each with its own
    message: the input is blank, or the text before its first comma is
    blank.  Every other input is parsed. *)
Theorem rejection_has_two_causes :
  forall (raw message : jsstring),
    InputParser.parseInput raw = InputParser.ValidationError message
    <-> (InputParser.allWhiteSpace raw = true
         /\ message = js "Please enter a keyword")
        \/ (exists pre rest,
              raw = pre ++ js "," ++ rest
              /\ InputParser.allWhiteSpace pre = true
              /\ message = js "Please enter a valid keyword").
Proof.
  intros raw m. split.
  - intros H.
    destruct (CaseFacts.parse_cases raw)
      as [[Hb H1] | [(pre & rest & Hraw & Hpre & H1) | (kw' & n' & H1 & _)]];
      rewrite H in H1; try discriminate.
    + left. split; [exact Hb|]. now injection H1.
    + right. exists pre, rest. split; [exact Hraw|]. split; [exact Hpre|].
      unfold Notions.emptyKeyword in H1. now injection H1.
  - intros [[Hb ->] | (pre & rest & -> & Hpre & ->)].
    + now apply ParserFacts.parseInput_blank.
    + change (pre ++ js "," ++ rest) with (pre ++ 44%N :: rest).
      rewrite (@ParserFacts.parseInput_comma (pre ++ 44%N :: rest) [] (trimEnd rest)).
      * reflexivity.
      * rewrite TextFacts.trim_around_comma. unfold trimStart.
        now rewrite (TextFacts.dropWhile_all isWhiteSpace pre Hpre).
      * reflexivity.
Qed.

(** X22.  A second comma voids the count: when the text after the first
    comma holds another comma, the keyword is still the trimmed text before
    the first comma and the count is the default 3, whatever numerals the
    clauses hold. *)
Theorem second_comma_voids_count :
  forall (kw clause : jsstring),
    Notions.noComma kw = true ->
    trim kw <> [] ->
    MoreNotions.hasComma clause = true ->
    InputParser.parseInput (kw ++ js "," ++ clause)
    = InputParser.Parsed (trim kw) 3.
Proof.
  intros kw clause Hkw Hne Hcl.
  apply CaseFacts.hasComma_In, CaseFacts.In_trimEnd in Hcl.
  change (kw ++ js "," ++ clause) with (kw ++ 44%N :: clause).
  rewrite (@ParserFacts.parseInput_comma (kw ++ 44%N :: clause)
             (trimStart kw) (trimEnd clause)
             (@TextFacts.trim_around_comma kw clause)
             (@TextFacts.forallb_trimStart _ kw Hkw)).
  rewrite TextFacts.trim_trimStart.
  destruct (trim kw) as [|c k] eqn:Ek; [congruence|]. cbn [InputParser.isEmpty].
  f_equal. unfold Notions.countOf.
  rewrite CaseFacts.numberMatch_comma; [reflexivity|].
  apply CaseFacts.In_trim.
  destruct (OutcomeFacts.first_comma (trimEnd clause)) as [Hno | (a & r & Ha & Hnoa)].
  { rewrite (@CaseFacts.comma_not_noComma _ Hcl) in Hno. discriminate. }
  rewrite Ha, (@TextFacts.split_comma a r Hnoa).
  pose proof (TextFacts.split_acc_nonempty 44 [] r) as Hlen. fold (split 44 r) in Hlen.
  destruct (split 44 r) as [|q qs]; [cbn in Hlen; lia|].
  cbn [List.map]. change (js ",") with [44%N]. apply CaseFacts.In_join.
Qed.

Lemma second_comma_voids_count_witness :
  InputParser.parseInput (js "Chopin" ++ js "," ++ js " 5, 7")
  = InputParser.Parsed (js "Chopin") 3.
Proof.
  exact (@second_comma_voids_count (js "Chopin") (js " 5, 7")
           eq_refl ltac:(discriminate) eq_refl).
Defined.

(** ** The keyboard and the view button *)

Module KeyFacts.
Import NewsSearch Component InputParser.

Lemma cancelSearch_error s : error (fst (cancelSearch s)) = error s.
Proof.
  unfold cancelSearch, clearPolling.
  destruct s as [k [tid|] tk st rs er il av at' ht ex hp rm [pid|]]; reflexivity.
Qed.

(** A submission of a text that is not blank never leaves the message of
    the blank input. *)
Lemma handleSearch_error s :
  isEmpty (trim (keyword s)) = false ->
  error (fst (handleSearch s)) = Some (js "Please enter a keyword") ->
  error s = Some (js "Please enter a keyword").
Proof.
  intros Hne. unfold handleSearch. destruct (inProgress s).
  { now rewrite cancelSearch_error. }
  destruct (CaseFacts.parse_cases (keyword s))
    as [[Hb _] | [(pre & rest & _ & _ & ->) | (kw & n & -> & _)]].
  - rewrite (TextFacts.trim_blank (keyword s) Hb) in Hne. discriminate.
  - unfold Notions.emptyKeyword. destruct s; cbn. intros H.
    injection H; intros H'. vm_compute in H'. discriminate.
  - unfold clearPolling.
    destruct s as [k tid tk st rs er il av at' ht ex hp rm [pid|]]; cbn; discriminate.
Qed.

End KeyFacts.

(** X23.  The Enter key.  A key press either does nothing or submits the
    form as the button does.  It does nothing for any other key, with Shift
    held, while a request is loading, and on a blank text; otherwise it
    submits.  Hence a key press never cancels a search that is loading, and
    never brings up the message of the blank input. *)
Theorem enter_key_submits :
  forall (key : jsstring) (shiftKey : bool) (s : NewsSearch.State),
    let pressed := Component.handleKeyDown key shiftKey s in
    ((key <> js "Enter" \/ shiftKey = true \/ NewsSearch.isLoading s = true
      \/ InputParser.allWhiteSpace (NewsSearch.keyword s) = true) ->
     pressed = (s, []))
    /\ (key = js "Enter" -> shiftKey = false ->
        NewsSearch.isLoading s = false ->
        InputParser.allWhiteSpace (NewsSearch.keyword s) = false ->
        pressed = NewsSearch.handleSearch s)
    /\ (NewsSearch.error (fst pressed) = Some (js "Please enter a keyword") ->
        NewsSearch.error s = Some (js "Please enter a keyword")).
Proof.
  intros key shiftKey s pressed. unfold pressed, Component.handleKeyDown.
  split; [|split].
  - intros [Hk | [-> | [Hl | Hb]]].
    + apply JsStringFacts.eqb_neq in Hk. now rewrite Hk.
    + now rewrite andb_false_r.
    + rewrite Hl. cbn [negb andb]. now destruct (_ && _).
    + rewrite (TextFacts.trim_blank _ Hb). cbn [InputParser.isEmpty negb].
      rewrite andb_false_r. now destruct (_ && _).
  - intros -> -> Hl Hb. rewrite JsStringFacts.eqb_refl, Hl. cbn [negb andb].
    destruct (OutcomeFacts.trim_head (NewsSearch.keyword s))
      as [Hw | (pre & c & r & _ & _ & _ & ->)]; [congruence | reflexivity].
  - destruct (JsString.eqb key (js "Enter") && negb shiftKey); [|easy].
    destruct (negb (NewsSearch.isLoading s)); [|easy]. cbn [andb].
    destruct (InputParser.isEmpty (trim (NewsSearch.keyword s))) eqn:E; [easy|].
    cbn [negb]. now apply KeyFacts.handleSearch_error.
Qed.

(** X24.  After a pass the view button of every task in Active is
    disabled: a click on it changes nothing, in whatever state the component
    is by then, because a pass puts only pending and processing jobs into
    Active. *)
Theorem listed_task_cannot_be_viewed :
  forall (s later : NewsSearch.State) (captured : list Task.t)
         (tasks : Sync.ListResponse) (now : Z) (task : Task.t),
    In task (NewsSearch.activeTasks
               (fst (NewsSearch.loadTasks_fulfilled captured tasks now s))) ->
    isTerminal task = false
    /\ Component.viewTask task later = later.
Proof.
  intros s later captured tasks now task.
  rewrite loadTasks_fulfilled_active. unfold Sync.active. intros H.
  apply filter_In in H. destruct H as [_ H].
  apply PassFacts.active_is_pending in H.
  split.
  - destruct (isTerminal task) eqn:E; [|reflexivity].
    apply PassFacts.terminal_not_pending in E. congruence.
  - unfold Component.viewTask. now rewrite H.
Qed.

Lemma listed_task_cannot_be_viewed_witness :
  let s := fst (NewsSearch.loadTasks_fulfilled []
                  (Sync.BareArray [Samples.lima; Samples.rome]) 600000
                  NewsSearch.initial) in
  In Samples.lima (NewsSearch.activeTasks s)
  /\ Component.viewTask Samples.lima s = s.
Proof.
  cbv zeta.
  assert (Hin : In Samples.lima
                  (NewsSearch.activeTasks
                     (fst (NewsSearch.loadTasks_fulfilled []
                             (Sync.BareArray [Samples.lima; Samples.rome]) 600000
                             NewsSearch.initial))))
    by (vm_compute; left; reflexivity).
  split; [exact Hin|].
  exact (proj2 (@listed_task_cannot_be_viewed NewsSearch.initial _ []
                  (Sync.BareArray [Samples.lima; Samples.rome]) 600000
                  Samples.lima Hin)).
Defined.

(** ** Failure messages *)


(** X25.  Every failure leaves a message to show.  After a rejected create,
    a rejected status request and an answer with status failed, the error of
    the component is set to a text that is not empty: the detail of the
    response, else the message of the error, else a fixed text, an empty
    detail or message being passed over; for a failed job the text begins
    with the fixed words and includes the error message of the job when it
    has one. *)
Theorem failure_message_is_never_blank :
  forall (err : NewsSearch.RequestError) (captured : option TaskId)
         (id : TaskId) (taskData : Task.t) (s : NewsSearch.State),
    (exists m, NewsSearch.error (fst (NewsSearch.handleSearch_createFailed err s))
               = Some m /\ m <> [])
    /\ (exists m, NewsSearch.error (fst (NewsSearch.pollTaskStatus_rejected err s))
                  = Some m /\ m <> [])
    /\ (Task.status taskData = failed ->
        exists m,
          NewsSearch.error
            (fst (NewsSearch.pollTaskStatus_fulfilled captured id taskData s))
          = Some m
          /\ startsWith (js "Search task failed") m = true
          /\ (forall text, Task.error_message taskData = Some text ->
                           text <> [] ->
                           m = js "Search task failed: " ++ text))
    /\ (forall text fallback,
          NewsSearch.detail err = Some text -> text <> [] ->
          NewsSearch.errorText err fallback = text)
    /\ (forall text fallback,
          (NewsSearch.detail err = None \/ NewsSearch.detail err = Some []) ->
          NewsSearch.message err = Some text -> text <> [] ->
          NewsSearch.errorText err fallback = text).
Proof.
  intros err captured id taskData s.
  split; [|split; [|split; [|split]]].
  - eexists. split.
    + destruct s; reflexivity.
    + now apply MessageFacts.errorText_not_blank.
  - eexists. split.
    + unfold NewsSearch.pollTaskStatus_rejected, NewsSearch.clearPolling.
      destruct s as [k tid tk st rs er il av at' ht ex hp rm [pid|]]; reflexivity.
    + now apply MessageFacts.errorText_not_blank.
  - intros Hfailed. exists (NewsSearch.failureText taskData). split; [|split].
    + unfold NewsSearch.pollTaskStatus_fulfilled, NewsSearch.clearPolling.
      rewrite Hfailed.
      destruct s as [k tid tk st rs er il av at' ht ex hp rm [pid|]];
        destruct (NewsSearch.isCurrent captured id); reflexivity.
    + apply MessageFacts.failureText_prefix.
    + intros text Ht Hne. unfold NewsSearch.failureText. rewrite Ht.
      destruct text; [congruence | reflexivity].
  - intros text fallback Hd Hne. unfold NewsSearch.errorText. rewrite Hd.
    destruct text; [congruence | reflexivity].
  - intros text fallback Hd Hm Hne. unfold NewsSearch.errorText.
    destruct Hd as [-> | ->]; rewrite Hm; destruct text; congruence || reflexivity.
Qed.
